(** * Black-oil TPFA local residual (opm/models/blackoil/blackoillocalresidualtpfa.hh)

  A shallow embedding of [BlackOilLocalResidualTPFA]: the storage term
  ([computeStorage]), the two-point flux ([computeFlux], [evalPhaseFluxes_]),
  the source term ([computeSource]) and the surface-volume/mass conversion
  ([adaptMassConservationQuantities_]).

  Conventions of the embedding.
  - [Scalar] is an exact field (the canonical rationals [Qc]); rounding of
    the C++ [double] is not modelled.
  - [Dune::FieldVector<E, numEq>] is a [list E]; [v[k] += e] is stdpp's
    [alter], [v[k] = e] is stdpp's insert.  An index outside the vector is
    undefined behaviour in the source (a bounds assertion in debug builds);
    here such a write leaves the vector unchanged, and the theorems that
    read a slot assume that the slot exists.
  - C++ template parameters ([LhsEval], [UpEval]) are type classes.
  - Everything the header takes from its [TypeTag] (the fluid system, the
    index set, the feature flags, the extension modules, the extensive
    quantities' pressure-difference routine) is a field of a record. *)

From Stdlib Require Import QArith Qcanon.
From stdpp Require Import base decidable numbers option list vector.

Abbreviation Scalar := Qc (only parsing).

(** Integer literals as scalars (used by the concrete configurations). *)
Definition ofZ (z : Z) : Scalar := Q2Qc (inject_Z z).

(** ** Fluid system and index set *)

(** The parts of [FluidSystem] the header uses.  Phase and component
  indices are the fluid system's own constants. *)
Module FluidSystem.
Record t := {
  waterPhaseIdx : nat;
  oilPhaseIdx : nat;
  gasPhaseIdx : nat;
  waterCompIdx : nat;
  oilCompIdx : nat;
  gasCompIdx : nat;
  phaseIsActive : nat -> bool;
  solventComponentIndex : nat -> nat;
  enableDissolvedGas : bool;
  enableVaporizedOil : bool;
  enableVaporizedWater : bool;
  referenceDensity : nat -> nat -> Scalar  (* phaseIdx, pvtRegionIdx *)
}.
End FluidSystem.

(** The parts of [Indices] the header uses. *)
Module Indices.
Record t := {
  conti0EqIdx : nat;
  numPhases : nat;
  canonicalToActiveComponentIndex : nat -> nat;
  waterEnabled : bool;
  gasEnabled : bool;
  oilEnabled : bool;
  contiEnergyEqIdx : nat
}.
End Indices.

Section Model.
(** [numEq]: the number of equations, which is also the number of
    derivatives an [Evaluation] carries. *)
Context {numEq : nat}.

(** ** Evaluation *)

(** Modelled from the spec: the automatic-differentiation value type
    ([DenseAd::Evaluation], which is not part of the sources at hand) is
    "a dual-number value carrying a scalar plus partial derivatives w.r.t. a
    fixed-size set of local unknowns" with "standard chain-rule arithmetic",
    a "decay" operation that discards derivatives and a "value"
    extractor. *)
Record Evaluation := mkEval {
  value : Scalar;
  derivatives : vec Scalar numEq
}.

#[global] Instance Evaluation_eq_dec : EqDecision Evaluation.
Proof. solve_decision. Defined.

(** [Evaluation(c)]: a constant, all derivatives zero. *)
Definition constant (c : Scalar) : Evaluation :=
  mkEval c (vreplicate numEq 0%Qc).

(** [variable<Evaluation>(c, idx)]: derivative one with respect to the
    unknown [idx], zero with respect to the others. *)
Definition variable (c : Scalar) (idx : nat) : Evaluation :=
  mkEval c (fun_to_vec (fun i : fin numEq =>
                          if decide (fin_to_nat i = idx) then 1%Qc else 0%Qc)).

Definition eadd (a b : Evaluation) : Evaluation :=
  mkEval (value a + value b)%Qc
         (vzip_with Qcplus (derivatives a) (derivatives b)).

(** Product rule. *)
Definition emul (a b : Evaluation) : Evaluation :=
  mkEval (value a * value b)%Qc
         (vzip_with (fun da db => (da * value b + db * value a)%Qc)
                    (derivatives a) (derivatives b)).

(** [Evaluation * Scalar]. *)
Definition escale (a : Evaluation) (s : Scalar) : Evaluation :=
  mkEval (value a * s)%Qc (vmap (fun d => (d * s)%Qc) (derivatives a)).

(** [Scalar * Evaluation]. *)
Definition sscale (s : Scalar) (a : Evaluation) : Evaluation :=
  mkEval (s * value a)%Qc (vmap (fun d => (s * d)%Qc) (derivatives a)).

(** What [computeStorage] needs of its template parameter [LhsEval]. *)
Class LhsEval (L : Type) := {
  lhs_const : Scalar -> L;               (* L(c) *)
  lhs_variable : Scalar -> nat -> L;     (* variable<L>(c, idx) *)
  lhs_decay : Evaluation -> L;           (* Toolbox::decay<L>(e) *)
  lhs_add : L -> L -> L;
  lhs_mul : L -> L -> L;
  lhs_scale : L -> Scalar -> L           (* l * scalar *)
}.

(** [LhsEval = Evaluation]: decay keeps the derivatives. *)
#[global] Instance LhsEval_Evaluation : LhsEval Evaluation := {|
  lhs_const := constant;
  lhs_variable := variable;
  lhs_decay := fun e => e;
  lhs_add := eadd;
  lhs_mul := emul;
  lhs_scale := escale
|}.

(** What [evalPhaseFluxes_] and [computeFlux] need of [UpEval]. *)
Class UpEval (U : Type) := {
  up_decay : Evaluation -> U;            (* decay<U>(e) *)
  up_mul : U -> Evaluation -> Evaluation (* u * e *)
}.

#[global] Instance UpEval_Evaluation : UpEval Evaluation := {|
  up_decay := fun e => e;
  up_mul := emul
|}.

(** [UpEval = Scalar]: decay drops the derivatives. *)
#[global] Instance UpEval_Scalar : UpEval Scalar := {|
  up_decay := value;
  up_mul := sscale
|}.

(** ** Fluid state, intensive quantities, element context, problem *)

Record FluidState := {
  saturation : nat -> Evaluation;
  invB : nat -> Evaluation;
  Rs : Evaluation;
  Rv : Evaluation;
  Rvw : Evaluation
}.

Record IntensiveQuantities := {
  fluidState : FluidState;
  porosity : Evaluation;
  mobility : nat -> Evaluation;
  pvtRegionIndex : nat
}.

(** [RateVector]: one [Evaluation] per equation. *)
Abbreviation RateVector := (list Evaluation).

Record SubControlVolumeFace := {
  interiorIndex : nat;
  exteriorIndex : nat;
  area : Scalar
}.

Record Stencil := {
  interiorFace : nat -> SubControlVolumeFace;
  globalSpaceIndex : nat -> nat
}.

Record ElementContext := {
  stencil : nat -> Stencil;                                (* timeIdx *)
  intensiveQuantities : nat -> nat -> IntensiveQuantities; (* dofIdx, timeIdx *)
  dofVolume : nat -> nat -> Scalar;                        (* dofIdx, timeIdx *)
  focusDofIndex : nat
}.

(** [elemCtx.problem()]: the callbacks of the problem. *)
Record Problem := {
  transmissibility : ElementContext -> nat -> nat -> Scalar;
  thresholdPressure : nat -> nat -> Scalar;
  gravity : list Scalar;
  dofCenterDepth : ElementContext -> nat -> nat -> Scalar;
  rockCompTransMultiplier : IntensiveQuantities -> nat -> Evaluation;
  source : RateVector -> ElementContext -> nat -> nat -> RateVector
}.

(** An extension module ([BlackOilSolventModule] and the like). *)
Record BlackOilModule := {
  addStorage : forall (L : Type), LhsEval L -> list L -> IntensiveQuantities -> list L;
  computeFlux_ : RateVector -> ElementContext -> nat -> nat -> RateVector
}.

(** [TypeTag]: the compile-time properties the class reads. *)
Record TypeTag := {
  FS : FluidSystem.t;
  IX : Indices.t;
  numPhases : nat;
  dimWorld : nat;
  blackoilConserveSurfaceVolume : bool;
  enableEnergy : bool;
  BlackOilEnergyScalingFactor : Scalar;
  (* ExtensiveQuantities::calculatePhasePressureDiff_: from
     intQuantsIn, intQuantsEx, scvfIdx, timeIdx, phaseIdx, interiorDofIdx,
     exteriorDofIdx, Vin, Vex, globalIndexIn, globalIndexEx, distZ*g and
     thpres to (upIdx, dnIdx, pressureDifference) *)
  calculatePhasePressureDiff_ :
    IntensiveQuantities -> IntensiveQuantities -> nat -> nat -> nat ->
    nat -> nat -> Scalar -> Scalar -> nat -> nat -> Scalar -> Scalar ->
    nat * nat * Evaluation;
  SolventModule : BlackOilModule;
  ExtboModule : BlackOilModule;
  PolymerModule : BlackOilModule;
  EnergyModule : BlackOilModule;
  FoamModule : BlackOilModule;
  BrineModule : BlackOilModule;
  MICPModule : BlackOilModule;
  MICPModule_addSource : RateVector -> ElementContext -> nat -> nat -> RateVector;
  DiffusionModule_addDiffusiveFlux : RateVector -> ElementContext -> nat -> nat -> RateVector
}.

(** The equation slot of a component:
    [conti0EqIdx + Indices::canonicalToActiveComponentIndex(compIdx)]. *)
Definition eqSlot (tt : TypeTag) (compIdx : nat) : nat :=
  Indices.conti0EqIdx (IX tt)
  + Indices.canonicalToActiveComponentIndex (IX tt) compIdx.

(** ** adaptMassConservationQuantities_ *)

Definition adaptMassConservationQuantities_ {L} `{LhsEval L}
    (tt : TypeTag) (container : list L) (pvtRegionIdx : nat) : list L :=
  if blackoilConserveSurfaceVolume tt then container
  else
    let container :=
      if Indices.waterEnabled (IX tt) then
        alter (fun x => lhs_scale x
                 (FluidSystem.referenceDensity (FS tt)
                    (FluidSystem.waterPhaseIdx (FS tt)) pvtRegionIdx))
              (eqSlot tt (FluidSystem.waterCompIdx (FS tt))) container
      else container in
    let container :=
      if Indices.gasEnabled (IX tt) then
        alter (fun x => lhs_scale x
                 (FluidSystem.referenceDensity (FS tt)
                    (FluidSystem.gasPhaseIdx (FS tt)) pvtRegionIdx))
              (eqSlot tt (FluidSystem.gasCompIdx (FS tt))) container
      else container in
    if Indices.oilEnabled (IX tt) then
      alter (fun x => lhs_scale x
               (FluidSystem.referenceDensity (FS tt)
                  (FluidSystem.oilPhaseIdx (FS tt)) pvtRegionIdx))
            (eqSlot tt (FluidSystem.oilCompIdx (FS tt))) container
    else container.

(** ** computeStorage *)

(** The body of the loop over [phaseIdx]. *)
Definition computeStorage_phase {L} `{LhsEval L}
    (tt : TypeTag) (intQuants : IntensiveQuantities) (timeIdx : nat)
    (storage : list L) (phaseIdx : nat) : list L :=
  let fs := fluidState intQuants in
  if negb (FluidSystem.phaseIsActive (FS tt) phaseIdx) then
    if Indices.numPhases (IX tt) =? 3 then
      (* add trivial equation for the pseudo phase *)
      let slot := eqSlot tt (FluidSystem.solventComponentIndex (FS tt) phaseIdx) in
      if timeIdx =? 0 then
        <[slot := lhs_variable 0%Qc slot]> storage
      else
        <[slot := lhs_const 0%Qc]> storage
    else storage
  else
    let slot := eqSlot tt (FluidSystem.solventComponentIndex (FS tt) phaseIdx) in
    let surfaceVolume :=
      lhs_mul (lhs_mul (lhs_decay (saturation fs phaseIdx))
                       (lhs_decay (invB fs phaseIdx)))
              (lhs_decay (porosity intQuants)) in
    let storage := alter (fun x => lhs_add x surfaceVolume) slot storage in
    (* account for dissolved gas *)
    let storage :=
      if (phaseIdx =? FluidSystem.oilPhaseIdx (FS tt))
         && FluidSystem.enableDissolvedGas (FS tt) then
        alter (fun x => lhs_add x (lhs_mul (lhs_decay (Rs (fluidState intQuants)))
                                           surfaceVolume))
              (eqSlot tt (FluidSystem.gasCompIdx (FS tt))) storage
      else storage in
    (* account for vaporized oil *)
    let storage :=
      if (phaseIdx =? FluidSystem.gasPhaseIdx (FS tt))
         && FluidSystem.enableVaporizedOil (FS tt) then
        alter (fun x => lhs_add x (lhs_mul (lhs_decay (Rv (fluidState intQuants)))
                                           surfaceVolume))
              (eqSlot tt (FluidSystem.oilCompIdx (FS tt))) storage
      else storage in
    (* account for vaporized water *)
    if (phaseIdx =? FluidSystem.gasPhaseIdx (FS tt))
       && FluidSystem.enableVaporizedWater (FS tt) then
      alter (fun x => lhs_add x (lhs_mul (lhs_decay (Rvw (fluidState intQuants)))
                                         surfaceVolume))
            (eqSlot tt (FluidSystem.waterCompIdx (FS tt))) storage
    else storage.

(** [storage = 0.0] followed by the loop over the phases. *)
Definition computeStorage_phases {L} `{LhsEval L}
    (tt : TypeTag) (storage : list L) (intQuants : IntensiveQuantities)
    (timeIdx : nat) : list L :=
  let storage := (fun _ => lhs_const 0%Qc) <$> storage in
  foldl (computeStorage_phase tt intQuants timeIdx) storage (seq 0 (numPhases tt)).

(** The calls [Module::addStorage(storage, intQuants)], in source order. *)
Definition addStorage_modules {L} `{LhsEval L}
    (tt : TypeTag) (storage : list L) (intQuants : IntensiveQuantities) : list L :=
  let storage := addStorage (SolventModule tt) L _ storage intQuants in
  let storage := addStorage (ExtboModule tt) L _ storage intQuants in
  let storage := addStorage (PolymerModule tt) L _ storage intQuants in
  let storage := addStorage (EnergyModule tt) L _ storage intQuants in
  let storage := addStorage (FoamModule tt) L _ storage intQuants in
  let storage := addStorage (BrineModule tt) L _ storage intQuants in
  addStorage (MICPModule tt) L _ storage intQuants.

(** [computeStorage(storage, intQuants, timeIdx)]; the result is the
    content of [storage] on return. *)
Definition computeStorage {L} `{LhsEval L}
    (tt : TypeTag) (storage : list L) (intQuants : IntensiveQuantities)
    (timeIdx : nat) : list L :=
  let storage := computeStorage_phases tt storage intQuants timeIdx in
  let storage := adaptMassConservationQuantities_ tt storage (pvtRegionIndex intQuants) in
  addStorage_modules tt storage intQuants.

(** [computeStorage(storage, elemCtx, dofIdx, timeIdx)]. *)
Definition computeStorage_ctx {L} `{LhsEval L}
    (tt : TypeTag) (storage : list L) (elemCtx : ElementContext)
    (dofIdx timeIdx : nat) : list L :=
  let intQuants := intensiveQuantities elemCtx dofIdx timeIdx in
  computeStorage tt storage intQuants timeIdx.

(** ** evalPhaseFluxes_ *)

(** Modelled from the spec: [getInvB_<FluidSystem, FluidState, UpEval>] and
    [BlackOil::getRs_], [getRv_], [getRvw_] (declared with the fluid state,
    outside the sources at hand) read the upstream fluid state's inverse
    formation-volume-factor and ratios, "decayed to plain scalars" when
    [UpEval] is [Scalar] and derivative-carrying when it is [Evaluation]. *)
Definition getInvB_ {U} `{UpEval U} (fs : FluidState) (phaseIdx pvtRegionIdx : nat) : U :=
  up_decay (invB fs phaseIdx).
Definition getRs_ {U} `{UpEval U} (fs : FluidState) (pvtRegionIdx : nat) : U :=
  up_decay (Rs fs).
Definition getRv_ {U} `{UpEval U} (fs : FluidState) (pvtRegionIdx : nat) : U :=
  up_decay (Rv fs).
Definition getRvw_ {U} `{UpEval U} (fs : FluidState) (pvtRegionIdx : nat) : U :=
  up_decay (Rvw fs).

(** [evalPhaseFluxes_<UpEval, Eval, FluidState>(flux, phaseIdx, pvtRegionIdx,
    surfaceVolumeFlux, upFs)] with [Eval = Evaluation]. *)
Definition evalPhaseFluxes_ {U} `{UpEval U}
    (tt : TypeTag) (flux : RateVector) (phaseIdx pvtRegionIdx : nat)
    (surfaceVolumeFlux : Evaluation) (upFs : FluidState) : RateVector :=
  let rho := FluidSystem.referenceDensity (FS tt) in
  let slot := eqSlot tt (FluidSystem.solventComponentIndex (FS tt) phaseIdx) in
  let flux :=
    if blackoilConserveSurfaceVolume tt then
      alter (fun x => eadd x surfaceVolumeFlux) slot flux
    else
      alter (fun x => eadd x (escale surfaceVolumeFlux (rho phaseIdx pvtRegionIdx)))
            slot flux in
  if phaseIdx =? FluidSystem.oilPhaseIdx (FS tt) then
    (* dissolved gas (in the oil phase). *)
    if FluidSystem.enableDissolvedGas (FS tt) then
      let Rs := getRs_ (U:=U) upFs pvtRegionIdx in
      let gasSlot := eqSlot tt (FluidSystem.gasCompIdx (FS tt)) in
      if blackoilConserveSurfaceVolume tt then
        alter (fun x => eadd x (up_mul Rs surfaceVolumeFlux)) gasSlot flux
      else
        alter (fun x => eadd x (escale (up_mul Rs surfaceVolumeFlux)
                                  (rho (FluidSystem.gasPhaseIdx (FS tt)) pvtRegionIdx)))
              gasSlot flux
    else flux
  else if phaseIdx =? FluidSystem.gasPhaseIdx (FS tt) then
    (* vaporized oil (in the gas phase). *)
    let flux :=
      if FluidSystem.enableVaporizedOil (FS tt) then
        let Rv := getRv_ (U:=U) upFs pvtRegionIdx in
        let oilSlot := eqSlot tt (FluidSystem.oilCompIdx (FS tt)) in
        if blackoilConserveSurfaceVolume tt then
          alter (fun x => eadd x (up_mul Rv surfaceVolumeFlux)) oilSlot flux
        else
          alter (fun x => eadd x (escale (up_mul Rv surfaceVolumeFlux)
                                    (rho (FluidSystem.oilPhaseIdx (FS tt)) pvtRegionIdx)))
                oilSlot flux
      else flux in
    (* vaporized water (in the gas phase). *)
    if FluidSystem.enableVaporizedWater (FS tt) then
      let Rvw := getRvw_ (U:=U) upFs pvtRegionIdx in
      let waterSlot := eqSlot tt (FluidSystem.waterCompIdx (FS tt)) in
      if blackoilConserveSurfaceVolume tt then
        alter (fun x => eadd x (up_mul Rvw surfaceVolumeFlux)) waterSlot flux
      else
        alter (fun x => eadd x (escale (up_mul Rvw surfaceVolumeFlux)
                                  (rho (FluidSystem.waterPhaseIdx (FS tt)) pvtRegionIdx)))
              waterSlot flux
    else flux
  else flux.

(** [evalPhaseFluxes_<UpEval, FluidState>(flux, phaseIdx, pvtRegionIdx,
    extQuants, upFs)]: the overload that takes the volume flux from the
    extensive quantities ([volumeFlux] stands for [extQuants.volumeFlux]). *)
Definition evalPhaseFluxes_extQuants {U} `{UpEval U}
    (tt : TypeTag) (flux : RateVector) (phaseIdx pvtRegionIdx : nat)
    (volumeFlux : nat -> Evaluation) (upFs : FluidState) : RateVector :=
  let invB := getInvB_ (U:=U) upFs phaseIdx pvtRegionIdx in
  let surfaceVolumeFlux := up_mul invB (volumeFlux phaseIdx) in
  evalPhaseFluxes_ (U:=U) tt flux phaseIdx pvtRegionIdx surfaceVolumeFlux upFs.

(** ** computeFlux *)

(** The local variables [computeFlux] sets up before its loop.  [g] is
    [gravity()[dimWorld - 1]]; a gravity vector too short for that index is
    read as zero. *)
Record FluxLocals := {
  interiorDofIdx : nat;
  exteriorDofIdx : nat;
  Vin : Scalar;
  Vex : Scalar;
  globalIndexIn : nat;
  globalIndexEx : nat;
  trans : Scalar;
  faceArea : Scalar;
  thpres : Scalar;
  g : Scalar;
  intQuantsIn : IntensiveQuantities;
  intQuantsEx : IntensiveQuantities;
  distZ : Scalar;
  focusDofIdx : nat
}.

Definition computeFlux_locals (tt : TypeTag) (problem : Problem)
    (elemCtx : ElementContext) (scvfIdx timeIdx : nat) : FluxLocals :=
  let stencil := stencil elemCtx timeIdx in
  let scvf := interiorFace stencil scvfIdx in
  let interiorDofIdx := interiorIndex scvf in
  let exteriorDofIdx := exteriorIndex scvf in
  let zIn := dofCenterDepth problem elemCtx interiorDofIdx timeIdx in
  let zEx := dofCenterDepth problem elemCtx exteriorDofIdx timeIdx in
  {| interiorDofIdx := interiorDofIdx;
     exteriorDofIdx := exteriorDofIdx;
     Vin := dofVolume elemCtx interiorDofIdx 0;
     Vex := dofVolume elemCtx exteriorDofIdx 0;
     globalIndexIn := globalSpaceIndex stencil interiorDofIdx;
     globalIndexEx := globalSpaceIndex stencil exteriorDofIdx;
     trans := transmissibility problem elemCtx interiorDofIdx exteriorDofIdx;
     faceArea := area scvf;
     thpres := thresholdPressure problem
                 (globalSpaceIndex stencil interiorDofIdx)
                 (globalSpaceIndex stencil exteriorDofIdx);
     g := default 0%Qc (gravity problem !! (dimWorld tt - 1));
     intQuantsIn := intensiveQuantities elemCtx interiorDofIdx timeIdx;
     intQuantsEx := intensiveQuantities elemCtx exteriorDofIdx timeIdx;
     distZ := (zIn - zEx)%Qc;
     focusDofIdx := focusDofIndex elemCtx |}.

(** The Darcy flux of one phase, given the upstream index and the
    pressure difference [calculatePhasePressureDiff_] returned. *)
Definition darcyFlux (problem : Problem) (loc : FluxLocals)
    (upIdx : nat) (pressureDifference : Evaluation) (phaseIdx : nat) : Evaluation :=
  let up := if upIdx =? interiorDofIdx loc then intQuantsIn loc else intQuantsEx loc in
  let globalIndex :=
    if upIdx =? interiorDofIdx loc then globalIndexIn loc else globalIndexEx loc in
  let transMult := rockCompTransMultiplier problem up globalIndex in
  if bool_decide (value pressureDifference = 0%Qc) then
    constant 0%Qc (* NB maybe we could drop calculations *)
  else if upIdx =? interiorDofIdx loc then
    escale (emul (emul pressureDifference (mobility up phaseIdx)) transMult)
           (- trans loc / faceArea loc)%Qc
  else
    escale pressureDifference
           (value (mobility up phaseIdx) * value transMult
            * (- trans loc / faceArea loc))%Qc.

(** The rest of the loop body: conversion to a surface-volume flux and
    distribution over the component slots. *)
Definition computeFlux_phase (tt : TypeTag) (problem : Problem) (loc : FluxLocals)
    (upIdx : nat) (pressureDifference : Evaluation)
    (flux : RateVector) (phaseIdx : nat) : RateVector :=
  let up := if upIdx =? interiorDofIdx loc then intQuantsIn loc else intQuantsEx loc in
  let darcyFlux := darcyFlux problem loc upIdx pressureDifference phaseIdx in
  let pvtRegionIdx := pvtRegionIndex up in
  if upIdx =? focusDofIdx loc then
    let invB := getInvB_ (U:=Evaluation) (fluidState up) phaseIdx pvtRegionIdx in
    let surfaceVolumeFlux := emul invB darcyFlux in
    evalPhaseFluxes_ (U:=Evaluation) tt flux phaseIdx pvtRegionIdx
                     surfaceVolumeFlux (fluidState up)
  else
    let invB := getInvB_ (U:=Scalar) (fluidState up) phaseIdx pvtRegionIdx in
    let surfaceVolumeFlux := sscale invB darcyFlux in
    evalPhaseFluxes_ (U:=Scalar) tt flux phaseIdx pvtRegionIdx
                     surfaceVolumeFlux (fluidState up).

(** The call of [ExtensiveQuantities::calculatePhasePressureDiff_] in the
    loop body; it yields [(upIdx, dnIdx, pressureDifference)]. *)
Definition phasePressureDiff (tt : TypeTag) (loc : FluxLocals)
    (scvfIdx timeIdx phaseIdx : nat) : nat * nat * Evaluation :=
  calculatePhasePressureDiff_ tt
    (intQuantsIn loc) (intQuantsEx loc) scvfIdx timeIdx phaseIdx
    (interiorDofIdx loc) (exteriorDofIdx loc) (Vin loc) (Vex loc)
    (globalIndexIn loc) (globalIndexEx loc)
    (distZ loc * g loc)%Qc (thpres loc).

(** The body of the loop over [phaseIdx]. *)
Definition computeFlux_body (tt : TypeTag) (problem : Problem) (loc : FluxLocals)
    (scvfIdx timeIdx : nat) (flux : RateVector) (phaseIdx : nat) : RateVector :=
  if negb (FluidSystem.phaseIsActive (FS tt) phaseIdx) then flux
  else
    let '(upIdx, dnIdx, pressureDifference) :=
      phasePressureDiff tt loc scvfIdx timeIdx phaseIdx in
    computeFlux_phase tt problem loc upIdx pressureDifference flux phaseIdx.

(** The calls [Module::computeFlux(flux, elemCtx, scvfIdx, timeIdx)] and
    the diffusive flux, in source order. *)
Definition computeFlux_modules (tt : TypeTag) (flux : RateVector)
    (elemCtx : ElementContext) (scvfIdx timeIdx : nat) : RateVector :=
  let flux := computeFlux_ (SolventModule tt) flux elemCtx scvfIdx timeIdx in
  let flux := computeFlux_ (ExtboModule tt) flux elemCtx scvfIdx timeIdx in
  let flux := computeFlux_ (PolymerModule tt) flux elemCtx scvfIdx timeIdx in
  let flux := computeFlux_ (EnergyModule tt) flux elemCtx scvfIdx timeIdx in
  let flux := computeFlux_ (FoamModule tt) flux elemCtx scvfIdx timeIdx in
  let flux := computeFlux_ (BrineModule tt) flux elemCtx scvfIdx timeIdx in
  let flux := computeFlux_ (MICPModule tt) flux elemCtx scvfIdx timeIdx in
  DiffusionModule_addDiffusiveFlux tt flux elemCtx scvfIdx timeIdx.

(** [flux = 0.0] followed by the loop over the phases. *)
Definition computeFlux_phases (tt : TypeTag) (problem : Problem)
    (flux : RateVector) (elemCtx : ElementContext) (scvfIdx timeIdx : nat) : RateVector :=
  let flux := (fun _ => constant 0%Qc) <$> flux in
  let loc := computeFlux_locals tt problem elemCtx scvfIdx timeIdx in
  foldl (computeFlux_body tt problem loc scvfIdx timeIdx) flux (seq 0 (numPhases tt)).

(** [computeFlux(flux, elemCtx, scvfIdx, timeIdx)].  A failed [assert]
    is [None]; otherwise the result is the content of [flux] on return. *)
Definition computeFlux (tt : TypeTag) (problem : Problem)
    (flux : RateVector) (elemCtx : ElementContext) (scvfIdx timeIdx : nat)
    : option RateVector :=
  if negb (timeIdx =? 0) then None (* assert(timeIdx == 0) *)
  else
    let scvf := interiorFace (stencil elemCtx timeIdx) scvfIdx in
    if interiorIndex scvf =? exteriorIndex scvf then
      None (* assert(interiorDofIdx != exteriorDofIdx) *)
    else
      let flux := computeFlux_phases tt problem flux elemCtx scvfIdx timeIdx in
      Some (computeFlux_modules tt flux elemCtx scvfIdx timeIdx).

(** ** computeSource *)

Definition computeSource (tt : TypeTag) (problem : Problem)
    (source_ : RateVector) (elemCtx : ElementContext) (dofIdx timeIdx : nat)
    : RateVector :=
  (* retrieve the source term intrinsic to the problem *)
  let source_ := source problem source_ elemCtx dofIdx timeIdx in
  (* deal with MICP (if present) *)
  let source_ := MICPModule_addSource tt source_ elemCtx dofIdx timeIdx in
  (* scale the source term of the energy equation *)
  if enableEnergy tt then
    alter (fun x => escale x (BlackOilEnergyScalingFactor tt))
          (Indices.contiEnergyEqIdx (IX tt)) source_
  else source_.

End Model.

Abbreviation RateVector := (list Evaluation).

(** * Statements of the specification *)

Section Specification.
Context {numEq : nat}.
Implicit Types (tt : @TypeTag numEq) (loc : @FluxLocals numEq).

(** The upstream side of a face, as [computeFlux] selects it from the
    upstream index. *)
Definition upstream loc (upIdx : nat) : IntensiveQuantities :=
  if upIdx =? interiorDofIdx loc then intQuantsIn loc else intQuantsEx loc.

Definition upstreamGlobalIndex loc (upIdx : nat) : nat :=
  if upIdx =? interiorDofIdx loc then globalIndexIn loc else globalIndexEx loc.

(** The face with the state of the side that is not upstream replaced. *)
Definition withDownstream (upIdx : nat) (iq : IntensiveQuantities) loc : FluxLocals :=
  {| interiorDofIdx := interiorDofIdx loc;
     exteriorDofIdx := exteriorDofIdx loc;
     Vin := Vin loc; Vex := Vex loc;
     globalIndexIn := globalIndexIn loc;
     globalIndexEx := globalIndexEx loc;
     trans := trans loc; faceArea := faceArea loc;
     thpres := thpres loc; g := g loc;
     intQuantsIn := if upIdx =? interiorDofIdx loc then intQuantsIn loc else iq;
     intQuantsEx := if upIdx =? interiorDofIdx loc then iq else intQuantsEx loc;
     distZ := distZ loc;
     focusDofIdx := focusDofIdx loc |}.

(** The Darcy flux in the words of the specification:
    potentialDifference * upstreamMobility * transMultiplier *
    (-transmissibility / faceArea).  The product is associated as the code
    evaluates it: from the left when the interior side is upstream, the
    potential difference times the product of the other three factors when
    the exterior side is; the exact value is the same. *)
Definition spec_darcyFlux (problem : @Problem numEq) loc
    (upIdx : nat) (potentialDifference : Scalar) (phaseIdx : nat) : Scalar :=
  let up := upstream loc upIdx in
  let upstreamMobility := value (mobility up phaseIdx) in
  let transMultiplier :=
    value (rockCompTransMultiplier problem up (upstreamGlobalIndex loc upIdx)) in
  if upIdx =? interiorDofIdx loc then
    (potentialDifference * upstreamMobility * transMultiplier
     * (- trans loc / faceArea loc))%Qc
  else
    (potentialDifference
     * (upstreamMobility * transMultiplier * (- trans loc / faceArea loc)))%Qc.

(** The factor the conservation mode puts on a surface volume of the
    main component of phase [ph]: one, or the phase's reference density. *)
Definition conservationFactor tt (ph pvtRegionIdx : nat) : Scalar :=
  if blackoilConserveSurfaceVolume tt then 1%Qc
  else FluidSystem.referenceDensity (FS tt) ph pvtRegionIdx.

(** What the specification says one phase adds to slot [k] of the flux
    vector, for a surface-volume flux [svf] of the phase and the upstream
    fluid state [upFs]. *)
Definition spec_flux_contribution tt (upFs : @FluidState numEq)
    (pvtRegionIdx phaseIdx : nat) (svf : Scalar) (k : nat) : Scalar :=
  let at_ (c : nat) (x : Scalar) : Scalar :=
    if bool_decide (k = eqSlot tt c) then x else 0%Qc in
  let dens := conservationFactor tt in
  (at_ (FluidSystem.solventComponentIndex (FS tt) phaseIdx)
       (svf * dens phaseIdx pvtRegionIdx)
   + (if phaseIdx =? FluidSystem.oilPhaseIdx (FS tt) then
        if FluidSystem.enableDissolvedGas (FS tt) then
          at_ (FluidSystem.gasCompIdx (FS tt))
              (value (Rs upFs) * svf
               * dens (FluidSystem.gasPhaseIdx (FS tt)) pvtRegionIdx)
        else 0
      else if phaseIdx =? FluidSystem.gasPhaseIdx (FS tt) then
        (if FluidSystem.enableVaporizedOil (FS tt) then
           at_ (FluidSystem.oilCompIdx (FS tt))
               (value (Rv upFs) * svf
                * dens (FluidSystem.oilPhaseIdx (FS tt)) pvtRegionIdx)
         else 0)
        + (if FluidSystem.enableVaporizedWater (FS tt) then
             at_ (FluidSystem.waterCompIdx (FS tt))
                 (value (Rvw upFs) * svf
                  * dens (FluidSystem.waterPhaseIdx (FS tt)) pvtRegionIdx)
           else 0)
      else 0))%Qc.

(** What the specification says one active phase adds to slot [k] of the
    storage vector. *)
Definition spec_storage_contribution tt (intQuants : @IntensiveQuantities numEq)
    (phaseIdx k : nat) : Evaluation :=
  let fs := fluidState intQuants in
  let at_ (c : nat) (x : Evaluation) : Evaluation :=
    if bool_decide (k = eqSlot tt c) then x else constant 0%Qc in
  let surfaceVolume :=
    emul (emul (saturation fs phaseIdx) (invB fs phaseIdx)) (porosity intQuants) in
  eadd (at_ (FluidSystem.solventComponentIndex (FS tt) phaseIdx) surfaceVolume)
    (eadd (if (phaseIdx =? FluidSystem.oilPhaseIdx (FS tt))
              && FluidSystem.enableDissolvedGas (FS tt)
           then at_ (FluidSystem.gasCompIdx (FS tt)) (emul (Rs fs) surfaceVolume)
           else constant 0%Qc)
       (eadd (if (phaseIdx =? FluidSystem.gasPhaseIdx (FS tt))
                 && FluidSystem.enableVaporizedOil (FS tt)
              then at_ (FluidSystem.oilCompIdx (FS tt)) (emul (Rv fs) surfaceVolume)
              else constant 0%Qc)
             (if (phaseIdx =? FluidSystem.gasPhaseIdx (FS tt))
                 && FluidSystem.enableVaporizedWater (FS tt)
              then at_ (FluidSystem.waterCompIdx (FS tt)) (emul (Rvw fs) surfaceVolume)
              else constant 0%Qc))).

(** The same configuration with the conservation mode set:
    [true] conserves surface volumes, [false] conserves masses. *)
Definition withConserveSurfaceVolume (b : bool) tt : @TypeTag numEq :=
  {| FS := FS tt; IX := IX tt; numPhases := numPhases tt; dimWorld := dimWorld tt;
     blackoilConserveSurfaceVolume := b;
     enableEnergy := enableEnergy tt;
     BlackOilEnergyScalingFactor := BlackOilEnergyScalingFactor tt;
     calculatePhasePressureDiff_ := calculatePhasePressureDiff_ tt;
     SolventModule := SolventModule tt; ExtboModule := ExtboModule tt;
     PolymerModule := PolymerModule tt; EnergyModule := EnergyModule tt;
     FoamModule := FoamModule tt; BrineModule := BrineModule tt;
     MICPModule := MICPModule tt;
     MICPModule_addSource := MICPModule_addSource tt;
     DiffusionModule_addDiffusiveFlux := DiffusionModule_addDiffusiveFlux tt |}.



(** The components whose slots [adaptMassConservationQuantities_]
    converts, each with the phase whose reference density it uses. *)
Definition enabledComponents tt : list (nat * nat) :=
  (if Indices.waterEnabled (IX tt)
   then [(FluidSystem.waterCompIdx (FS tt), FluidSystem.waterPhaseIdx (FS tt))]
   else [])
  ++ (if Indices.gasEnabled (IX tt)
      then [(FluidSystem.gasCompIdx (FS tt), FluidSystem.gasPhaseIdx (FS tt))]
      else [])
  ++ (if Indices.oilEnabled (IX tt)
      then [(FluidSystem.oilCompIdx (FS tt), FluidSystem.oilPhaseIdx (FS tt))]
      else []).


(** The slots of a list of components are pairwise different. *)
Definition distinctSlots tt (comps : list (nat * nat)) : Prop :=
  NoDup ((fun cp => eqSlot tt cp.1) <$> comps).

(** The data of a face that are no intensive quantities. *)
Definition sameFace loc loc' : Prop :=
  interiorDofIdx loc = interiorDofIdx loc'
  /\ focusDofIdx loc = focusDofIdx loc'
  /\ trans loc = trans loc'
  /\ faceArea loc = faceArea loc'.

(** Two states that differ at most in the derivatives they carry. *)
Definition sameValues (iq iq' : @IntensiveQuantities numEq) : Prop :=
  pvtRegionIndex iq = pvtRegionIndex iq'
  /\ value (Rs (fluidState iq)) = value (Rs (fluidState iq'))
  /\ value (Rv (fluidState iq)) = value (Rv (fluidState iq'))
  /\ value (Rvw (fluidState iq)) = value (Rvw (fluidState iq'))
  /\ forall phaseIdx,
       value (mobility iq phaseIdx) = value (mobility iq' phaseIdx)
       /\ value (invB (fluidState iq) phaseIdx)
          = value (invB (fluidState iq') phaseIdx).

(** All derivatives stripped from a state. *)
Definition decayed (iq : @IntensiveQuantities numEq) : @IntensiveQuantities numEq :=
  let strip (e : @Evaluation numEq) := constant (value e) in
  {| fluidState :=
       {| saturation := fun ph => strip (saturation (fluidState iq) ph);
          invB := fun ph => strip (invB (fluidState iq) ph);
          Rs := strip (Rs (fluidState iq));
          Rv := strip (Rv (fluidState iq));
          Rvw := strip (Rvw (fluidState iq)) |};
     porosity := strip (porosity iq);
     mobility := fun ph => strip (mobility iq ph);
     pvtRegionIndex := pvtRegionIndex iq |}.

(** The same problem with a source callback that leaves the vector it
    is handed as it is (a source term of zero, added to the content). *)
Definition withEchoSource (problem : @Problem numEq) : @Problem numEq :=
  {| transmissibility := transmissibility problem;
     thresholdPressure := thresholdPressure problem;
     gravity := gravity problem;
     dofCenterDepth := dofCenterDepth problem;
     rockCompTransMultiplier := rockCompTransMultiplier problem;
     source := fun src _ _ _ => src |}.

(** The same configuration without energy and without a module source. *)
Definition withoutSourceModules tt : @TypeTag numEq :=
  {| FS := FS tt; IX := IX tt; numPhases := numPhases tt; dimWorld := dimWorld tt;
     blackoilConserveSurfaceVolume := blackoilConserveSurfaceVolume tt;
     enableEnergy := false;
     BlackOilEnergyScalingFactor := BlackOilEnergyScalingFactor tt;
     calculatePhasePressureDiff_ := calculatePhasePressureDiff_ tt;
     SolventModule := SolventModule tt; ExtboModule := ExtboModule tt;
     PolymerModule := PolymerModule tt; EnergyModule := EnergyModule tt;
     FoamModule := FoamModule tt; BrineModule := BrineModule tt;
     MICPModule := MICPModule tt;
     MICPModule_addSource := fun src _ _ _ => src;
     DiffusionModule_addDiffusiveFlux := DiffusionModule_addDiffusiveFlux tt |}.


(** An evaluation all of whose derivatives are zero. *)
Definition derivativeFree (e : @Evaluation numEq) : Prop :=
  derivatives e = vreplicate numEq 0%Qc.

End Specification.

(** * Concrete configurations *)

(** A black-oil run with water (phase 0), oil (phase 1) and gas (phase 2),
  components oil (0), water (1), gas (2), four equations (three
  components and energy), used to evaluate the model. *)
Module Example.

Definition fluidSystem (active : nat -> bool) : FluidSystem.t :=
  {| FluidSystem.waterPhaseIdx := 0;
     FluidSystem.oilPhaseIdx := 1;
     FluidSystem.gasPhaseIdx := 2;
     FluidSystem.oilCompIdx := 0;
     FluidSystem.waterCompIdx := 1;
     FluidSystem.gasCompIdx := 2;
     FluidSystem.phaseIsActive := active;
     FluidSystem.solventComponentIndex :=
       fun ph => match ph with 0 => 1 | 1 => 0 | _ => 2 end;
     FluidSystem.enableDissolvedGas := true;
     FluidSystem.enableVaporizedOil := true;
     FluidSystem.enableVaporizedWater := true;
     FluidSystem.referenceDensity :=
       fun ph reg => match reg with
                     | 0 => ofZ (2 + Z.of_nat ph)
                     | _ => ofZ (5 + Z.of_nat ph)
                     end |}.

Definition indices : Indices.t :=
  {| Indices.conti0EqIdx := 0;
     Indices.numPhases := 3;
     Indices.canonicalToActiveComponentIndex := fun c => c;
     Indices.waterEnabled := true;
     Indices.gasEnabled := true;
     Indices.oilEnabled := true;
     Indices.contiEnergyEqIdx := 3 |}.

Definition ev (v d0 d1 d2 d3 : Z) : @Evaluation 4 :=
  mkEval (ofZ v) [# ofZ d0; ofZ d1; ofZ d2; ofZ d3].

(** A module that is switched off. *)
Definition idle : @BlackOilModule 4 :=
  {| addStorage := fun L _ st _ => st;
     computeFlux_ := fun fl _ _ _ => fl |}.

(** A module that adds one unit to the water slot of the storage. *)
Definition waterDeposit : @BlackOilModule 4 :=
  {| addStorage := fun L _ st _ =>
       alter (fun x => lhs_add x (lhs_const (ofZ 1))) 1 st;
     computeFlux_ := fun fl _ _ _ => fl |}.

(** The configuration: conservation mode, active phases, the answer
    of the pressure-difference routine per phase, the first module. *)
Definition typeTag (conserve : bool) (active : nat -> bool)
    (diff : nat -> nat * nat * @Evaluation 4) (first : @BlackOilModule 4)
    : @TypeTag 4 :=
  {| FS := fluidSystem active; IX := indices;
     numPhases := 3; dimWorld := 3;
     blackoilConserveSurfaceVolume := conserve;
     enableEnergy := true;
     BlackOilEnergyScalingFactor := ofZ 10;
     calculatePhasePressureDiff_ :=
       fun _ _ _ _ phaseIdx _ _ _ _ _ _ _ _ => diff phaseIdx;
     SolventModule := first; ExtboModule := idle;
     PolymerModule := idle; EnergyModule := idle;
     FoamModule := idle; BrineModule := idle;
     MICPModule := idle;
     MICPModule_addSource :=
       fun src _ _ _ => alter (fun x => eadd x (ev 1 0 0 0 0)) 3 src;
     DiffusionModule_addDiffusiveFlux := fun fl _ _ _ => fl |}.

Definition allActive (ph : nat) : bool := true.

(** Two states; the second one lies in another PVT region. *)
Definition stateA : @IntensiveQuantities 4 :=
  {| fluidState :=
       {| saturation := fun _ => ev 1 1 0 0 0;
          invB := fun _ => ev 2 0 1 0 0;
          Rs := ev 3 0 0 1 0;
          Rv := ev 1 0 0 1 0;
          Rvw := ev 1 1 0 0 0 |};
     porosity := ev 1 0 0 0 0;
     mobility := fun _ => ev 2 1 0 0 0;
     pvtRegionIndex := 0 |}.

Definition stateB : @IntensiveQuantities 4 :=
  {| fluidState :=
       {| saturation := fun _ => ev 1 0 0 0 0;
          invB := fun _ => ev 1 0 0 0 0;
          Rs := ev 2 0 0 0 0;
          Rv := ev 1 0 0 0 0;
          Rvw := ev 1 0 0 0 0 |};
     porosity := ev 1 0 0 0 0;
     mobility := fun _ => ev 1 0 0 0 0;
     pvtRegionIndex := 1 |}.

(** A face between the degrees of freedom 0 and 1. *)
Definition elemCtx (focus : nat) : @ElementContext 4 :=
  {| stencil := fun _ =>
       {| interiorFace := fun _ =>
            {| interiorIndex := 0; exteriorIndex := 1; area := ofZ 2 |};
          globalSpaceIndex := fun dof => dof |};
     intensiveQuantities := fun dof _ => if dof =? 0 then stateA else stateB;
     dofVolume := fun _ _ => ofZ 1;
     focusDofIndex := focus |}.

(** A problem whose source term adds to what the vector holds. *)
Definition problem : @Problem 4 :=
  {| transmissibility := fun _ _ _ => ofZ 4;
     thresholdPressure := fun _ _ => ofZ 0;
     gravity := [ofZ 0; ofZ 0; ofZ 0];
     dofCenterDepth := fun _ _ _ => ofZ 0;
     rockCompTransMultiplier := fun _ _ => ev 1 0 0 0 1;
     source := fun src _ _ _ => alter (fun x => eadd x (ev 5 0 0 0 0)) 3 src |}.

Definition zeros : list (@Evaluation 4) :=
  [ev 0 0 0 0 0; ev 0 0 0 0 0; ev 0 0 0 0 0; ev 0 0 0 0 0].
Definition ones : list (@Evaluation 4) :=
  [ev 1 0 0 0 0; ev 1 0 0 0 0; ev 1 0 0 0 0; ev 1 0 0 0 0].

(** Every phase flows out of the interior cell. *)
Definition outflow (ph : nat) : nat * nat * @Evaluation 4 := (0, 1, ev 10 1 0 0 0).
(** No phase flows (the potential difference still carries derivatives). *)
Definition noflow (ph : nat) : nat * nat * @Evaluation 4 := (0, 1, ev 0 1 0 0 0).
(** Counter-current flow: gas enters from the exterior cell. *)
Definition countercurrent (ph : nat) : nat * nat * @Evaluation 4 :=
  if ph =? 2 then (1, 0, ev (-10) 0 0 0 0) else (0, 1, ev 10 0 0 0 0).

Definition ttOutflow : @TypeTag 4 := typeTag true allActive outflow idle.
Definition ttNoflow : @TypeTag 4 := typeTag true allActive noflow idle.
Definition ttMassCountercurrent : @TypeTag 4 :=
  typeTag false allActive countercurrent idle.
Definition ttMassWaterDeposit : @TypeTag 4 :=
  typeTag false allActive outflow waterDeposit.


(** The local variables of [computeFlux] on that face. *)
Definition locals (focus : nat) : @FluxLocals 4 :=
  computeFlux_locals (typeTag true allActive outflow idle) problem (elemCtx focus) 0 0.

(** The same face with the derivatives of the interior state stripped. *)
Definition localsDecayedInterior (focus : nat) : @FluxLocals 4 :=
  withDownstream 1 (decayed stateA) (locals focus).

End Example.

(** * Statements about whole loops *)

Section LoopStatements.
Context {numEq : nat}.
Implicit Types (tt : @TypeTag numEq) (loc : @FluxLocals numEq).

(** What a phase adds to slot [k] of the storage vector: the
    contribution of the specification if the phase is active, nothing if it
    is not. *)
Definition storagePhaseContribution tt (intQuants : @IntensiveQuantities numEq)
    (phaseIdx k : nat) : @Evaluation numEq :=
  if FluidSystem.phaseIsActive (FS tt) phaseIdx
  then spec_storage_contribution tt intQuants phaseIdx k
  else constant 0%Qc.

(** The sum of the contributions of the phases [0 .. numPhases-1] to slot
    [k] of the storage vector. *)
Definition storageSum tt (intQuants : @IntensiveQuantities numEq) (k : nat)
    : @Evaluation numEq :=
  foldl (fun acc phaseIdx => eadd acc (storagePhaseContribution tt intQuants phaseIdx k))
        (constant 0%Qc) (seq 0 (numPhases tt)).

(** The value a phase adds to slot [k] of the flux vector. *)
Definition fluxPhaseContribution tt (problem : @Problem numEq) loc
    (scvfIdx timeIdx phaseIdx k : nat) : Scalar :=
  if FluidSystem.phaseIsActive (FS tt) phaseIdx then
    let '(upIdx, _, pd) := phasePressureDiff tt loc scvfIdx timeIdx phaseIdx in
    let up := upstream loc upIdx in
    spec_flux_contribution tt (fluidState up) (pvtRegionIndex up) phaseIdx
      (value (invB (fluidState up) phaseIdx)
       * value (darcyFlux problem loc upIdx pd phaseIdx))%Qc k
  else 0%Qc.

(** The sum of the values the phases [0 .. numPhases-1] add to slot [k]
    of the flux vector. *)
Definition fluxSum tt (problem : @Problem numEq) loc (scvfIdx timeIdx k : nat) : Scalar :=
  foldl (fun acc phaseIdx =>
           (acc + fluxPhaseContribution tt problem loc scvfIdx timeIdx phaseIdx k)%Qc)
        0%Qc (seq 0 (numPhases tt)).

(** The same element context with another focus degree of freedom. *)
Definition withFocus (focus : nat) (elemCtx : @ElementContext numEq)
    : @ElementContext numEq :=
  {| stencil := stencil elemCtx;
     intensiveQuantities := intensiveQuantities elemCtx;
     dofVolume := dofVolume elemCtx;
     focusDofIndex := focus |}.

(** What one call of [evalPhaseFluxes_] adds to slot [k], as an
    evaluation: the surface-volume flux in the phase's own slot, the
    dissolved or vaporized part in the slot of the transported component,
    each converted to mass where masses are conserved. *)
Definition evalPhaseContribution {U} `{UpEval (numEq:=numEq) U} tt
    (upFs : @FluidState numEq) (pvtRegionIdx phaseIdx : nat)
    (svf : @Evaluation numEq) (k : nat) : @Evaluation numEq :=
  let at_ (c : nat) (x : @Evaluation numEq) :=
    if bool_decide (k = eqSlot tt c) then x else constant 0%Qc in
  let conv (ph : nat) (x : @Evaluation numEq) :=
    if blackoilConserveSurfaceVolume tt then x
    else escale x (FluidSystem.referenceDensity (FS tt) ph pvtRegionIdx) in
  eadd (at_ (FluidSystem.solventComponentIndex (FS tt) phaseIdx) (conv phaseIdx svf))
    (if phaseIdx =? FluidSystem.oilPhaseIdx (FS tt) then
       if FluidSystem.enableDissolvedGas (FS tt) then
         at_ (FluidSystem.gasCompIdx (FS tt))
             (conv (FluidSystem.gasPhaseIdx (FS tt))
                   (up_mul (up_decay (U:=U) (Rs upFs)) svf))
       else constant 0%Qc
     else if phaseIdx =? FluidSystem.gasPhaseIdx (FS tt) then
       eadd (if FluidSystem.enableVaporizedOil (FS tt) then
               at_ (FluidSystem.oilCompIdx (FS tt))
                   (conv (FluidSystem.oilPhaseIdx (FS tt))
                         (up_mul (up_decay (U:=U) (Rv upFs)) svf))
             else constant 0%Qc)
            (if FluidSystem.enableVaporizedWater (FS tt) then
               at_ (FluidSystem.waterCompIdx (FS tt))
                   (conv (FluidSystem.waterPhaseIdx (FS tt))
                         (up_mul (up_decay (U:=U) (Rvw upFs)) svf))
             else constant 0%Qc)
     else constant 0%Qc).

(** What the loop body of [computeFlux] adds to slot [k] for a phase. *)
Definition fluxBodyContribution tt (problem : @Problem numEq) loc
    (scvfIdx timeIdx phaseIdx k : nat) : @Evaluation numEq :=
  if FluidSystem.phaseIsActive (FS tt) phaseIdx then
    let '(upIdx, _, pd) := phasePressureDiff tt loc scvfIdx timeIdx phaseIdx in
    let up := upstream loc upIdx in
    let darcy := darcyFlux problem loc upIdx pd phaseIdx in
    if upIdx =? focusDofIdx loc then
      evalPhaseContribution (U:=Evaluation) tt (fluidState up) (pvtRegionIndex up)
        phaseIdx (emul (invB (fluidState up) phaseIdx) darcy) k
    else
      evalPhaseContribution (U:=Scalar) tt (fluidState up) (pvtRegionIndex up)
        phaseIdx (sscale (value (invB (fluidState up) phaseIdx)) darcy) k
  else constant 0%Qc.

(** The local variables of [computeFlux] with another focus. *)
Definition withFocusLocals (focus : nat) loc : @FluxLocals numEq :=
  {| interiorDofIdx := interiorDofIdx loc;
     exteriorDofIdx := exteriorDofIdx loc;
     Vin := Vin loc; Vex := Vex loc;
     globalIndexIn := globalIndexIn loc;
     globalIndexEx := globalIndexEx loc;
     trans := trans loc; faceArea := faceArea loc;
     thpres := thpres loc; g := g loc;
     intQuantsIn := intQuantsIn loc;
     intQuantsEx := intQuantsEx loc;
     distZ := distZ loc;
     focusDofIdx := focus |}.

(** The slots [adaptMassConservationQuantities_] may multiply. *)
Definition convertedSlots tt : list nat :=
  (fun cp => eqSlot tt cp.1) <$> enabledComponents tt.

(** What the specification says a phase contributes to slot [k] of the
    flux vector: nothing if the phase is inactive or its potential
    difference is zero; otherwise the distribution, with the upstream
    fluid state, of the surface-volume flux invB(upstream) * darcyFlux,
    the Darcy flux being potentialDifference * upstreamMobility *
    transMultiplier * (-transmissibility / faceArea). *)
Definition spec_phaseFlux tt (problem : @Problem numEq) loc
    (scvfIdx timeIdx phaseIdx k : nat) : Scalar :=
  if FluidSystem.phaseIsActive (FS tt) phaseIdx then
    let '(upIdx, _, pd) := phasePressureDiff tt loc scvfIdx timeIdx phaseIdx in
    if bool_decide (value pd = 0%Qc) then 0%Qc
    else
      let up := upstream loc upIdx in
      spec_flux_contribution tt (fluidState up) (pvtRegionIndex up) phaseIdx
        (value (invB (fluidState up) phaseIdx)
         * spec_darcyFlux problem loc upIdx (value pd) phaseIdx)%Qc k
  else 0%Qc.

(** The sum of those contributions over the phases [0 .. numPhases-1]. *)
Definition spec_fluxSum tt (problem : @Problem numEq) loc (scvfIdx timeIdx k : nat)
    : Scalar :=
  foldl (fun acc phaseIdx =>
           (acc + spec_phaseFlux tt problem loc scvfIdx timeIdx phaseIdx k)%Qc)
        0%Qc (seq 0 (numPhases tt)).




End LoopStatements.

(** * The base class of the compositional two-phase problems
      (dumux/decoupled/2p2c/2p2cproblem.hh) *)

Module IMPETProblem2P2C.

(** The equation indices the class takes from [Indices]; they are
    [int] constants. *)
Record Indices := {
  pressureEqIdx : Z;
  contiNEqIdx : Z;
  contiWEqIdx : Z
}.

(** What [DUNE_THROW] raises in this class. *)
Inductive Exception := NotImplemented | InvalidStateException.

(** [values[idx] = 0.] on the vector of primary variables.  An index
    outside the vector (undefined behaviour in the source) leaves it
    unchanged. *)
Definition assignZero (idx : Z) (values : list Scalar) : list Scalar :=
  if (idx <? 0)%Z then values else <[Z.to_nat idx := 0%Qc]> values.

(** [setZero(values, equation)]; the default argument of [equation] is
    [-1].  In the second test the right operand of [or] is the constant
    [Indices::contiWEqIdx] itself, which counts as true when it is not
    zero.  The result is the content of [values] on return, or the
    exception thrown. *)
Definition setZero (ix : Indices) (values : list Scalar) (equation : Z)
    : Exception + list Scalar :=
  if (equation =? pressureEqIdx ix)%Z then
    inr (assignZero (pressureEqIdx ix) values)
  else if (equation =? contiNEqIdx ix)%Z || negb (contiWEqIdx ix =? 0)%Z then
    inr (assignZero (contiWEqIdx ix) (assignZero (contiNEqIdx ix) values))
  else if (equation =? -1)%Z then
    inr (assignZero (contiWEqIdx ix)
           (assignZero (contiNEqIdx ix)
              (assignZero (pressureEqIdx ix) values)))
  else
    inl InvalidStateException.

(** [setZero(values)] with the default argument. *)
Definition setZero_default (ix : Indices) (values : list Scalar)
    : Exception + list Scalar :=
  setZero ix values (-1).

(** An index set as a two-phase two-component model has it. *)
Definition exampleIndices : Indices :=
  {| pressureEqIdx := 0; contiNEqIdx := 2; contiWEqIdx := 1 |}.

(** An index set that numbers the wetting transport equation first. *)
Definition wettingFirstIndices : Indices :=
  {| pressureEqIdx := 2; contiNEqIdx := 1; contiWEqIdx := 0 |}.

Definition exampleValues : list Scalar := [ofZ 5; ofZ 6; ofZ 7].

End IMPETProblem2P2C.

(** * The Stokes model (ewoms/models/stokes/stokesintensivequantities.hh,
      ewoms/models/stokes/stokesextensivequantities.hh) *)

Module Stokes.
Section Model.
Context {numEq : nat}.

(** [Scalar - Evaluation]. *)
Definition ssub (s : Scalar) (a : @Evaluation numEq) : @Evaluation numEq :=
  mkEval (s - value a)%Qc (vmap Qcopp (derivatives a)).

(** [v[dimIdx] += term dimIdx] for [dimIdx = 0 .. dimWorld-1]. *)
Definition addPerDimension (dimWorld : nat) (term : nat -> @Evaluation numEq)
    (v : list (@Evaluation numEq)) : list (@Evaluation numEq) :=
  foldl (fun v dimIdx => alter (fun x => eadd x (term dimIdx)) dimIdx v)
        v (seq 0 dimWorld).

(** The quantities of [Opm::CompositionalFluidState] the Stokes model
    sets or reads; a setter replaces the entry it names. *)
Record FluidState := {
  pressure : nat -> @Evaluation numEq;
  saturation : nat -> @Evaluation numEq;
  moleFraction : nat -> nat -> @Evaluation numEq;
  density : nat -> @Evaluation numEq;
  viscosity : nat -> @Evaluation numEq;
  temperature : nat -> @Evaluation numEq;
  enthalpy : nat -> @Evaluation numEq
}.

Definition setPressure (fs : FluidState) (ph : nat) (v : @Evaluation numEq) : FluidState :=
  {| pressure := fun p => if p =? ph then v else pressure fs p;
     saturation := saturation fs; moleFraction := moleFraction fs;
     density := density fs; viscosity := viscosity fs;
     temperature := temperature fs; enthalpy := enthalpy fs |}.

Definition setSaturation (fs : FluidState) (ph : nat) (v : @Evaluation numEq) : FluidState :=
  {| pressure := pressure fs;
     saturation := fun p => if p =? ph then v else saturation fs p;
     moleFraction := moleFraction fs;
     density := density fs; viscosity := viscosity fs;
     temperature := temperature fs; enthalpy := enthalpy fs |}.

Definition setMoleFraction (fs : FluidState) (ph comp : nat) (v : @Evaluation numEq)
    : FluidState :=
  {| pressure := pressure fs; saturation := saturation fs;
     moleFraction := fun p c => if (p =? ph) && (c =? comp) then v
                                else moleFraction fs p c;
     density := density fs; viscosity := viscosity fs;
     temperature := temperature fs; enthalpy := enthalpy fs |}.

Definition setDensity (fs : FluidState) (ph : nat) (v : @Evaluation numEq) : FluidState :=
  {| pressure := pressure fs; saturation := saturation fs;
     moleFraction := moleFraction fs;
     density := fun p => if p =? ph then v else density fs p;
     viscosity := viscosity fs;
     temperature := temperature fs; enthalpy := enthalpy fs |}.

Definition setViscosity (fs : FluidState) (ph : nat) (v : @Evaluation numEq) : FluidState :=
  {| pressure := pressure fs; saturation := saturation fs;
     moleFraction := moleFraction fs; density := density fs;
     viscosity := fun p => if p =? ph then v else viscosity fs p;
     temperature := temperature fs; enthalpy := enthalpy fs |}.

(** The members of [StokesIntensiveQuantities]. *)
Record IntensiveQuantities := {
  velocity_ : list (@Evaluation numEq);
  velocityCenter_ : list (@Evaluation numEq);
  gravity_ : list Scalar;
  pressureGrad_ : list (@Evaluation numEq);
  fluidState_ : FluidState
}.

(** [elemCtx.primaryVars(dofIdx, timeIdx)]. *)
Record PrimaryVariables := {
  makeEvaluation : nat -> nat -> @Evaluation numEq  (* varIdx, timeIdx *)
}.

(** A point of a quadrature rule. *)
Record QuadraturePoint := {
  position : list Scalar;
  weight : Scalar
}.

(** A sub-control volume of the stencil: the finite-element gradients
    [gradCenter[i]], and its local geometry reduced to the quadrature rule
    of order two for its type and to its map into the element. *)
Record SubControlVolume := {
  gradCenter : nat -> list Scalar;
  quadratureRule : list QuadraturePoint;
  localToElement : list Scalar -> list Scalar
}.

(** A face of the stencil. *)
Record Face := {
  interiorIndex : nat;
  exteriorIndex : nat;
  normal : list Scalar
}.

Record Stencil := {
  subControlVolume : nat -> SubControlVolume;
  interiorFace : nat -> Face;
  boundaryFace : nat -> Face
}.

(** The quantities a gradient calculator is asked for. *)
Inductive Callback :=
| PressureCallback | DensityCallback | MolarDensityCallback
| ViscosityCallback | VelocityComponentCallback (dimIdx : nat).

(** The element context as the two classes use it.  [shapeValues] stands
    for the evaluation of the local basis of the element's finite element,
    [calculateScalarValue] and [calculateGradient] for the gradient
    calculator at a face. *)
Record ElementContext := {
  stencil : nat -> Stencil;
  numDof : nat -> nat;
  focusDofIndex : nat;
  primaryVars : nat -> nat -> PrimaryVariables;
  intensiveQuantities : nat -> nat -> IntensiveQuantities;
  problemGravity : list Scalar;
  shapeValues : list Scalar -> list (list Scalar);
  calculateScalarValue : nat -> Callback -> @Evaluation numEq;
  calculateGradient : nat -> Callback -> list (@Evaluation numEq)
}.

(** The compile-time properties the Stokes classes read. *)
Record TypeTag := {
  phaseIdx : nat;              (* StokesPhaseIndex *)
  numComponents : nat;
  dimWorld : nat;
  pressureIdx : nat;
  moleFrac1Idx : nat;
  velocity0Idx : nat;
  FluidSystem_density : FluidState -> nat -> @Evaluation numEq;
  FluidSystem_viscosity : FluidState -> nat -> @Evaluation numEq;
  Energy_updateTemperatures_ : FluidState -> ElementContext -> nat -> nat -> FluidState;
  Energy_update_ : FluidState -> ElementContext -> nat -> nat -> FluidState
}.

(** ** StokesIntensiveQuantities::update *)

(** The loop "set the phase composition": the state is the fluid state
    and [sumx]. *)
Definition update_composition (tt : TypeTag) (priVars : PrimaryVariables)
    (timeIdx : nat) (fs : FluidState) : FluidState * @Evaluation numEq :=
  foldl (fun '(fs, sumx) compIdx =>
           let fs := setMoleFraction fs (phaseIdx tt) compIdx
                       (makeEvaluation priVars (moleFrac1Idx tt + compIdx - 1) timeIdx) in
           (fs, eadd sumx (moleFraction fs (phaseIdx tt) compIdx)))
        (fs, constant 0%Qc)
        (seq 1 (numComponents tt - 1)).

(** [update(elemCtx, dofIdx, timeIdx)] on the object [self]; the result
    is the object afterwards.  ([ParentType::update] touches none of the
    members listed here.) *)
Definition update (tt : TypeTag) (self : IntensiveQuantities)
    (elemCtx : ElementContext) (dofIdx timeIdx : nat) : IntensiveQuantities :=
  let fs := Energy_updateTemperatures_ tt (fluidState_ self) elemCtx dofIdx timeIdx in
  let priVars := primaryVars elemCtx dofIdx timeIdx in
  let fs := setPressure fs (phaseIdx tt) (makeEvaluation priVars (pressureIdx tt) timeIdx) in
  (* set the saturation of the phase to 1 *)
  let fs := setSaturation fs (phaseIdx tt) (constant 1%Qc) in
  (* set the phase composition *)
  let '(fs, sumx) := update_composition tt priVars timeIdx fs in
  let fs := setMoleFraction fs (phaseIdx tt) 0 (ssub 1%Qc sumx) in
  let fs := setDensity fs (phaseIdx tt) (FluidSystem_density tt fs (phaseIdx tt)) in
  let fs := setViscosity fs (phaseIdx tt) (FluidSystem_viscosity tt fs (phaseIdx tt)) in
  (* energy related quantities *)
  let fs := Energy_update_ tt fs elemCtx dofIdx timeIdx in
  {| velocity_ := velocity_ self;
     (* the effective velocity of the control volume *)
     velocityCenter_ :=
       (fun dimIdx => makeEvaluation priVars (velocity0Idx tt + dimIdx) timeIdx)
         <$> seq 0 (dimWorld tt);
     gravity_ := problemGravity elemCtx;
     pressureGrad_ := pressureGrad_ self;
     fluidState_ := fs |}.

(** ** StokesIntensiveQuantities::updateScvGradients *)

(** The pressure gradient at the sub-control volume: the loop over the
    degrees of freedom of the element. *)
Definition pressureGradient_loop (tt : TypeTag) (elemCtx : ElementContext)
    (dofIdx timeIdx : nat) (zero : list (@Evaluation numEq)) : list (@Evaluation numEq) :=
  let focusDofIdx := focusDofIndex elemCtx in
  foldl (fun grad i =>
           let feGrad := gradCenter (subControlVolume (stencil elemCtx timeIdx) dofIdx) i in
           let fs := fluidState_ (intensiveQuantities elemCtx i timeIdx) in
           if i =? focusDofIdx then
             addPerDimension (dimWorld tt)
               (fun dimIdx => sscale (default 0%Qc (feGrad !! dimIdx))
                                     (pressure fs (phaseIdx tt)))
               grad
           else
             addPerDimension (dimWorld tt)
               (fun dimIdx => constant (default 0%Qc (feGrad !! dimIdx)
                                        * value (pressure fs (phaseIdx tt)))%Qc)
               grad)
        zero (seq 0 (numDof elemCtx 0)).

(** [velocityAtPos_(elemCtx, timeIdx, localPos)]. *)
Definition velocityAtPos_ (tt : TypeTag) (elemCtx : ElementContext)
    (timeIdx : nat) (localPos : list Scalar) : list (@Evaluation numEq) :=
  let focusDofIdx := focusDofIndex elemCtx in
  let shapeValue := shapeValues elemCtx localPos in
  let shape (dofIdx : nat) : Scalar :=
    default 0%Qc (shapeValue !! dofIdx ≫= fun sv => sv !! 0) in
  foldl (fun result dofIdx =>
           let vCenter := velocityCenter_ (intensiveQuantities elemCtx dofIdx timeIdx) in
           if dofIdx =? focusDofIdx then
             addPerDimension (dimWorld tt)
               (fun dimIdx => sscale (shape dofIdx)
                                     (default (constant 0%Qc) (vCenter !! dimIdx)))
               result
           else
             addPerDimension (dimWorld tt)
               (fun dimIdx => constant (shape dofIdx
                                        * value (default (constant 0%Qc)
                                                         (vCenter !! dimIdx)))%Qc)
               result)
        (replicate (dimWorld tt) (constant 0%Qc))
        (seq 0 (numDof elemCtx 0)).

(** [updateScvGradients(elemCtx, dofIdx, timeIdx)] on the object [self]. *)
Definition updateScvGradients (tt : TypeTag) (self : IntensiveQuantities)
    (elemCtx : ElementContext) (dofIdx timeIdx : nat) : IntensiveQuantities :=
  (* calculate the pressure gradient at the SCV *)
  let pressureGrad :=
    pressureGradient_loop tt elemCtx dofIdx timeIdx
      ((fun _ => constant 0%Qc) <$> pressureGrad_ self) in
  (* integrate the velocity over the sub-control volume *)
  let scv := subControlVolume (stencil elemCtx timeIdx) dofIdx in
  let velocity :=
    foldl (fun velocity it =>
             let posElemLocal := localToElement scv (position it) in
             let velocityAtPos := velocityAtPos_ tt elemCtx timeIdx posElemLocal in
             let detjac := 1%Qc in
             addPerDimension (dimWorld tt)
               (fun dimIdx => sscale (weight it * detjac)%Qc
                                     (default (constant 0%Qc) (velocityAtPos !! dimIdx)))
               velocity)
          ((fun _ => constant 0%Qc) <$> velocity_ self)
          (quadratureRule scv) in
  {| velocity_ := velocity;
     velocityCenter_ := velocityCenter_ self;
     gravity_ := gravity_ self;
     pressureGrad_ := pressureGrad;
     fluidState_ := fluidState_ self |}.

(** ** StokesExtensiveQuantities::update *)

(** The members of [StokesExtensiveQuantities]. *)
Record ExtensiveQuantities := {
  onBoundary_ : bool;
  eq_density_ : @Evaluation numEq;
  eq_molarDensity_ : @Evaluation numEq;
  eq_viscosity_ : @Evaluation numEq;
  eq_pressure_ : @Evaluation numEq;
  volumeFlux_ : @Evaluation numEq;
  eq_velocity_ : list (@Evaluation numEq);
  normal_ : list Scalar;
  eq_pressureGrad_ : list (@Evaluation numEq);
  velocityGrad_ : list (list (@Evaluation numEq));
  upstreamIdx_ : nat;
  downstreamIdx_ : nat;
  insideIdx_ : nat;
  outsideIdx_ : nat
}.

(** The loop over the dimensions: the gradients of the velocity
    components and the volume flux [velocity_ * normal_].  The member
    [velocity_] is read as the object holds it; [update] does not assign
    it. *)
Definition update_volumeFlux (dimWorld : nat) (velocity : list (@Evaluation numEq))
    (normal : list Scalar) : @Evaluation numEq :=
  foldl (fun volumeFlux dimIdx =>
           eadd volumeFlux
                (escale (default (constant 0%Qc) (velocity !! dimIdx))
                        (default 0%Qc (normal !! dimIdx))))
        (constant 0%Qc) (seq 0 dimWorld).

(** [update(elemCtx, scvfIdx, timeIdx, isBoundaryFace)] on the object
    [self].  ([EnergyExtensiveQuantities::update_] touches none of the
    members listed here.) *)
Definition updateExtensive (tt : TypeTag) (self : ExtensiveQuantities)
    (elemCtx : ElementContext) (scvfIdx timeIdx : nat) (isBoundaryFace : bool)
    : ExtensiveQuantities :=
  let stencil := stencil elemCtx timeIdx in
  let scvf := if isBoundaryFace then boundaryFace stencil scvfIdx
              else interiorFace stencil scvfIdx in
  let normal := normal scvf in
  let volumeFlux := update_volumeFlux (dimWorld tt) (eq_velocity_ self) normal in
  (* set the upstream and downstream DOFs *)
  let swap := bool_decide (value volumeFlux < 0)%Qc in
  {| onBoundary_ := isBoundaryFace;
     eq_density_ := calculateScalarValue elemCtx scvfIdx DensityCallback;
     eq_molarDensity_ := calculateScalarValue elemCtx scvfIdx MolarDensityCallback;
     eq_viscosity_ := calculateScalarValue elemCtx scvfIdx ViscosityCallback;
     eq_pressure_ := calculateScalarValue elemCtx scvfIdx PressureCallback;
     volumeFlux_ := volumeFlux;
     eq_velocity_ := eq_velocity_ self;
     normal_ := normal;
     eq_pressureGrad_ := calculateGradient elemCtx scvfIdx PressureCallback;
     velocityGrad_ :=
       (fun dimIdx => calculateGradient elemCtx scvfIdx (VelocityComponentCallback dimIdx))
         <$> seq 0 (dimWorld tt);
     upstreamIdx_ := if swap then exteriorIndex scvf else interiorIndex scvf;
     downstreamIdx_ := if swap then interiorIndex scvf else exteriorIndex scvf;
     insideIdx_ := interiorIndex scvf;
     outsideIdx_ := exteriorIndex scvf |}.

End Model.
End Stokes.

(** ** Statements about the Stokes model, and a concrete configuration *)

Module StokesStatements.
Import Stokes.
Section Statements.
Context {numEq : nat}.

(** The sum of the mole fractions of the components [1 .. numComponents-1]
    in the Stokes phase, accumulated from zero in the order of the
    components. *)
Definition sumOfOtherMoleFractions (tt : @Stokes.TypeTag numEq)
    (fs : @Stokes.FluidState numEq) : @Evaluation numEq :=
  foldl eadd (constant 0%Qc)
        (Stokes.moleFraction fs (phaseIdx tt) <$> seq 1 (numComponents tt - 1)).

(** The weight of the pressure of degree of freedom [i] in component
    [dimIdx] of the pressure gradient of the sub-control volume [dofIdx]. *)
Definition gradientWeight (elemCtx : @Stokes.ElementContext numEq)
    (dofIdx timeIdx i dimIdx : nat) : Scalar :=
  default 0%Qc
    (gradCenter (subControlVolume (stencil elemCtx timeIdx) dofIdx) i !! dimIdx).

(** The pressure of degree of freedom [i]. *)
Definition dofPressure (tt : @Stokes.TypeTag numEq) (elemCtx : @Stokes.ElementContext numEq)
    (timeIdx i : nat) : @Evaluation numEq :=
  Stokes.pressure (fluidState_ (intensiveQuantities elemCtx i timeIdx)) (phaseIdx tt).

(** The value of the shape function of degree of freedom [i] at a
    position. *)
Definition shapeValue (elemCtx : @Stokes.ElementContext numEq)
    (localPos : list Scalar) (i : nat) : Scalar :=
  default 0%Qc (shapeValues elemCtx localPos !! i ≫= fun sv => sv !! 0).

(** Component [dimIdx] of the velocity at the centre of degree of freedom
    [i]. *)
Definition dofVelocity (elemCtx : @Stokes.ElementContext numEq)
    (timeIdx i dimIdx : nat) : @Evaluation numEq :=
  default (constant 0%Qc)
          (velocityCenter_ (intensiveQuantities elemCtx i timeIdx) !! dimIdx).

(** A weighted sum of values over the degrees of freedom of the
    element. *)
Definition weightedValueSum (n : nat) (w : nat -> Scalar) (e : nat -> @Evaluation numEq)
    : Scalar :=
  foldl (fun acc i => (acc + w i * value (e i))%Qc) 0%Qc (seq 0 n).

End Statements.

(** A Stokes run with three components in two dimensions, four unknowns
    per degree of freedom (pressure, two mole fractions ... the velocity
    follows), and an element with two degrees of freedom. *)
Definition emptyFluidState : @Stokes.FluidState 4 :=
  {| pressure := fun _ => Example.ev 0 0 0 0 0;
     saturation := fun _ => Example.ev 0 0 0 0 0;
     moleFraction := fun _ _ => Example.ev 7 7 7 7 7;
     density := fun _ => Example.ev 0 0 0 0 0;
     viscosity := fun _ => Example.ev 0 0 0 0 0;
     temperature := fun _ => Example.ev 0 0 0 0 0;
     enthalpy := fun _ => Example.ev 0 0 0 0 0 |}.

Definition exampleFluidState (p : Z) : @Stokes.FluidState 4 :=
  setPressure emptyFluidState 0 (Example.ev p 1 0 0 0).

Definition exampleIQ (p vx vy : Z) : @Stokes.IntensiveQuantities 4 :=
  {| velocity_ := [Example.ev 9 9 9 9 9; Example.ev 9 9 9 9 9];
     velocityCenter_ := [Example.ev vx 0 0 1 0; Example.ev vy 0 0 0 1];
     gravity_ := [];
     pressureGrad_ := [Example.ev 9 9 9 9 9; Example.ev 9 9 9 9 9];
     fluidState_ := exampleFluidState p |}.

Definition examplePrimaryVars : @Stokes.PrimaryVariables 4 :=
  {| makeEvaluation := fun varIdx _ =>
       match varIdx with
       | 0 => Example.ev 100 1 0 0 0                      (* pressure *)
       | 1 => mkEval (Q2Qc (1 # 4)) [# 0%Qc; 1%Qc; 0%Qc; 0%Qc]
       | 2 => mkEval (Q2Qc (1 # 2)) [# 0%Qc; 0%Qc; 1%Qc; 0%Qc]
       | _ => Example.ev 3 0 0 0 1
       end |}.

Definition exampleFace (sign : Z) : Stokes.Face :=
  {| interiorIndex := 0; exteriorIndex := 1; normal := [ofZ sign; ofZ 0] |}.

Definition exampleElemCtx (focus : nat) (sign : Z) : @Stokes.ElementContext 4 :=
  {| stencil := fun _ =>
       {| subControlVolume := fun _ =>
            {| gradCenter := fun i => if i =? 0 then [ofZ (-1); ofZ 0]
                                      else [ofZ 1; ofZ 2];
               quadratureRule := [ {| position := [ofZ 0; ofZ 0]; weight := ofZ 1 |} ];
               localToElement := fun pos => pos |};
          interiorFace := fun _ => exampleFace sign;
          boundaryFace := fun _ => exampleFace sign |};
     numDof := fun _ => 2;
     focusDofIndex := focus;
     primaryVars := fun _ _ => examplePrimaryVars;
     intensiveQuantities := fun i _ => if i =? 0 then exampleIQ 10 1 2
                                       else exampleIQ 20 3 4;
     problemGravity := [ofZ 0; ofZ (-10)];
     shapeValues := fun _ => [[Q2Qc (1 # 2)]; [Q2Qc (1 # 2)]];
     calculateScalarValue := fun _ _ => Example.ev 1 0 0 0 0;
     calculateGradient := fun _ _ => [Example.ev 0 0 0 0 0; Example.ev 0 0 0 0 0] |}.

Definition exampleTypeTag : @Stokes.TypeTag 4 :=
  {| phaseIdx := 0; numComponents := 3; dimWorld := 2;
     pressureIdx := 0; moleFrac1Idx := 1; velocity0Idx := 3;
     FluidSystem_density := fun _ _ => Example.ev 1000 0 0 0 0;
     FluidSystem_viscosity := fun _ _ => Example.ev 1 0 0 0 0;
     Energy_updateTemperatures_ := fun fs _ _ _ => fs;
     Energy_update_ := fun fs _ _ _ => fs |}.

Definition exampleExtensive : @Stokes.ExtensiveQuantities 4 :=
  {| onBoundary_ := false;
     eq_density_ := Example.ev 0 0 0 0 0; eq_molarDensity_ := Example.ev 0 0 0 0 0;
     eq_viscosity_ := Example.ev 0 0 0 0 0; eq_pressure_ := Example.ev 0 0 0 0 0;
     volumeFlux_ := Example.ev 0 0 0 0 0;
     eq_velocity_ := [Example.ev 3 0 0 1 0; Example.ev 5 0 0 0 1];
     normal_ := []; eq_pressureGrad_ := []; velocityGrad_ := [];
     upstreamIdx_ := 0; downstreamIdx_ := 0; insideIdx_ := 0; outsideIdx_ := 0 |}.

End StokesStatements.

(** * The VTK output of the composition (ewoms/io/vtkcompositionmodule.hh) *)

Module VtkComposition.

(** The quantities of the fluid state [processElement] reads. *)
Record FluidState := {
  moleFraction : nat -> nat -> Scalar;
  massFraction : nat -> nat -> Scalar;
  molarity : nat -> nat -> Scalar;
  fugacityCoefficient : nat -> nat -> Scalar;
  fugacity : nat -> nat -> Scalar;
  density : nat -> Scalar;
  molarDensity : nat -> Scalar;
  saturation : nat -> Scalar
}.

(** The element context as [processElement] uses it; [fluidState i timeIdx]
    is [intensiveQuantities(i, timeIdx).fluidState()]. *)
Record ElementContext := {
  numPrimaryDof : nat -> nat;
  globalSpaceIndex : nat -> nat -> nat;
  fluidState : nat -> nat -> FluidState
}.

(** The compile-time sizes and the run-time parameters the module reads. *)
Record TypeTag := {
  numPhases : nat;
  numComponents : nat;
  VtkWriteMassFractions : bool;
  VtkWriteMoleFractions : bool;
  VtkWriteTotalMassFractions : bool;
  VtkWriteTotalMoleFractions : bool;
  VtkWriteMolarities : bool;
  VtkWriteFugacities : bool;
  VtkWriteFugacityCoeffs : bool
}.

Definition massFracOutput_ (tt : TypeTag) : bool := VtkWriteMassFractions tt.
Definition moleFracOutput_ (tt : TypeTag) : bool := VtkWriteMoleFractions tt.
Definition totalMassFracOutput_ (tt : TypeTag) : bool := VtkWriteTotalMassFractions tt.
Definition totalMoleFracOutput_ (tt : TypeTag) : bool := VtkWriteTotalMoleFractions tt.
Definition molarityOutput_ (tt : TypeTag) : bool := VtkWriteMolarities tt.
Definition fugacityOutput_ (tt : TypeTag) : bool := VtkWriteFugacities tt.
Definition fugacityCoeffOutput_ (tt : TypeTag) : bool := VtkWriteFugacityCoeffs tt.

(** The buffers of the module.  A [ComponentBuffer] is an array over the
    components, a [PhaseComponentBuffer] an array over the phases and the
    components, of buffers with one entry per degree of freedom of the
    grid; the loops index the arrays within their bounds. *)
Record VtkCompositionModule := {
  moleFrac_ : nat -> nat -> list Scalar;
  massFrac_ : nat -> nat -> list Scalar;
  molarity_ : nat -> nat -> list Scalar;
  totalMassFrac_ : nat -> list Scalar;
  totalMoleFrac_ : nat -> list Scalar;
  fugacity_ : nat -> list Scalar;
  fugacityCoeff_ : nat -> nat -> list Scalar
}.

(** [buffer[phaseIdx][compIdx][I] = v]. *)
Definition writePhaseComp (I phaseIdx compIdx : nat) (v : Scalar)
    (buffer : nat -> nat -> list Scalar) : nat -> nat -> list Scalar :=
  fun ph c => if (ph =? phaseIdx) && (c =? compIdx)
              then <[I := v]> (buffer ph c) else buffer ph c.

(** [buffer[compIdx][I] = v]. *)
Definition writeComp (I compIdx : nat) (v : Scalar)
    (buffer : nat -> list Scalar) : nat -> list Scalar :=
  fun c => if c =? compIdx then <[I := v]> (buffer c) else buffer c.

(** The body of the loop over the phases and the components. *)
Definition processPhaseComp (tt : TypeTag) (fs : FluidState) (I : nat)
    (self : VtkCompositionModule) (phaseIdx compIdx : nat) : VtkCompositionModule :=
  {| moleFrac_ :=
       if moleFracOutput_ tt
       then writePhaseComp I phaseIdx compIdx (moleFraction fs phaseIdx compIdx)
                           (moleFrac_ self)
       else moleFrac_ self;
     massFrac_ :=
       if massFracOutput_ tt
       then writePhaseComp I phaseIdx compIdx (massFraction fs phaseIdx compIdx)
                           (massFrac_ self)
       else massFrac_ self;
     molarity_ :=
       if molarityOutput_ tt
       then writePhaseComp I phaseIdx compIdx (molarity fs phaseIdx compIdx)
                           (molarity_ self)
       else molarity_ self;
     totalMassFrac_ := totalMassFrac_ self;
     totalMoleFrac_ := totalMoleFrac_ self;
     fugacity_ := fugacity_ self;
     fugacityCoeff_ :=
       if fugacityCoeffOutput_ tt
       then writePhaseComp I phaseIdx compIdx (fugacityCoefficient fs phaseIdx compIdx)
                           (fugacityCoeff_ self)
       else fugacityCoeff_ self |}.

(** The loop over the phases that accumulates [compMass] and
    [totalMass]; the result is the pair of the two. *)
Definition massOfComponent (tt : TypeTag) (fs : FluidState) (compIdx : nat)
    : Scalar * Scalar :=
  foldl (fun '(compMass, totalMass) phaseIdx =>
           let totalMass := (totalMass + density fs phaseIdx * saturation fs phaseIdx)%Qc in
           let compMass := (compMass + density fs phaseIdx * saturation fs phaseIdx
                                       * massFraction fs phaseIdx compIdx)%Qc in
           (compMass, totalMass))
        (0%Qc, 0%Qc) (seq 0 (numPhases tt)).

(** The loop over the phases that accumulates [compMoles] and
    [totalMoles]. *)
Definition molesOfComponent (tt : TypeTag) (fs : FluidState) (compIdx : nat)
    : Scalar * Scalar :=
  foldl (fun '(compMoles, totalMoles) phaseIdx =>
           let totalMoles := (totalMoles + molarDensity fs phaseIdx
                                           * saturation fs phaseIdx)%Qc in
           let compMoles := (compMoles + molarDensity fs phaseIdx * saturation fs phaseIdx
                                         * moleFraction fs phaseIdx compIdx)%Qc in
           (compMoles, totalMoles))
        (0%Qc, 0%Qc) (seq 0 (numPhases tt)).

(** The body of the loop over the components. *)
Definition processComp (tt : TypeTag) (fs : FluidState) (I : nat)
    (self : VtkCompositionModule) (compIdx : nat) : VtkCompositionModule :=
  {| moleFrac_ := moleFrac_ self;
     massFrac_ := massFrac_ self;
     molarity_ := molarity_ self;
     totalMassFrac_ :=
       if totalMassFracOutput_ tt
       then let '(compMass, totalMass) := massOfComponent tt fs compIdx in
            writeComp I compIdx (compMass / totalMass)%Qc (totalMassFrac_ self)
       else totalMassFrac_ self;
     totalMoleFrac_ :=
       if totalMoleFracOutput_ tt
       then let '(compMoles, totalMoles) := molesOfComponent tt fs compIdx in
            writeComp I compIdx (compMoles / totalMoles)%Qc (totalMoleFrac_ self)
       else totalMoleFrac_ self;
     fugacity_ :=
       if fugacityOutput_ tt
       then writeComp I compIdx (fugacity fs 0 compIdx) (fugacity_ self)
       else fugacity_ self;
     fugacityCoeff_ := fugacityCoeff_ self |}.

(** The body of the loop over the primary degrees of freedom of the
    element. *)
Definition processDof (tt : TypeTag) (elemCtx : ElementContext)
    (self : VtkCompositionModule) (i : nat) : VtkCompositionModule :=
  let I := globalSpaceIndex elemCtx i 0 in
  let fs := fluidState elemCtx i 0 in
  let self :=
    foldl (fun self phaseIdx =>
             foldl (fun self compIdx => processPhaseComp tt fs I self phaseIdx compIdx)
                   self (seq 0 (numComponents tt)))
          self (seq 0 (numPhases tt)) in
  foldl (processComp tt fs I) self (seq 0 (numComponents tt)).

(** [processElement(elemCtx)] on the object [self]; the result is the
    object afterwards. *)
Definition processElement (tt : TypeTag) (self : VtkCompositionModule)
    (elemCtx : ElementContext) : VtkCompositionModule :=
  foldl (processDof tt elemCtx) self (seq 0 (numPrimaryDof elemCtx 0)).

End VtkComposition.

(** ** Statements about the VTK output, and a concrete configuration *)

Module VtkStatements.
Import VtkComposition.

(** The sum of [f k] over the [k] of a list, and over [0 .. n-1]. *)
Definition sumList (f : nat -> Scalar) (l : list nat) : Scalar :=
  foldl (fun acc k => (acc + f k)%Qc) 0%Qc l.

Definition sumOver (n : nat) (f : nat -> Scalar) : Scalar :=
  sumList f (seq 0 n).

(** The mass per pore volume of a fluid state. *)
Definition totalMass (tt : TypeTag) (fs : FluidState) : Scalar :=
  sumOver (numPhases tt) (fun ph => (density fs ph * saturation fs ph)%Qc).

(** The moles per pore volume of a fluid state. *)
Definition totalMoles (tt : TypeTag) (fs : FluidState) : Scalar :=
  sumOver (numPhases tt) (fun ph => (molarDensity fs ph * saturation fs ph)%Qc).

(** The mass and the moles of a component per pore volume, summed over
    the phases in their order. *)
Definition componentMass (tt : TypeTag) (fs : FluidState) (c : nat) : Scalar :=
  sumOver (numPhases tt)
          (fun ph => (density fs ph * saturation fs ph * massFraction fs ph c)%Qc).

Definition componentMoles (tt : TypeTag) (fs : FluidState) (c : nat) : Scalar :=
  sumOver (numPhases tt)
          (fun ph => (molarDensity fs ph * saturation fs ph * moleFraction fs ph c)%Qc).

(** The degree of freedom [i] is the only one of the element with its
    index in the grid. *)
Definition ownsGlobalIndex (elemCtx : ElementContext) (i : nat) : Prop :=
  forall j, j < numPrimaryDof elemCtx 0 ->
            globalSpaceIndex elemCtx j 0 = globalSpaceIndex elemCtx i 0 -> j = i.

(** The grid index [J] belongs to no degree of freedom of the element. *)
Definition outsideElement (elemCtx : ElementContext) (J : nat) : Prop :=
  forall i, i < numPrimaryDof elemCtx 0 -> globalSpaceIndex elemCtx i 0 <> J.

(** Two objects hold the same at the grid index [J] in every buffer. *)
Definition sameAt (J : nat) (m m' : VtkCompositionModule) : Prop :=
  (forall ph c, moleFrac_ m' ph c !! J = moleFrac_ m ph c !! J)
  /\ (forall ph c, massFrac_ m' ph c !! J = massFrac_ m ph c !! J)
  /\ (forall ph c, molarity_ m' ph c !! J = molarity_ m ph c !! J)
  /\ (forall c, totalMassFrac_ m' c !! J = totalMassFrac_ m c !! J)
  /\ (forall c, totalMoleFrac_ m' c !! J = totalMoleFrac_ m c !! J)
  /\ (forall c, fugacity_ m' c !! J = fugacity_ m c !! J)
  /\ (forall ph c, fugacityCoeff_ m' ph c !! J = fugacityCoeff_ m ph c !! J).

(** Two objects have buffers of the same sizes. *)
Definition sameSizes (m m' : VtkCompositionModule) : Prop :=
  (forall ph c, length (moleFrac_ m' ph c) = length (moleFrac_ m ph c))
  /\ (forall ph c, length (massFrac_ m' ph c) = length (massFrac_ m ph c))
  /\ (forall ph c, length (molarity_ m' ph c) = length (molarity_ m ph c))
  /\ (forall c, length (totalMassFrac_ m' c) = length (totalMassFrac_ m c))
  /\ (forall c, length (totalMoleFrac_ m' c) = length (totalMoleFrac_ m c))
  /\ (forall c, length (fugacity_ m' c) = length (fugacity_ m c))
  /\ (forall ph c, length (fugacityCoeff_ m' ph c) = length (fugacityCoeff_ m ph c)).

(** Two phases, two components, an element with the degrees of freedom 4
    and 2 of a grid of six. *)
Definition vtkFluidState (shift : Z) : FluidState :=
  {| moleFraction := fun ph c =>
       if ph =? c then Q2Qc (2 # 3) else Q2Qc (1 # 3);
     massFraction := fun ph c =>
       if ph =? c then Q2Qc (3 # 4) else Q2Qc (1 # 4);
     molarity := fun _ _ => ofZ (7 + shift);
     fugacityCoefficient := fun _ _ => ofZ 1;
     fugacity := fun ph c => ofZ (Z.of_nat (10 * ph + c) + shift);
     density := fun ph => ofZ (Z.of_nat (1 + ph) + shift);
     molarDensity := fun ph => ofZ (Z.of_nat (3 + ph));
     saturation := fun _ => Q2Qc (1 # 2) |}.

Definition vtkElemCtx : ElementContext :=
  {| numPrimaryDof := fun _ => 2;
     globalSpaceIndex := fun i _ => if i =? 0 then 4 else 2;
     fluidState := fun i _ => vtkFluidState (Z.of_nat i) |}.

Definition vtkTypeTag (all : bool) : TypeTag :=
  {| numPhases := 2; numComponents := 2;
     VtkWriteMassFractions := all;
     VtkWriteMoleFractions := true;
     VtkWriteTotalMassFractions := all;
     VtkWriteTotalMoleFractions := all;
     VtkWriteMolarities := all;
     VtkWriteFugacities := all;
     VtkWriteFugacityCoeffs := all |}.

Definition vtkModule : VtkCompositionModule :=
  {| moleFrac_ := fun _ _ => replicate 6 (ofZ 9);
     massFrac_ := fun _ _ => replicate 6 (ofZ 9);
     molarity_ := fun _ _ => replicate 6 (ofZ 9);
     totalMassFrac_ := fun _ => replicate 6 (ofZ 9);
     totalMoleFrac_ := fun _ => replicate 6 (ofZ 9);
     fugacity_ := fun _ => replicate 6 (ofZ 9);
     fugacityCoeff_ := fun _ _ => replicate 6 (ofZ 9) |}.

(** The object with the buffers the default parameters ask for, on a
    grid of six degrees of freedom: the mole fractions only; the other
    buffers are never sized. *)
Definition vtkDefaultModule : VtkCompositionModule :=
  {| moleFrac_ := fun _ _ => replicate 6 0%Qc;
     massFrac_ := fun _ _ => [];
     molarity_ := fun _ _ => [];
     totalMassFrac_ := fun _ => [];
     totalMoleFrac_ := fun _ => [];
     fugacity_ := fun _ => [];
     fugacityCoeff_ := fun _ _ => [] |}.

End VtkStatements.

(** ** A sealed face *)

Module ExampleSealed.

(** The problem of [Example] with a transmissibility of zero. *)
Definition sealedProblem : @Problem 4 :=
  {| transmissibility := fun _ _ _ => ofZ 0;
     thresholdPressure := thresholdPressure Example.problem;
     gravity := gravity Example.problem;
     dofCenterDepth := dofCenterDepth Example.problem;
     rockCompTransMultiplier := rockCompTransMultiplier Example.problem;
     source := source Example.problem |}.

End ExampleSealed.

(** * Properties *)

(** ** Arithmetic of evaluations *)

Section EvaluationFacts.
Context {numEq : nat}.
Implicit Types a b c : @Evaluation numEq.

Lemma Evaluation_ext a b :
  value a = value b ->
  (forall i, derivatives a !!! i = derivatives b !!! i) ->
  a = b.
Proof.
  destruct a as [va da], b as [vb db]; simpl.
  intros -> Hd. f_equal. by apply vec_eq.
Qed.

Lemma eadd_zero_r a : eadd a (constant 0%Qc) = a.
Proof.
  apply Evaluation_ext; simpl; [ring|].
  intros i. rewrite vlookup_zip_with, vlookup_replicate. ring.
Qed.

Lemma eadd_zero_l a : eadd (constant 0%Qc) a = a.
Proof.
  apply Evaluation_ext; simpl; [ring|].
  intros i. rewrite vlookup_zip_with, vlookup_replicate. ring.
Qed.

Lemma eadd_assoc a b c : eadd (eadd a b) c = eadd a (eadd b c).
Proof.
  apply Evaluation_ext; simpl; [ring|].
  intros i. rewrite !vlookup_zip_with. ring.
Qed.

Lemma emul_zero_r a : emul a (constant 0%Qc) = constant 0%Qc.
Proof.
  apply Evaluation_ext; simpl; [ring|].
  intros i. rewrite vlookup_zip_with, !vlookup_replicate. ring.
Qed.

Lemma sscale_zero s : sscale s (constant 0%Qc) = @constant numEq 0%Qc.
Proof.
  apply Evaluation_ext; simpl; [ring|].
  intros i. rewrite vlookup_map, !vlookup_replicate. ring.
Qed.

Lemma escale_zero s : escale (constant 0%Qc) s = @constant numEq 0%Qc.
Proof.
  apply Evaluation_ext; simpl; [ring|].
  intros i. rewrite vlookup_map, !vlookup_replicate. ring.
Qed.

Lemma escale_eadd a b s : escale (eadd a b) s = eadd (escale a s) (escale b s).
Proof.
  apply Evaluation_ext; simpl; [ring|].
  intros i. rewrite vlookup_map, !vlookup_zip_with, !vlookup_map. ring.
Qed.

(** [x += 0] leaves a vector as it is. *)
Lemma alter_eadd_zero (flux : list (@Evaluation numEq)) k :
  alter (fun x => eadd x (constant 0%Qc)) k flux = flux.
Proof. apply list_alter_id. intros x. apply eadd_zero_r. Qed.

End EvaluationFacts.

(** ** The zero-potential fast path *)

Section ZeroPotential.
Context {numEq : nat}.
Implicit Types (tt : @TypeTag numEq) (flux : list (@Evaluation numEq)).
Implicit Types (problem : @Problem numEq) (loc : @FluxLocals numEq).

Lemma evalPhaseFluxes_zero_Evaluation tt flux phaseIdx pvtRegionIdx upFs :
  evalPhaseFluxes_ (U:=Evaluation) tt flux phaseIdx pvtRegionIdx
                   (constant 0%Qc) upFs = flux.
Proof.
  unfold evalPhaseFluxes_, getRs_, getRv_, getRvw_.
  cbn [up_mul up_decay UpEval_Evaluation].
  rewrite ?emul_zero_r, ?escale_zero, ?alter_eadd_zero.
  repeat case_match; rewrite ?alter_eadd_zero; done.
Qed.

Lemma evalPhaseFluxes_zero_Scalar tt flux phaseIdx pvtRegionIdx upFs :
  evalPhaseFluxes_ (U:=Scalar) tt flux phaseIdx pvtRegionIdx
                   (constant 0%Qc) upFs = flux.
Proof.
  unfold evalPhaseFluxes_, getRs_, getRv_, getRvw_.
  cbn [up_mul up_decay UpEval_Scalar].
  rewrite ?sscale_zero, ?escale_zero, ?alter_eadd_zero.
  repeat case_match; rewrite ?alter_eadd_zero; done.
Qed.

Lemma darcyFlux_zero problem loc upIdx pd phaseIdx :
  value pd = 0%Qc ->
  darcyFlux (numEq:=numEq) problem loc upIdx pd phaseIdx = constant 0%Qc.
Proof. intros Hpd. unfold darcyFlux. by rewrite bool_decide_eq_true_2. Qed.

Lemma computeFlux_phase_zero tt problem loc upIdx pd flux phaseIdx :
  value pd = 0%Qc ->
  computeFlux_phase tt problem loc upIdx pd flux phaseIdx = flux.
Proof.
  intros Hpd. unfold computeFlux_phase. rewrite darcyFlux_zero by done.
  case_match.
  - rewrite emul_zero_r. apply evalPhaseFluxes_zero_Evaluation.
  - rewrite sscale_zero. apply evalPhaseFluxes_zero_Scalar.
Qed.

(** C5.  If, for an active phase, the potential difference returned by
    [calculatePhasePressureDiff_] is exactly zero, the loop body of
    [computeFlux] leaves the flux vector exactly as it was: the phase
    contributes exactly zero to every slot, whatever the mobility and the
    rock-compaction transmissibility multiplier are. *)
Theorem computeFlux_body_zero_potential
    tt loc scvfIdx timeIdx flux phaseIdx upIdx dnIdx pd :
  FluidSystem.phaseIsActive (FS tt) phaseIdx = true ->
  phasePressureDiff tt loc scvfIdx timeIdx phaseIdx = (upIdx, dnIdx, pd) ->
  value pd = 0%Qc ->
  forall problem,
    computeFlux_body tt problem loc scvfIdx timeIdx flux phaseIdx = flux.
Proof.
  intros Hact Hcalc Hpd problem. unfold computeFlux_body.
  rewrite Hact, Hcalc; simpl. by apply computeFlux_phase_zero.
Qed.

End ZeroPotential.

(** ** The Darcy flux and its distribution over the component slots *)

Section DarcyFlux.
Context {numEq : nat}.
Implicit Types (tt : @TypeTag numEq) (flux : list (@Evaluation numEq)).
Implicit Types (problem : @Problem numEq) (loc : @FluxLocals numEq).

Lemma value_lookup_alter_eadd flux (j k : nat) (e : @Evaluation numEq) :
  value <$> (alter (fun x => eadd x e) j flux !! k)
  = (fun v => if bool_decide (k = j) then (v + value e)%Qc else v)
      <$> (value <$> flux !! k).
Proof.
  rewrite list_lookup_alter. case_decide as Hjk.
  - subst j. rewrite bool_decide_eq_true_2 by done.
    by destruct (flux !! k).
  - rewrite bool_decide_eq_false_2 by done.
    by destruct (flux !! k).
Qed.

Lemma evalPhaseFluxes_value {U} `{UpEval (numEq:=numEq) U}
    tt flux phaseIdx pvtRegionIdx (svf : Evaluation) upFs k :
  (forall (e x : Evaluation), value (up_mul (up_decay e) x) = (value e * value x)%Qc) ->
  value <$> (evalPhaseFluxes_ (U:=U) tt flux phaseIdx pvtRegionIdx svf upFs !! k)
  = (fun x => (value x
               + spec_flux_contribution tt upFs pvtRegionIdx phaseIdx (value svf) k)%Qc)
      <$> flux !! k.
Proof.
  intros Hmul.
  unfold evalPhaseFluxes_, spec_flux_contribution, conservationFactor,
    getRs_, getRv_, getRvw_.
  repeat case_match; rewrite ?value_lookup_alter_eadd;
    destruct (flux !! k) as [x|]; simpl; try done;
    repeat case_bool_decide; try done; rewrite ?Hmul; f_equal; ring.
Qed.

Lemma darcyFlux_value problem loc upIdx pd phaseIdx :
  value pd <> 0%Qc ->
  value (darcyFlux problem loc upIdx pd phaseIdx)
  = spec_darcyFlux problem loc upIdx (value pd) phaseIdx.
Proof.
  intros Hpd. unfold darcyFlux, spec_darcyFlux, upstream, upstreamGlobalIndex.
  rewrite bool_decide_eq_false_2 by done.
  case_match; simpl; ring.
Qed.

Lemma computeFlux_phase_value tt problem loc upIdx pd flux phaseIdx k :
  let up := upstream loc upIdx in
  value <$> (computeFlux_phase tt problem loc upIdx pd flux phaseIdx !! k)
  = (fun x =>
       (value x
        + spec_flux_contribution tt (fluidState up) (pvtRegionIndex up) phaseIdx
            (value (invB (fluidState up) phaseIdx)
             * value (darcyFlux problem loc upIdx pd phaseIdx)) k)%Qc)
      <$> flux !! k.
Proof.
  intros up. unfold computeFlux_phase. fold (upstream loc upIdx). fold up.
  case_match; rewrite evalPhaseFluxes_value; done.
Qed.

Lemma computeFlux_phase_withDownstream tt problem loc upIdx pd flux phaseIdx iq :
  computeFlux_phase tt problem (withDownstream upIdx iq loc) upIdx pd flux phaseIdx
  = computeFlux_phase tt problem loc upIdx pd flux phaseIdx.
Proof.
  unfold computeFlux_phase, darcyFlux, withDownstream; simpl.
  destruct (upIdx =? interiorDofIdx loc); done.
Qed.

End DarcyFlux.

(** ** The storage term of one phase *)

Section Storage.
Context {numEq : nat}.
Implicit Types (tt : @TypeTag numEq) (intQuants : @IntensiveQuantities numEq).

Lemma lookup_alter_eadd (storage : list (@Evaluation numEq)) (j k : nat) e :
  alter (fun x => eadd x e) j storage !! k
  = (fun x => eadd x (if bool_decide (k = j) then e else constant 0%Qc))
      <$> storage !! k.
Proof.
  rewrite list_lookup_alter. case_decide as Hjk.
  - subst j. by rewrite bool_decide_eq_true_2.
  - rewrite bool_decide_eq_false_2 by done.
    destruct (storage !! k); [|done]. simpl. by rewrite eadd_zero_r.
Qed.

Lemma lookup_cond_alter_eadd (c : bool) (storage : list (@Evaluation numEq))
    (j k : nat) e :
  (if c then alter (fun x => eadd x e) j storage else storage) !! k
  = (fun x => eadd x (if c then if bool_decide (k = j) then e else constant 0%Qc
                      else constant 0%Qc))
      <$> storage !! k.
Proof.
  destruct c; [apply lookup_alter_eadd|].
  destruct (storage !! k); [|done]. simpl. by rewrite eadd_zero_r.
Qed.





End Storage.

(** ** Conservation of masses against conservation of surface volumes *)

(** Case analysis on membership in, and duplicate-freeness of, an
  explicit list. *)
Ltac split_elem H :=
repeat match type of H with
       | _ ∈ _ :: _ => apply elem_of_cons in H as [H|H]
       | _ ∈ [] => by apply elem_of_nil in H
       end.

Ltac split_nodup H :=
repeat match type of H with
       | NoDup (_ :: _) =>
           let H1 := fresh "Hfresh" in
           apply NoDup_cons in H as [H1 H];
           repeat (apply not_elem_of_cons in H1 as [? H1])
       end.

Section ConservationMode.
Context {numEq : nat}.
Implicit Types (tt : @TypeTag numEq) (intQuants : @IntensiveQuantities numEq).




Lemma adaptMassConservationQuantities_lookup {L} `{LhsEval (numEq:=numEq) L}
    tt (container : list L) pvtRegionIdx c ph :
  blackoilConserveSurfaceVolume tt = false ->
  distinctSlots tt (enabledComponents tt) ->
  (c, ph) ∈ enabledComponents tt ->
  adaptMassConservationQuantities_ tt container pvtRegionIdx !! eqSlot tt c
  = (fun x => lhs_scale x (FluidSystem.referenceDensity (FS tt) ph pvtRegionIdx))
      <$> container !! eqSlot tt c.
Proof.
  unfold distinctSlots, enabledComponents, adaptMassConservationQuantities_.
  intros -> Hnd Hin.
  destruct (Indices.waterEnabled (IX tt)), (Indices.gasEnabled (IX tt)),
    (Indices.oilEnabled (IX tt)); simpl in Hnd, Hin;
    split_elem Hin; split_nodup Hnd; simplify_eq;
    rewrite ?list_lookup_alter; repeat case_decide;
    try done; try congruence;
    destruct (container !! _); done.
Qed.

(** C4, as amended.  When masses are conserved: (i) [computeStorage]
    accumulates surface volumes, converts them once, and only then lets the
    modules add their contributions; (ii) that one conversion multiplies
    the slot of every enabled component by the reference density of the
    component's phase at the PVT region of the control volume; (iii) in the
    flux path [evalPhaseFluxes_] multiplies every term by the reference
    density at the point where it adds the term (the factor of the
    specification's contribution is the density, at the PVT region handed
    in, which is the upstream one); (iv) [computeFlux] applies no conversion
    afterwards: its result is the module chain applied to the accumulated
    phases. *)
Theorem mass_conversion_placement tt :
  blackoilConserveSurfaceVolume tt = false ->
  (forall (storage : list (@Evaluation numEq)) intQuants timeIdx,
      computeStorage tt storage intQuants timeIdx
      = addStorage_modules tt
          (adaptMassConservationQuantities_ tt
             (computeStorage_phases (withConserveSurfaceVolume true tt)
                                    storage intQuants timeIdx)
             (pvtRegionIndex intQuants))
          intQuants)
  /\ (forall (container : list (@Evaluation numEq)) pvtRegionIdx c ph,
        distinctSlots tt (enabledComponents tt) ->
        (c, ph) ∈ enabledComponents tt ->
        adaptMassConservationQuantities_ tt container pvtRegionIdx !! eqSlot tt c
        = (fun x => escale x (FluidSystem.referenceDensity (FS tt) ph pvtRegionIdx))
            <$> container !! eqSlot tt c)
  /\ (forall ph pvtRegionIdx,
        conservationFactor tt ph pvtRegionIdx
        = FluidSystem.referenceDensity (FS tt) ph pvtRegionIdx)
  /\ (forall (flux : list (@Evaluation numEq)) phaseIdx pvtRegionIdx svf upFs k,
        value <$> (evalPhaseFluxes_ (U:=Evaluation) tt flux phaseIdx pvtRegionIdx
                                    svf upFs !! k)
        = (fun x => (value x
                     + spec_flux_contribution tt upFs pvtRegionIdx phaseIdx
                         (value svf) k)%Qc)
            <$> flux !! k)
  /\ (forall problem (flux : list (@Evaluation numEq)) elemCtx scvfIdx,
        computeFlux tt problem flux elemCtx scvfIdx 0
        = if interiorIndex (interiorFace (stencil elemCtx 0) scvfIdx)
             =? exteriorIndex (interiorFace (stencil elemCtx 0) scvfIdx)
          then None
          else Some (computeFlux_modules tt
                       (computeFlux_phases tt problem flux elemCtx scvfIdx 0)
                       elemCtx scvfIdx 0)).
Proof.
  intros Hmass. repeat split.
  - intros container pvtRegionIdx c ph Hnd Hin.
    exact (adaptMassConservationQuantities_lookup
             tt container pvtRegionIdx c ph Hmass Hnd Hin).
  - intros. unfold conservationFactor. by rewrite Hmass.
  - intros. by apply evalPhaseFluxes_value.
Qed.

End ConservationMode.

(** ** The source term, the time level of the flux, the reset of the output *)

Section Assembler.
Context {numEq : nat}.
Implicit Types (tt : @TypeTag numEq) (intQuants : @IntensiveQuantities numEq).
Implicit Types (problem : @Problem numEq) (elemCtx : @ElementContext numEq).

(** C8.  [computeSource] is the problem's source term, then the module
    contribution ([MICPModule::addSource]) on top of it, then, if energy is
    enabled, the scaling of the energy equation's slot of that vector by
    [BlackOilEnergyScalingFactor]; every other slot is what the problem and
    the module left there.  The scaling acts on the slot after the module
    call, so a module's energy contribution is scaled too. *)
Theorem computeSource_delegates_then_scales
    tt problem (source_ : list (@Evaluation numEq)) elemCtx dofIdx timeIdx k :
  let fromProblem := source problem source_ elemCtx dofIdx timeIdx in
  let withModules := MICPModule_addSource tt fromProblem elemCtx dofIdx timeIdx in
  computeSource tt problem source_ elemCtx dofIdx timeIdx !! k
  = (fun x => if enableEnergy tt && bool_decide (k = Indices.contiEnergyEqIdx (IX tt))
              then escale x (BlackOilEnergyScalingFactor tt) else x)
      <$> withModules !! k.
Proof.
  intros fromProblem withModules. unfold computeSource.
  fold fromProblem. fold withModules.
  destruct (enableEnergy tt); simpl.
  - rewrite list_lookup_alter. case_decide as Hk.
    + subst k. by rewrite bool_decide_eq_true_2.
    + rewrite bool_decide_eq_false_2 by done. by destruct (withModules !! k).
  - by destruct (withModules !! k).
Qed.

Lemma length_computeStorage_phase {L} `{LhsEval (numEq:=numEq) L}
    tt intQuants timeIdx (storage : list L) phaseIdx :
  length (computeStorage_phase tt intQuants timeIdx storage phaseIdx)
  = length storage.
Proof.
  unfold computeStorage_phase.
  repeat case_match; rewrite ?length_insert, ?length_alter; done.
Qed.

Lemma length_computeStorage_phases {L} `{LhsEval (numEq:=numEq) L}
    tt (storage : list L) intQuants timeIdx :
  length (computeStorage_phases tt storage intQuants timeIdx) = length storage.
Proof.
  unfold computeStorage_phases.
  transitivity (length ((fun _ : L => lhs_const 0%Qc) <$> storage));
    [|apply length_fmap].
  generalize ((fun _ : L => lhs_const 0%Qc) <$> storage).
  induction (seq 0 (numPhases tt)) as [|p ps IH]; intros st; simpl; [done|].
  by rewrite IH, length_computeStorage_phase.
Qed.

Lemma length_adaptMassConservationQuantities_ {L} `{LhsEval (numEq:=numEq) L}
    tt (container : list L) pvtRegionIdx :
  length (adaptMassConservationQuantities_ tt container pvtRegionIdx)
  = length container.
Proof.
  unfold adaptMassConservationQuantities_.
  repeat case_match; rewrite ?length_alter; done.
Qed.

(** C9.  [computeFlux] returns a flux vector exactly when [timeIdx] is
    zero (and the face joins two different degrees of freedom, the second
    assertion of the function); at any other time level its first
    assertion fails.  [computeStorage] has no such assertion: at every time
    level its accumulation and conversion steps yield a vector of the size
    of the one passed in. *)
Theorem computeFlux_only_at_first_time_level
    tt problem (flux : list (@Evaluation numEq)) elemCtx scvfIdx timeIdx
    (storage : list (@Evaluation numEq)) intQuants :
  (is_Some (computeFlux tt problem flux elemCtx scvfIdx timeIdx)
   <-> timeIdx = 0
       /\ interiorIndex (interiorFace (stencil elemCtx timeIdx) scvfIdx)
          <> exteriorIndex (interiorFace (stencil elemCtx timeIdx) scvfIdx))
  /\ length (adaptMassConservationQuantities_ tt
               (computeStorage_phases tt storage intQuants timeIdx)
               (pvtRegionIndex intQuants))
     = length storage.
Proof.
  split.
  - unfold computeFlux. destruct timeIdx as [|t]; simpl.
    + destruct (Nat.eqb_spec
                  (interiorIndex (interiorFace (stencil elemCtx 0) scvfIdx))
                  (exteriorIndex (interiorFace (stencil elemCtx 0) scvfIdx)))
        as [Heq|Hne].
      * split; [by intros [? ?]|]. by intros [_ ?].
      * split; [done|]. intros _. by eexists.
    + split; [by intros [? ?]|]. by intros [? _].
  - by rewrite length_adaptMassConservationQuantities_, length_computeStorage_phases.
Qed.

Lemma zeroed_length {A B} (z : B) (v1 v2 : list A) :
  length v1 = length v2 ->
  (fun _ => z) <$> v1 = (fun _ => z) <$> v2.
Proof.
  revert v2. induction v1 as [|x v1 IH]; intros [|y v2] Hlen; simpl in *;
    try done. f_equal. apply IH. lia.
Qed.

(** C10.  [computeStorage] and [computeFlux] overwrite the whole output
    vector with zeros before they accumulate: two output vectors of the
    same size, whatever they hold, lead to the same result.  [computeSource]
    hands the vector to the problem's callback as it is: with a callback
    that leaves the vector alone (and no module source, no energy) the
    result is the initial content, so different initial contents give
    different results. *)
Theorem output_vector_reset_before_accumulation
    tt problem elemCtx intQuants scvfIdx dofIdx timeIdx
    (v1 v2 : list (@Evaluation numEq)) :
  length v1 = length v2 ->
  computeStorage tt v1 intQuants timeIdx = computeStorage tt v2 intQuants timeIdx
  /\ computeFlux tt problem v1 elemCtx scvfIdx timeIdx
     = computeFlux tt problem v2 elemCtx scvfIdx timeIdx
  /\ computeSource (withoutSourceModules tt) (withEchoSource problem)
                   v1 elemCtx dofIdx timeIdx = v1
  /\ computeSource (withoutSourceModules tt) (withEchoSource problem)
                   v2 elemCtx dofIdx timeIdx = v2.
Proof.
  intros Hlen. split; [|split; [|done]].
  - unfold computeStorage, computeStorage_phases.
    by rewrite (zeroed_length _ v1 v2 Hlen).
  - unfold computeFlux, computeFlux_phases.
    by rewrite (zeroed_length _ v1 v2 Hlen).
Qed.

End Assembler.

(** ** The differentiation discipline of the flux *)

Section DerivativeDiscipline.
Context {numEq : nat}.
Implicit Types (tt : @TypeTag numEq) (flux : list (@Evaluation numEq)).
Implicit Types (problem : @Problem numEq) (loc : @FluxLocals numEq).
Implicit Types (pd svf e : @Evaluation numEq).

Lemma evalPhaseFluxes_Scalar_values tt flux phaseIdx pvtRegionIdx svf
    (fs fs' : @FluidState numEq) :
  value (Rs fs) = value (Rs fs') ->
  value (Rv fs) = value (Rv fs') ->
  value (Rvw fs) = value (Rvw fs') ->
  evalPhaseFluxes_ (U:=Scalar) tt flux phaseIdx pvtRegionIdx svf fs
  = evalPhaseFluxes_ (U:=Scalar) tt flux phaseIdx pvtRegionIdx svf fs'.
Proof.
  intros Hs Hv Hw. unfold evalPhaseFluxes_, getRs_, getRv_, getRvw_.
  cbn [up_decay up_mul UpEval_Scalar]. by rewrite Hs, Hv, Hw.
Qed.

Lemma derivativeFree_constant (c : Scalar) : derivativeFree (@constant numEq c).
Proof. done. Qed.

Lemma derivativeFree_sscale s e : derivativeFree e -> derivativeFree (sscale s e).
Proof.
  unfold derivativeFree. intros He. simpl. rewrite He.
  apply vec_eq; intros i. rewrite vlookup_map, !vlookup_replicate. ring.
Qed.

Lemma derivativeFree_escale s e : derivativeFree e -> derivativeFree (escale e s).
Proof.
  unfold derivativeFree. intros He. simpl. rewrite He.
  apply vec_eq; intros i. rewrite vlookup_map, !vlookup_replicate. ring.
Qed.

Lemma derivatives_eadd_free (x e : @Evaluation numEq) :
  derivativeFree e -> derivatives (eadd x e) = derivatives x.
Proof.
  unfold derivativeFree. intros He. simpl. rewrite He.
  apply vec_eq; intros i. rewrite vlookup_zip_with, vlookup_replicate. ring.
Qed.

Lemma derivatives_lookup_alter_free flux (j k : nat) e :
  derivativeFree e ->
  derivatives <$> (alter (fun x => eadd x e) j flux !! k)
  = derivatives <$> flux !! k.
Proof.
  intros He. rewrite list_lookup_alter. case_decide; [subst j|done].
  destruct (flux !! k) as [x|]; [|done].
  cbn [fmap option_fmap option_map]. by rewrite derivatives_eadd_free.
Qed.

Lemma evalPhaseFluxes_Scalar_derivatives tt flux phaseIdx pvtRegionIdx svf upFs k :
  derivativeFree svf ->
  derivatives <$> (evalPhaseFluxes_ (U:=Scalar) tt flux phaseIdx pvtRegionIdx svf upFs !! k)
  = derivatives <$> flux !! k.
Proof.
  intros Hsvf. unfold evalPhaseFluxes_, getRs_, getRv_, getRvw_.
  cbn [up_decay up_mul UpEval_Scalar].
  repeat case_match;
    rewrite ?derivatives_lookup_alter_free;
    auto using derivativeFree_sscale, derivativeFree_escale.
Qed.

Lemma darcyFlux_exterior problem loc upIdx pd phaseIdx :
  (upIdx =? interiorDofIdx loc) = false ->
  darcyFlux problem loc upIdx pd phaseIdx
  = if bool_decide (value pd = 0%Qc) then constant 0%Qc
    else escale pd
           (value (mobility (intQuantsEx loc) phaseIdx)
            * value (rockCompTransMultiplier problem (intQuantsEx loc) (globalIndexEx loc))
            * (- trans loc / faceArea loc))%Qc.
Proof. intros Hup. unfold darcyFlux. by rewrite Hup. Qed.

(** C3, as amended.  On a face whose interior degree of freedom is the
    focus: if the upstream side is the focus, the derivative-carrying path
    is kept through the Darcy flux, the inverse formation-volume-factor and
    Rs, Rv, Rvw; if it is not, the flux of the phase depends on the upstream
    mobility, transmissibility multiplier, invB, Rs, Rv and Rvw through their
    values only (changing their derivatives changes nothing), and a
    potential difference without derivatives leaves the derivatives of
    every slot of the flux vector as they were. *)
Theorem computeFlux_phase_derivative_discipline
    tt problem loc upIdx pd flux phaseIdx :
  focusDofIdx loc = interiorDofIdx loc ->
  (upIdx = focusDofIdx loc ->
     computeFlux_phase tt problem loc upIdx pd flux phaseIdx
     = evalPhaseFluxes_ (U:=Evaluation) tt flux phaseIdx
         (pvtRegionIndex (intQuantsIn loc))
         (emul (invB (fluidState (intQuantsIn loc)) phaseIdx)
               (if bool_decide (value pd = 0%Qc) then constant 0%Qc
                else escale
                       (emul (emul pd (mobility (intQuantsIn loc) phaseIdx))
                             (rockCompTransMultiplier problem (intQuantsIn loc)
                                (globalIndexIn loc)))
                       (- trans loc / faceArea loc)%Qc))
         (fluidState (intQuantsIn loc)))
  /\ (upIdx <> focusDofIdx loc ->
        (forall problem' loc',
            sameFace loc loc' ->
            sameValues (upstream loc upIdx) (upstream loc' upIdx) ->
            value (rockCompTransMultiplier problem (upstream loc upIdx)
                     (upstreamGlobalIndex loc upIdx))
            = value (rockCompTransMultiplier problem' (upstream loc' upIdx)
                       (upstreamGlobalIndex loc' upIdx)) ->
            computeFlux_phase tt problem' loc' upIdx pd flux phaseIdx
            = computeFlux_phase tt problem loc upIdx pd flux phaseIdx)
        /\ (derivativeFree pd ->
            forall k,
              derivatives <$> (computeFlux_phase tt problem loc upIdx pd flux phaseIdx !! k)
              = derivatives <$> flux !! k)).
Proof.
  intros Hfocus. split.
  - intros ->. unfold computeFlux_phase, darcyFlux, getInvB_.
    rewrite Hfocus, Nat.eqb_refl. done.
  - intros Hne.
    assert (Hup : (upIdx =? interiorDofIdx loc) = false)
      by (apply Nat.eqb_neq; congruence).
    assert (Hup' : (upIdx =? focusDofIdx loc) = false)
      by (by apply Nat.eqb_neq).
    split.
    + intros problem' loc' (Hi & Hf & Ht & Ha).
      unfold upstream, upstreamGlobalIndex. rewrite <- Hi, Hup.
      intros (Hreg & Hs & Hv & Hw & Hph) Htm.
      destruct (Hph phaseIdx) as [Hmob HinvB].
      unfold computeFlux_phase. rewrite <- Hi, <- Hf, Hup, Hup'.
      rewrite !darcyFlux_exterior by (by rewrite <- ?Hi).
      unfold getInvB_. cbn [up_decay UpEval_Scalar].
      rewrite <- Hreg, <- Hmob, <- HinvB, <- Htm, <- Ht, <- Ha.
      symmetry. by apply evalPhaseFluxes_Scalar_values.
    + intros Hpd k. unfold computeFlux_phase. rewrite Hup, Hup'.
      apply evalPhaseFluxes_Scalar_derivatives.
      apply derivativeFree_sscale.
      rewrite darcyFlux_exterior by done.
      case_bool_decide; [apply derivativeFree_constant|].
      by apply derivativeFree_escale.
Qed.

End DerivativeDiscipline.

(** * The model at concrete inputs *)

Section Witnesses.
Import Example.

Lemma computeFlux_body_zero_potential_witness :
  FluidSystem.phaseIsActive (FS ttNoflow) 1 = true
  /\ phasePressureDiff ttNoflow (locals 0) 0 0 1 = (0, 1, ev 0 1 0 0 0)
  /\ value (ev 0 1 0 0 0) = 0%Qc
  /\ computeFlux_body ttNoflow problem (locals 0) 0 0 ones 1 = ones.
Proof.
  split; [reflexivity|]. split; [reflexivity|]. split; [reflexivity|].
  exact (computeFlux_body_zero_potential
           ttNoflow (locals 0) 0 0 ones 1 0 1 (ev 0 1 0 0 0)
           eq_refl eq_refl eq_refl problem).
Defined.

Lemma output_vector_reset_before_accumulation_witness :
  length zeros = length ones
  /\ computeStorage ttOutflow zeros stateA 0 = computeStorage ttOutflow ones stateA 0
  /\ computeFlux ttOutflow problem zeros (elemCtx 0) 0 0
     = computeFlux ttOutflow problem ones (elemCtx 0) 0 0.
Proof.
  split; [reflexivity|].
  destruct (output_vector_reset_before_accumulation
              ttOutflow problem (elemCtx 0) stateA 0 0 0 zeros ones eq_refl)
    as (Hs & Hf & _).
  exact (conj Hs Hf).
Defined.

Lemma computeFlux_phase_derivative_discipline_witness :
  focusDofIdx (locals 0) = interiorDofIdx (locals 0)
  /\ 1 <> focusDofIdx (locals 0)
  /\ derivativeFree (ev (-10) 0 0 0 0)
  /\ derivatives <$> (computeFlux_phase ttOutflow problem (locals 0) 1
                        (ev (-10) 0 0 0 0) zeros 2 !! 1)
     = derivatives <$> zeros !! 1.
Proof.
  assert (H2 : 1 <> focusDofIdx (locals 0)) by (simpl; lia).
  assert (H3 : derivativeFree (ev (-10) 0 0 0 0)) by reflexivity.
  split; [reflexivity|]. split; [exact H2|]. split; [exact H3|].
  exact (proj2 (proj2 (computeFlux_phase_derivative_discipline
                         ttOutflow problem (locals 0) 1 (ev (-10) 0 0 0 0) zeros 2
                         eq_refl) H2) H3 1).
Defined.

Lemma mass_conversion_placement_witness :
  blackoilConserveSurfaceVolume ttMassWaterDeposit = false
  /\ computeStorage ttMassWaterDeposit zeros stateA 0
     = addStorage_modules ttMassWaterDeposit
         (adaptMassConservationQuantities_ ttMassWaterDeposit
            (computeStorage_phases (withConserveSurfaceVolume true ttMassWaterDeposit)
                                   zeros stateA 0)
            (pvtRegionIndex stateA))
         stateA.
Proof.
  split; [reflexivity|].
  exact (proj1 (mass_conversion_placement ttMassWaterDeposit eq_refl)
           zeros stateA 0).
Defined.

Lemma computeFlux_only_at_first_time_level_witness :
  computeFlux ttOutflow problem ones (elemCtx 0) 0 1 = None
  /\ is_Some (computeFlux ttOutflow problem ones (elemCtx 0) 0 0).
Proof.
  split; [reflexivity|].
  apply (proj1 (computeFlux_only_at_first_time_level
                  ttOutflow problem ones (elemCtx 0) 0 0 ones stateA)).
  split; [reflexivity|]. simpl; lia.
Defined.

End Witnesses.

(** * Where the code departs from the specification *)

Section Counterexamples.
Import Example.

(** C3 as stated fails when the focus is not the interior degree of
    freedom.  Focus 1 (the exterior one), upstream 0 (the interior one):
    the upstream side is not the focus, yet the Darcy flux keeps the
    derivatives of the upstream mobility and multiplier.  Stripping the
    derivatives of the upstream state changes the flux, and with a
    potential difference that carries no derivative the oil slot still
    receives one. *)
Lemma derivative_discipline_fails_off_interior_focus :
  0 <> focusDofIdx (locals 1)
  /\ sameFace (locals 1) (localsDecayedInterior 1)
  /\ sameValues (upstream (locals 1) 0) (upstream (localsDecayedInterior 1) 0)
  /\ value (rockCompTransMultiplier problem (upstream (locals 1) 0)
               (upstreamGlobalIndex (locals 1) 0))
     = value (rockCompTransMultiplier problem (upstream (localsDecayedInterior 1) 0)
                (upstreamGlobalIndex (localsDecayedInterior 1) 0))
  /\ derivativeFree (ev 10 0 0 0 0)
  /\ computeFlux_phase ttOutflow problem (localsDecayedInterior 1) 0
                       (ev 10 0 0 0 0) zeros 1
     <> computeFlux_phase ttOutflow problem (locals 1) 0 (ev 10 0 0 0 0) zeros 1
  /\ derivatives <$> (computeFlux_phase ttOutflow problem (locals 1) 0
                                        (ev 10 0 0 0 0) zeros 1 !! 0)
     <> derivatives <$> zeros !! 0.
Proof.
  split; [simpl; lia|]. split; [by repeat split|].
  split; [by repeat split|]. split; [reflexivity|]. split; [reflexivity|].
  split; by compute_done.
Qed.

(** C4 as stated fails twice.  In [computeStorage] the conversion comes
    before the module contributions, not after them: with a module that
    deposits into the water slot the result differs from converting after
    the modules.  In [computeFlux] there is no conversion step at all: with
    water flowing out of PVT region 0 and gas flowing in from PVT region 1,
    the mass-mode flux is no conversion of the surface-volume flux at any
    PVT region. *)
Lemma mass_conversion_is_not_a_final_step :
  computeStorage ttMassWaterDeposit zeros stateA 0
  <> adaptMassConservationQuantities_ ttMassWaterDeposit
       (addStorage_modules ttMassWaterDeposit
          (computeStorage_phases ttMassWaterDeposit zeros stateA 0) stateA)
       (pvtRegionIndex stateA)
  /\ forall pvtRegionIdx,
       computeFlux ttMassCountercurrent problem zeros (elemCtx 0) 0 0
       <> (fun fl => adaptMassConservationQuantities_ ttMassCountercurrent fl pvtRegionIdx)
            <$> computeFlux (withConserveSurfaceVolume true ttMassCountercurrent)
                  problem zeros (elemCtx 0) 0 0.
Proof.
  split; [by compute_done|].
  intros [|r]; by compute_done.
Qed.

End Counterexamples.

(** * Further properties of the storage term *)

Section StorageLoop.
Context {numEq : nat}.
Implicit Types (tt : @TypeTag numEq) (intQuants : @IntensiveQuantities numEq).

(** X1.  [adaptMassConservationQuantities_] keeps the size of the vector and
    leaves every slot that is not the slot of an enabled component as it
    is, in either conservation mode: the equations of the modules are never
    converted. *)
Theorem adaptMassConservationQuantities_other_slots
    tt (container : list (@Evaluation numEq)) pvtRegionIdx k :
  k ∉ convertedSlots tt ->
  adaptMassConservationQuantities_ tt container pvtRegionIdx !! k = container !! k
  /\ length (adaptMassConservationQuantities_ tt container pvtRegionIdx)
     = length container.
Proof.
  intros Hk. split; [|apply length_adaptMassConservationQuantities_].
  revert Hk. unfold convertedSlots, enabledComponents, adaptMassConservationQuantities_.
  repeat case_match; simpl; rewrite ?not_elem_of_cons; intros Hk;
    rewrite ?list_lookup_alter_ne by (intuition congruence); done.
Qed.

Lemma values_insert (st1 st2 : list (@Evaluation numEq)) k (e1 e2 : @Evaluation numEq) :
  value <$> st1 = value <$> st2 ->
  value e1 = value e2 ->
  value <$> <[k := e1]> st1 = value <$> <[k := e2]> st2.
Proof. intros Hst He. by rewrite !list_fmap_insert, Hst, He. Qed.

Lemma values_alter_eadd (st1 st2 : list (@Evaluation numEq)) k (e : @Evaluation numEq) :
  value <$> st1 = value <$> st2 ->
  value <$> alter (fun x => eadd x e) k st1
  = value <$> alter (fun x => eadd x e) k st2.
Proof.
  intros Hst.
  rewrite !(list_fmap_alter value (fun x => eadd x e) (fun v => (v + value e)%Qc))
    by (by apply Forall_forall).
  by rewrite Hst.
Qed.

Lemma values_computeStorage_phase tt intQuants t1 t2
    (st1 st2 : list (@Evaluation numEq)) phaseIdx :
  value <$> st1 = value <$> st2 ->
  value <$> computeStorage_phase tt intQuants t1 st1 phaseIdx
  = value <$> computeStorage_phase tt intQuants t2 st2 phaseIdx.
Proof.
  intros Hst. unfold computeStorage_phase.
  cbn [lhs_add lhs_mul lhs_decay lhs_const lhs_variable LhsEval_Evaluation].
  repeat case_match;
    repeat first [ done | apply values_insert | apply values_alter_eadd ].
Qed.

Lemma values_escale (st1 st2 : list (@Evaluation numEq)) k (s : Scalar) :
  value <$> st1 = value <$> st2 ->
  value <$> alter (fun x => escale x s) k st1
  = value <$> alter (fun x => escale x s) k st2.
Proof.
  intros Hst.
  rewrite !(list_fmap_alter value (fun x => escale x s) (fun v => (v * s)%Qc))
    by (by apply Forall_forall).
  by rewrite Hst.
Qed.

Lemma values_foldl_computeStorage_phase tt intQuants t1 t2 (phases : list nat)
    (st1 st2 : list (@Evaluation numEq)) :
  value <$> st1 = value <$> st2 ->
  value <$> foldl (computeStorage_phase tt intQuants t1) st1 phases
  = value <$> foldl (computeStorage_phase tt intQuants t2) st2 phases.
Proof.
  revert st1 st2. induction phases as [|p ps IH]; intros st1 st2 Hst; simpl;
    [done|].
  apply IH. by apply values_computeStorage_phase.
Qed.

(** X2.  The time level never changes a value of the storage term: the
    accumulated and converted storage vectors of two time levels agree in
    all values.  ([timeIdx] only decides whether the pseudo equation of an
    inactive phase is seeded with a derivative.) *)
Theorem computeStorage_values_independent_of_time_level
    tt (storage : list (@Evaluation numEq)) intQuants t1 t2 :
  value <$> adaptMassConservationQuantities_ tt
              (computeStorage_phases tt storage intQuants t1)
              (pvtRegionIndex intQuants)
  = value <$> adaptMassConservationQuantities_ tt
                (computeStorage_phases tt storage intQuants t2)
                (pvtRegionIndex intQuants).
Proof.
  assert (Hloop : value <$> computeStorage_phases tt storage intQuants t1
                  = value <$> computeStorage_phases tt storage intQuants t2)
    by (by apply values_foldl_computeStorage_phase).
  revert Hloop.
  generalize (computeStorage_phases tt storage intQuants t1).
  generalize (computeStorage_phases tt storage intQuants t2).
  intros st2 st1 Hloop.
  unfold adaptMassConservationQuantities_.
  cbn [lhs_scale LhsEval_Evaluation].
  repeat case_match; repeat first [ done | apply values_escale ].
Qed.

Lemma lookup_computeStorage_phase tt intQuants timeIdx
    (storage : list (@Evaluation numEq)) phaseIdx k :
  FluidSystem.phaseIsActive (FS tt) phaseIdx = true
  \/ Indices.numPhases (IX tt) <> 3 ->
  computeStorage_phase tt intQuants timeIdx storage phaseIdx !! k
  = (fun x => eadd x (storagePhaseContribution tt intQuants phaseIdx k))
      <$> storage !! k.
Proof.
  intros Hcase. unfold storagePhaseContribution.
  destruct (FluidSystem.phaseIsActive (FS tt) phaseIdx) eqn:Hact.
  - unfold computeStorage_phase, spec_storage_contribution.
    rewrite Hact. cbn [negb lhs_add lhs_mul lhs_decay LhsEval_Evaluation].
    rewrite !lookup_cond_alter_eadd, lookup_alter_eadd.
    destruct (storage !! k) as [x|]; cbn [fmap option_fmap option_map]; [|done].
    f_equal. by rewrite !eadd_assoc.
  - destruct Hcase as [|Hnum]; [done|].
    unfold computeStorage_phase. rewrite Hact; simpl.
    apply Nat.eqb_neq in Hnum. rewrite Hnum.
    destruct (storage !! k); [|done]. simpl. by rewrite eadd_zero_r.
Qed.

Lemma lookup_foldl_computeStorage_phase tt intQuants timeIdx (phases : list nat)
    (storage : list (@Evaluation numEq)) k (acc : @Evaluation numEq) :
  Forall (fun p => FluidSystem.phaseIsActive (FS tt) p = true
                   \/ Indices.numPhases (IX tt) <> 3) phases ->
  storage !! k = Some acc ->
  foldl (computeStorage_phase tt intQuants timeIdx) storage phases !! k
  = Some (foldl (fun a p => eadd a (storagePhaseContribution tt intQuants p k))
                acc phases).
Proof.
  intros Hall. revert storage acc.
  induction Hall as [|p ps Hp _ IH]; intros storage acc Hst; simpl; [done|].
  apply IH. rewrite lookup_computeStorage_phase by done. by rewrite Hst.
Qed.

(** X3.  When no pseudo equation is written (every phase of the loop is
    active, or the numbering is not the three-phase one), every slot of the
    accumulated storage vector is the sum, over the phases in loop order, of
    what the phases contribute to it; inactive phases contribute nothing. *)
Theorem computeStorage_phases_sum
    tt (storage : list (@Evaluation numEq)) intQuants timeIdx k :
  (forall phaseIdx, phaseIdx < numPhases tt ->
     FluidSystem.phaseIsActive (FS tt) phaseIdx = true
     \/ Indices.numPhases (IX tt) <> 3) ->
  k < length storage ->
  computeStorage_phases tt storage intQuants timeIdx !! k
  = Some (storageSum tt intQuants k).
Proof.
  intros Hall Hk. unfold computeStorage_phases, storageSum.
  apply lookup_foldl_computeStorage_phase.
  - apply Forall_forall. intros p Hp. apply Hall.
    apply list_elem_of_In, in_seq in Hp. lia.
  - rewrite list_lookup_fmap.
    destruct (lookup_lt_is_Some_2 storage k Hk) as [x ->]. done.
Qed.

End StorageLoop.

(** * Further properties of the flux *)

Section FluxLoop.
Context {numEq : nat}.
Implicit Types (tt : @TypeTag numEq) (flux : list (@Evaluation numEq)).
Implicit Types (problem : @Problem numEq) (loc : @FluxLocals numEq).
Implicit Types (elemCtx : @ElementContext numEq).

Lemma value_lookup_computeFlux_body tt problem loc scvfIdx timeIdx flux phaseIdx k :
  value <$> (computeFlux_body tt problem loc scvfIdx timeIdx flux phaseIdx !! k)
  = (fun x => (value x
               + fluxPhaseContribution tt problem loc scvfIdx timeIdx phaseIdx k)%Qc)
      <$> flux !! k.
Proof.
  unfold computeFlux_body, fluxPhaseContribution.
  destruct (FluidSystem.phaseIsActive (FS tt) phaseIdx); simpl.
  - destruct (phasePressureDiff tt loc scvfIdx timeIdx phaseIdx) as [[upIdx dnIdx] pd].
    apply computeFlux_phase_value.
  - destruct (flux !! k) as [x|]; [|done]. simpl. f_equal. ring.
Qed.

Lemma value_lookup_foldl_computeFlux_body
    tt problem loc scvfIdx timeIdx (phases : list nat) flux k :
  value <$> (foldl (computeFlux_body tt problem loc scvfIdx timeIdx) flux phases !! k)
  = (fun x => foldl (fun acc p =>
                       (acc + fluxPhaseContribution tt problem loc scvfIdx timeIdx p k)%Qc)
                    (value x) phases)
      <$> flux !! k.
Proof.
  revert flux. induction phases as [|p ps IH]; intros flux; simpl; [done|].
  rewrite IH.
  pose proof (value_lookup_computeFlux_body tt problem loc scvfIdx timeIdx flux p k)
    as Hstep.
  destruct (computeFlux_body tt problem loc scvfIdx timeIdx flux p !! k) as [y|],
    (flux !! k) as [x|]; simpl in *; try done.
  injection Hstep as ->. done.
Qed.

(** X4.  After the loop over the phases, the value in every slot of the
    flux vector is the sum, over the phases in loop order, of what the
    specification prescribes for each active phase (from its upstream side
    and its Darcy flux); inactive phases add nothing, and nothing of the
    vector's previous content survives. *)
Theorem computeFlux_phases_value_sum
    tt problem flux elemCtx scvfIdx timeIdx k :
  k < length flux ->
  value <$> (computeFlux_phases tt problem flux elemCtx scvfIdx timeIdx !! k)
  = Some (fluxSum tt problem (computeFlux_locals tt problem elemCtx scvfIdx timeIdx)
                  scvfIdx timeIdx k).
Proof.
  intros Hk. unfold computeFlux_phases, fluxSum.
  rewrite value_lookup_foldl_computeFlux_body, list_lookup_fmap.
  destruct (lookup_lt_is_Some_2 flux k Hk) as [x ->]. done.
Qed.

Lemma fluxPhaseContribution_withFocus tt problem loc focus scvfIdx timeIdx phaseIdx k :
  fluxPhaseContribution tt problem (withFocusLocals focus loc) scvfIdx timeIdx phaseIdx k
  = fluxPhaseContribution tt problem loc scvfIdx timeIdx phaseIdx k.
Proof. reflexivity. Qed.

(** X5.  The focus degree of freedom decides which derivatives are
    tracked, never a value: with the focus changed (and the problem's
    transmissibility and depth callbacks answering the same for both
    contexts) the accumulated flux vector has the same values in all
    slots. *)
Theorem computeFlux_values_independent_of_focus
    tt problem flux elemCtx focus scvfIdx timeIdx :
  computeFlux_locals tt problem (withFocus focus elemCtx) scvfIdx timeIdx
  = withFocusLocals focus (computeFlux_locals tt problem elemCtx scvfIdx timeIdx) ->
  value <$> computeFlux_phases tt problem flux (withFocus focus elemCtx) scvfIdx timeIdx
  = value <$> computeFlux_phases tt problem flux elemCtx scvfIdx timeIdx.
Proof.
  intros Hloc. apply list_eq; intros k. rewrite !list_lookup_fmap.
  unfold computeFlux_phases. rewrite Hloc.
  rewrite !value_lookup_foldl_computeFlux_body.
  destruct (((fun _ : @Evaluation numEq => constant 0%Qc) <$> flux) !! k) as [x|];
    [|done].
  cbn [fmap option_fmap option_map]. f_equal.
Qed.

Lemma computeFlux_phase_no_darcyFlux tt problem loc upIdx pd flux phaseIdx :
  darcyFlux problem loc upIdx pd phaseIdx = constant 0%Qc ->
  computeFlux_phase tt problem loc upIdx pd flux phaseIdx = flux.
Proof.
  intros Hd. unfold computeFlux_phase. rewrite Hd.
  case_match.
  - rewrite emul_zero_r. apply evalPhaseFluxes_zero_Evaluation.
  - rewrite sscale_zero. apply evalPhaseFluxes_zero_Scalar.
Qed.

Lemma foldl_computeFlux_body_id tt problem loc scvfIdx timeIdx (phases : list nat) flux :
  Forall (fun p => forall fl, computeFlux_body tt problem loc scvfIdx timeIdx fl p = fl)
         phases ->
  foldl (computeFlux_body tt problem loc scvfIdx timeIdx) flux phases = flux.
Proof.
  intros Hall. revert flux.
  induction Hall as [|p ps Hp _ IH]; intros flux; simpl; [done|].
  by rewrite Hp, IH.
Qed.

(** X6.  No flow, no flux: if the potential difference of every active
    phase of the loop is exactly zero, [computeFlux] accumulates the zero
    vector (all values and all derivatives zero), whatever the mobilities,
    multipliers and fluid states are. *)
Theorem computeFlux_phases_no_flow
    tt problem flux elemCtx scvfIdx timeIdx :
  (forall phaseIdx,
      phaseIdx < numPhases tt ->
      FluidSystem.phaseIsActive (FS tt) phaseIdx = true ->
      value (phasePressureDiff tt (computeFlux_locals tt problem elemCtx scvfIdx timeIdx)
                               scvfIdx timeIdx phaseIdx).2 = 0%Qc) ->
  computeFlux_phases tt problem flux elemCtx scvfIdx timeIdx
  = (fun _ => constant 0%Qc) <$> flux.
Proof.
  intros Hzero. unfold computeFlux_phases.
  apply foldl_computeFlux_body_id, Forall_forall.
  intros p Hp fl. apply list_elem_of_In, in_seq in Hp.
  unfold computeFlux_body.
  destruct (FluidSystem.phaseIsActive (FS tt) p) eqn:Hact; simpl; [|done].
  specialize (Hzero p ltac:(lia) Hact).
  destruct (phasePressureDiff _ _ _ _ _) as [[upIdx dnIdx] pd]; simpl in *.
  apply computeFlux_phase_no_darcyFlux. by apply darcyFlux_zero.
Qed.

Lemma darcyFlux_sealed problem loc upIdx pd phaseIdx :
  trans loc = 0%Qc ->
  darcyFlux problem loc upIdx pd phaseIdx = constant 0%Qc.
Proof.
  intros Htrans. unfold darcyFlux. rewrite Htrans.
  repeat case_match; [done| |]; apply Evaluation_ext; simpl;
    try (intros i; rewrite vlookup_map, vlookup_replicate);
    unfold Qcdiv; ring.
Qed.

(** X7.  A sealed face carries no flux: with a transmissibility of zero
    (and a face area that is not zero) [computeFlux] accumulates the zero
    vector, whatever the potential differences and upstream states are.
    The condition on the area is the source's: in [double] arithmetic
    [-trans/faceArea] is not a number for [0/0]; the exact quotient used
    here is zero either way. *)
Theorem computeFlux_phases_sealed_face
    tt problem flux elemCtx scvfIdx timeIdx :
  let scvf := interiorFace (stencil elemCtx timeIdx) scvfIdx in
  transmissibility problem elemCtx (interiorIndex scvf) (exteriorIndex scvf) = 0%Qc ->
  area scvf <> 0%Qc ->
  computeFlux_phases tt problem flux elemCtx scvfIdx timeIdx
  = (fun _ => constant 0%Qc) <$> flux.
Proof.
  intros scvf Htrans _. unfold computeFlux_phases.
  apply foldl_computeFlux_body_id, Forall_forall.
  intros p _ fl. unfold computeFlux_body.
  destruct (FluidSystem.phaseIsActive (FS tt) p); simpl; [|done].
  destruct (phasePressureDiff _ _ _ _ _) as [[upIdx dnIdx] pd].
  apply computeFlux_phase_no_darcyFlux, darcyFlux_sealed. exact Htrans.
Qed.

(** X8.  Decaying the upstream quantities changes derivatives only: the
    overload of [evalPhaseFluxes_] that takes the volume flux from the
    extensive quantities yields the same values in all slots for
    [UpEval = Scalar] and for [UpEval = Evaluation]. *)
Theorem evalPhaseFluxes_extQuants_values_independent_of_UpEval
    tt flux phaseIdx pvtRegionIdx (volumeFlux : nat -> @Evaluation numEq) upFs :
  value <$> evalPhaseFluxes_extQuants (U:=Scalar) tt flux phaseIdx pvtRegionIdx
                                      volumeFlux upFs
  = value <$> evalPhaseFluxes_extQuants (U:=Evaluation) tt flux phaseIdx pvtRegionIdx
                                        volumeFlux upFs.
Proof.
  apply list_eq; intros k. rewrite !list_lookup_fmap.
  unfold evalPhaseFluxes_extQuants. by rewrite !evalPhaseFluxes_value.
Qed.

Lemma eadd_comm (a b : @Evaluation numEq) : eadd a b = eadd b a.
Proof.
  apply Evaluation_ext; simpl; [ring|].
  intros i. rewrite !vlookup_zip_with. ring.
Qed.

Lemma lookup_evalPhaseFluxes_ {U} `{UpEval (numEq:=numEq) U}
    tt flux phaseIdx pvtRegionIdx (svf : @Evaluation numEq) upFs k :
  evalPhaseFluxes_ (U:=U) tt flux phaseIdx pvtRegionIdx svf upFs !! k
  = (fun x => eadd x (evalPhaseContribution (U:=U) tt upFs pvtRegionIdx phaseIdx svf k))
      <$> flux !! k.
Proof.
  unfold evalPhaseFluxes_, getRs_, getRv_, getRvw_.
  repeat case_match; rewrite ?lookup_alter_eadd;
    destruct (flux !! k) as [x|]; cbn [fmap option_fmap option_map]; try done;
    f_equal; unfold evalPhaseContribution;
    repeat match goal with
           | Hb : ?b = _ |- context [if ?b then _ else _] => rewrite Hb
           end;
    rewrite ?eadd_assoc, ?eadd_zero_r, ?eadd_zero_l; done.
Qed.

Lemma lookup_computeFlux_body tt problem loc scvfIdx timeIdx flux phaseIdx k :
  computeFlux_body tt problem loc scvfIdx timeIdx flux phaseIdx !! k
  = (fun x => eadd x (fluxBodyContribution tt problem loc scvfIdx timeIdx phaseIdx k))
      <$> flux !! k.
Proof.
  unfold computeFlux_body, fluxBodyContribution.
  destruct (FluidSystem.phaseIsActive (FS tt) phaseIdx); simpl.
  - destruct (phasePressureDiff tt loc scvfIdx timeIdx phaseIdx) as [[upIdx dnIdx] pd].
    unfold computeFlux_phase, getInvB_. fold (upstream loc upIdx).
    case_match; apply lookup_evalPhaseFluxes_.
  - destruct (flux !! k) as [x|]; [|done]. simpl. by rewrite eadd_zero_r.
Qed.

Lemma lookup_foldl_computeFlux_body
    tt problem loc scvfIdx timeIdx (phases : list nat) flux k :
  foldl (computeFlux_body tt problem loc scvfIdx timeIdx) flux phases !! k
  = (fun x => foldl (fun acc p =>
                       eadd acc (fluxBodyContribution tt problem loc scvfIdx timeIdx p k))
                    x phases)
      <$> flux !! k.
Proof.
  revert flux. induction phases as [|p ps IH]; intros flux; simpl.
  - by destruct (flux !! k).
  - rewrite IH, lookup_computeFlux_body. by destruct (flux !! k).
Qed.

Lemma foldl_eadd_permutation (c : nat -> @Evaluation numEq) (l1 l2 : list nat) x :
  l1 ≡ₚ l2 ->
  foldl (fun acc p => eadd acc (c p)) x l1 = foldl (fun acc p => eadd acc (c p)) x l2.
Proof.
  intros Hperm. revert x.
  induction Hperm as [|p l1 l2 _ IH|p q l|l1 l2 l3 _ IH1 _ IH2]; intros x; simpl.
  - done.
  - apply IH.
  - f_equal. by rewrite !eadd_assoc, (eadd_comm (c q)).
  - by rewrite IH1, IH2.
Qed.

(** X9.  The flux is accumulated by additions only, so the order in which
    the phases are visited does not matter: running the loop body over any
    permutation of the phases [0 .. numPhases-1] gives exactly the flux
    vector (values and derivatives) that [computeFlux] accumulates. *)
Theorem computeFlux_phases_order_irrelevant
    tt problem flux elemCtx scvfIdx timeIdx (phases : list nat) :
  phases ≡ₚ seq 0 (numPhases tt) ->
  foldl (computeFlux_body tt problem
           (computeFlux_locals tt problem elemCtx scvfIdx timeIdx) scvfIdx timeIdx)
        ((fun _ => constant 0%Qc) <$> flux) phases
  = computeFlux_phases tt problem flux elemCtx scvfIdx timeIdx.
Proof.
  intros Hperm. unfold computeFlux_phases. apply list_eq; intros k.
  rewrite !lookup_foldl_computeFlux_body.
  destruct (((fun _ : @Evaluation numEq => constant 0%Qc) <$> flux) !! k) as [x|];
    [|done].
  cbn [fmap option_fmap option_map]. f_equal.
  by apply foldl_eadd_permutation.
Qed.

End FluxLoop.

(** * The storage term and the flux vector on return *)

Section OnReturn.
Context {numEq : nat}.
Implicit Types (tt : @TypeTag numEq) (flux storage : list (@Evaluation numEq)).
Implicit Types (problem : @Problem numEq) (loc : @FluxLocals numEq).
Implicit Types (elemCtx : @ElementContext numEq) (intQuants : @IntensiveQuantities numEq).

Lemma spec_flux_contribution_zero tt (upFs : @FluidState numEq) pvtRegionIdx phaseIdx
    (x : Scalar) k :
  spec_flux_contribution tt upFs pvtRegionIdx phaseIdx (x * 0)%Qc k = 0%Qc.
Proof.
  unfold spec_flux_contribution. repeat case_match; ring.
Qed.

Lemma fluxPhaseContribution_spec tt problem loc scvfIdx timeIdx phaseIdx k :
  fluxPhaseContribution tt problem loc scvfIdx timeIdx phaseIdx k
  = spec_phaseFlux tt problem loc scvfIdx timeIdx phaseIdx k.
Proof.
  unfold fluxPhaseContribution, spec_phaseFlux.
  destruct (FluidSystem.phaseIsActive (FS tt) phaseIdx); [|done].
  destruct (phasePressureDiff tt loc scvfIdx timeIdx phaseIdx) as [[upIdx dnIdx] pd].
  case_bool_decide as Hpd.
  - rewrite (darcyFlux_zero problem loc upIdx pd phaseIdx Hpd). cbn [value constant].
    apply spec_flux_contribution_zero.
  - by rewrite darcyFlux_value.
Qed.

Lemma fluxSum_spec tt problem loc scvfIdx timeIdx k :
  fluxSum tt problem loc scvfIdx timeIdx k = spec_fluxSum tt problem loc scvfIdx timeIdx k.
Proof.
  unfold fluxSum, spec_fluxSum. generalize 0%Qc.
  induction (seq 0 (numPhases tt)) as [|p ps IH]; intros a; cbn [foldl]; [done|].
  by rewrite fluxPhaseContribution_spec, IH.
Qed.

Lemma foldl_computeFlux_body_withDownstream
    tt problem loc scvfIdx timeIdx upIdx iq (phases : list nat) flux :
  Forall (fun phaseIdx =>
            FluidSystem.phaseIsActive (FS tt) phaseIdx = true ->
            phasePressureDiff tt (withDownstream upIdx iq loc) scvfIdx timeIdx phaseIdx
            = phasePressureDiff tt loc scvfIdx timeIdx phaseIdx
            /\ (phasePressureDiff tt loc scvfIdx timeIdx phaseIdx).1.1 = upIdx)
         phases ->
  foldl (computeFlux_body tt problem (withDownstream upIdx iq loc) scvfIdx timeIdx)
        flux phases
  = foldl (computeFlux_body tt problem loc scvfIdx timeIdx) flux phases.
Proof.
  intros Hall. revert flux.
  induction Hall as [|p ps Hp _ IH]; intros flux; cbn [foldl]; [done|].
  rewrite IH. f_equal. unfold computeFlux_body.
  destruct (FluidSystem.phaseIsActive (FS tt) p); cbn [negb]; [|done].
  destruct (Hp eq_refl) as [Hsame Hup]. rewrite Hsame.
  destruct (phasePressureDiff tt loc scvfIdx timeIdx p) as [[u d] pd].
  cbn [fst] in Hup. subst u. apply computeFlux_phase_withDownstream.
Qed.

(** C1.  On an interior face (two different degrees of freedom, first
    time level) [computeFlux] returns the module chain applied to a vector
    that holds, in every slot, the sum over the phases of what the
    specification prescribes: for every active phase whose potential
    difference is not zero, the Darcy flux potentialDifference *
    upstreamMobility * transMultiplier * (-transmissibility / faceArea),
    times the inverse formation-volume-factor of the upstream side,
    distributed with Rs, Rv, Rvw, the PVT region and the reference
    densities of the upstream side; nothing for the other phases; nothing
    of the vector's previous content.  The state of a side that is
    upstream for no active phase does not enter: with it replaced by any
    other state, the pressure-difference routine answering as before, the
    same vector goes to the modules. *)
Theorem computeFlux_darcy_upstream tt problem flux elemCtx scvfIdx :
  let loc := computeFlux_locals tt problem elemCtx scvfIdx 0 in
  interiorDofIdx loc <> exteriorDofIdx loc ->
  exists phasesFlux : list (@Evaluation numEq),
    computeFlux tt problem flux elemCtx scvfIdx 0
    = Some (computeFlux_modules tt phasesFlux elemCtx scvfIdx 0)
    /\ (forall k, k < length flux ->
          value <$> phasesFlux !! k = Some (spec_fluxSum tt problem loc scvfIdx 0 k))
    /\ (forall upIdx iq elemCtx',
          computeFlux_locals tt problem elemCtx' scvfIdx 0 = withDownstream upIdx iq loc ->
          (forall phaseIdx,
              phaseIdx < numPhases tt ->
              FluidSystem.phaseIsActive (FS tt) phaseIdx = true ->
              phasePressureDiff tt (withDownstream upIdx iq loc) scvfIdx 0 phaseIdx
              = phasePressureDiff tt loc scvfIdx 0 phaseIdx
              /\ (phasePressureDiff tt loc scvfIdx 0 phaseIdx).1.1 = upIdx) ->
          computeFlux tt problem flux elemCtx' scvfIdx 0
          = Some (computeFlux_modules tt phasesFlux elemCtx' scvfIdx 0)).
Proof.
  intros loc Hdof.
  exists (computeFlux_phases tt problem flux elemCtx scvfIdx 0).
  split; [|split].
  - unfold computeFlux. cbn [Nat.eqb negb].
    apply Nat.eqb_neq in Hdof. unfold loc in Hdof.
    cbn [interiorDofIdx exteriorDofIdx computeFlux_locals] in Hdof.
    by rewrite Hdof.
  - intros k Hk. rewrite <- fluxSum_spec. unfold computeFlux_phases, fluxSum.
    rewrite value_lookup_foldl_computeFlux_body, list_lookup_fmap.
    destruct (lookup_lt_is_Some_2 flux k Hk) as [x ->]. done.
  - intros upIdx iq elemCtx' Hloc' Hsame.
    unfold computeFlux. cbn [Nat.eqb negb].
    assert (Hin : interiorIndex (interiorFace (stencil elemCtx' 0) scvfIdx)
                  = interiorDofIdx loc)
      by (change (interiorDofIdx (computeFlux_locals tt problem elemCtx' scvfIdx 0)
                  = interiorDofIdx loc); by rewrite Hloc').
    assert (Hex : exteriorIndex (interiorFace (stencil elemCtx' 0) scvfIdx)
                  = exteriorDofIdx loc)
      by (change (exteriorDofIdx (computeFlux_locals tt problem elemCtx' scvfIdx 0)
                  = exteriorDofIdx loc); by rewrite Hloc').
    rewrite Hin, Hex. apply Nat.eqb_neq in Hdof. rewrite Hdof.
    do 2 f_equal. unfold computeFlux_phases. rewrite Hloc'. fold loc.
    apply foldl_computeFlux_body_withDownstream, Forall_forall.
    intros p Hp Hact. apply Hsame; [|done].
    apply list_elem_of_In, in_seq in Hp. lia.
Qed.








End OnReturn.

(** * Properties of the compositional two-phase problem base class *)

Section SetZero.
Import IMPETProblem2P2C.

Lemma assignZero_length idx (values : list Scalar) :
  length (assignZero idx values) = length values.
Proof. unfold assignZero. case_match; [done|apply length_insert]. Qed.

Lemma assignZero_lookup idx (values : list Scalar) j x :
  assignZero idx values !! j = Some x -> x = 0%Qc \/ values !! j = Some x.
Proof.
  unfold assignZero. case_match; [by right|].
  destruct (decide (Z.to_nat idx = j)) as [<-|Hne].
  - intros Hx. left.
    apply lookup_lt_Some in Hx as Hlt. rewrite length_insert in Hlt.
    rewrite list_lookup_insert_eq in Hx by done. congruence.
  - rewrite list_lookup_insert_ne by done. by right.
Qed.

Lemma assignZero_other idx (values : list Scalar) (j : Z) :
  (0 <= j)%Z -> j <> idx ->
  assignZero idx values !! Z.to_nat j = values !! Z.to_nat j.
Proof.
  intros Hj Hne. unfold assignZero. case_match; [done|].
  apply list_lookup_insert_ne. apply Z.ltb_ge in H. lia.
Qed.

(** X10.  [setZero] throws exactly when [Indices::contiWEqIdx] is zero and
    the equation is none of the pressure equation, the non-wetting
    transport equation and [-1]; with a [contiWEqIdx] that is not zero it
    never throws, whatever equation index it is handed. *)
Theorem setZero_throws_iff ix (values : list Scalar) equation :
  setZero ix values equation = inl InvalidStateException
  <-> contiWEqIdx ix = 0%Z
      /\ equation <> pressureEqIdx ix
      /\ equation <> contiNEqIdx ix
      /\ equation <> (-1)%Z.
Proof.
  unfold setZero.
  destruct (Z.eqb_spec equation (pressureEqIdx ix)),
    (Z.eqb_spec equation (contiNEqIdx ix)),
    (Z.eqb_spec (contiWEqIdx ix) 0),
    (Z.eqb_spec equation (-1)); simpl; split; try done; intros; intuition lia.
Qed.

(** X11.  With a [contiWEqIdx] that is not zero, a call that does not name
    the pressure equation (the call with the default argument [-1] among
    them) zeroes the two transport entries only: the pressure entry keeps
    its value. *)
Theorem setZero_keeps_pressure ix (values : list Scalar) equation :
  contiWEqIdx ix <> 0%Z ->
  equation <> pressureEqIdx ix ->
  (0 <= pressureEqIdx ix)%Z ->
  pressureEqIdx ix <> contiNEqIdx ix ->
  pressureEqIdx ix <> contiWEqIdx ix ->
  exists values',
    setZero ix values equation = inr values'
    /\ values' !! Z.to_nat (pressureEqIdx ix) = values !! Z.to_nat (pressureEqIdx ix)
    /\ values' = assignZero (contiWEqIdx ix) (assignZero (contiNEqIdx ix) values).
Proof.
  intros Hw Heq Hp HpN HpW. eexists. unfold setZero.
  apply Z.eqb_neq in Heq as ->. apply Z.eqb_neq in Hw as ->.
  rewrite orb_true_r. split; [done|]. split; [|done].
  by rewrite !assignZero_other.
Qed.

(** X12.  Whenever [setZero] returns, the vector has the size it had and
    every entry either is zero or is what it was: the function writes
    nothing but zeros. *)
Theorem setZero_writes_only_zeros ix (values values' : list Scalar) equation :
  setZero ix values equation = inr values' ->
  length values' = length values
  /\ forall j x, values' !! j = Some x -> x = 0%Qc \/ values !! j = Some x.
Proof.
  unfold setZero. intros Hset.
  repeat case_match; simplify_eq; (split; [by rewrite !assignZero_length|]);
    intros j x Hx;
    repeat (apply assignZero_lookup in Hx as [?|Hx]; [by left|]); by right.
Qed.

End SetZero.

(** * Properties of the Stokes model *)

Section StokesComposition.
Import Stokes StokesStatements.
Context {numEq : nat}.
Implicit Types (tt : @Stokes.TypeTag numEq) (fs : @Stokes.FluidState numEq).

(** The composition loop: [sumx] is the sum of the mole fractions handed
    out by the primary variables, and the fluid state holds exactly those
    in the components the loop visits. *)
Lemma update_composition_fold tt (priVars : @Stokes.PrimaryVariables numEq) timeIdx
    (comps : list nat) fs (sumx : @Evaluation numEq) :
  let given c := makeEvaluation priVars (moleFrac1Idx tt + c - 1) timeIdx in
  let step := fun '(fs, sumx) compIdx =>
                let fs := setMoleFraction fs (phaseIdx tt) compIdx (given compIdx) in
                (fs, eadd sumx (Stokes.moleFraction fs (phaseIdx tt) compIdx)) in
  (foldl step (fs, sumx) comps).2 = foldl eadd sumx (given <$> comps)
  /\ forall c, Stokes.moleFraction (foldl step (fs, sumx) comps).1 (phaseIdx tt) c
               = if bool_decide (c ∈ comps) then given c
                 else Stokes.moleFraction fs (phaseIdx tt) c.
Proof.
  intros given step. revert fs sumx.
  induction comps as [|c0 comps IH]; intros fs sumx.
  - split; [done|]. intros c. by rewrite bool_decide_eq_false_2 by apply not_elem_of_nil.
  - cbn [foldl fmap list_fmap]. unfold step at 2 4. cbn [Stokes.moleFraction setMoleFraction].
    rewrite !Nat.eqb_refl. cbn [andb].
    destruct (IH (setMoleFraction fs (phaseIdx tt) c0 (given c0))
                 (eadd sumx (given c0))) as [IHs IHm].
    split; [exact IHs|]. intros c. rewrite IHm.
    destruct (decide (c ∈ comps)) as [Hin|Hnin].
    + rewrite !bool_decide_eq_true_2; [done| |done]. by right.
    + rewrite (bool_decide_eq_false_2 _ Hnin). cbn [Stokes.moleFraction setMoleFraction].
      rewrite Nat.eqb_refl. cbn [andb].
      destruct (Nat.eqb_spec c c0) as [->|Hne].
      * rewrite bool_decide_eq_true_2; [done|by left].
      * rewrite bool_decide_eq_false_2; [done|].
        rewrite not_elem_of_cons. done.
Qed.

(** X13.  After [update], the mole fraction of component 0 in the Stokes
    phase is one minus the sum of the mole fractions the fluid state holds
    for the other components (value and derivatives; the sum accumulated
    from zero in the order of the components), and each of those is the
    evaluation of its primary variable.  It needs an energy module whose
    [update_] leaves the mole fractions alone. *)
Theorem Stokes_update_mole_fraction_closure
    tt (self : @Stokes.IntensiveQuantities numEq) elemCtx dofIdx timeIdx :
  (forall fs c,
      Stokes.moleFraction (Energy_update_ tt fs elemCtx dofIdx timeIdx) (phaseIdx tt) c
      = Stokes.moleFraction fs (phaseIdx tt) c) ->
  let fs' := fluidState_ (Stokes.update tt self elemCtx dofIdx timeIdx) in
  let priVars := primaryVars elemCtx dofIdx timeIdx in
  Stokes.moleFraction fs' (phaseIdx tt) 0
  = ssub 1%Qc (sumOfOtherMoleFractions tt fs')
  /\ forall c, 1 <= c < numComponents tt ->
       Stokes.moleFraction fs' (phaseIdx tt) c
       = makeEvaluation priVars (moleFrac1Idx tt + c - 1) timeIdx.
Proof.
  intros Henergy fs' priVars.
  unfold fs', sumOfOtherMoleFractions, Stokes.update, update_composition.
  fold priVars.
  set (fs0 := setSaturation _ _ _).
  pose proof (update_composition_fold tt priVars timeIdx
                (seq 1 (numComponents tt - 1)) fs0 (constant 0%Qc)) as Hfold.
  cbv zeta in Hfold.
  destruct (foldl _ (fs0, constant 0%Qc) (seq 1 (numComponents tt - 1)))
    as [fs1 sumx] eqn:Hloop.
  cbn [fst snd] in Hfold. destruct Hfold as [Hsum Hmf].
  cbn [fluidState_].
  set (fsEnd := Energy_update_ tt _ elemCtx dofIdx timeIdx).
  assert (Hzero : Stokes.moleFraction fsEnd (phaseIdx tt) 0 = ssub 1%Qc sumx).
  { unfold fsEnd. rewrite Henergy.
    cbn [Stokes.moleFraction setViscosity setDensity setMoleFraction].
    by rewrite !Nat.eqb_refl. }
  assert (Hother : forall c, 1 <= c < numComponents tt ->
             Stokes.moleFraction fsEnd (phaseIdx tt) c
             = makeEvaluation priVars (moleFrac1Idx tt + c - 1) timeIdx).
  { intros c Hc. unfold fsEnd. rewrite Henergy.
    cbn [Stokes.moleFraction setViscosity setDensity setMoleFraction].
    rewrite Nat.eqb_refl. cbn [andb].
    destruct c as [|c]; [lia|]. cbn [Nat.eqb].
    rewrite Hmf. rewrite bool_decide_eq_true_2; [done|].
    apply list_elem_of_In, in_seq. lia. }
  split; [|exact Hother].
  rewrite Hzero, Hsum. do 2 f_equal. apply list_fmap_ext.
  intros i c Hc. apply lookup_seq in Hc as [-> Hlt].
  symmetry. apply Hother. lia.
Qed.

End StokesComposition.

Section StokesGradients.
Import Stokes StokesStatements.
Context {numEq : nat}.
Implicit Types (tt : @Stokes.TypeTag numEq) (elemCtx : @Stokes.ElementContext numEq).
Implicit Types (v : list (@Evaluation numEq)).

Lemma lookup_foldl_alter_eadd (term : nat -> @Evaluation numEq) (dims : list nat) v d :
  NoDup dims ->
  foldl (fun v dimIdx => alter (fun x => eadd x (term dimIdx)) dimIdx v) v dims !! d
  = (fun x => if bool_decide (d ∈ dims) then eadd x (term d) else x) <$> v !! d.
Proof.
  intros Hnd. revert v. induction Hnd as [|d0 dims Hd0 _ IH]; intros v; cbn [foldl].
  - rewrite bool_decide_eq_false_2 by apply not_elem_of_nil. by destruct (v !! d).
  - rewrite IH, list_lookup_alter.
    destruct (decide (d0 = d)) as [->|Hne].
    + rewrite (bool_decide_eq_false_2 _ Hd0).
      rewrite bool_decide_eq_true_2 by (by left).
      by destruct (v !! d).
    + destruct (decide (d ∈ dims)) as [Hin|Hnin].
      * rewrite !bool_decide_eq_true_2; [done| |done]. by right.
      * rewrite !bool_decide_eq_false_2; [done| |done].
        rewrite not_elem_of_cons. split; [congruence|done].
Qed.

Lemma lookup_addPerDimension (dimWorld : nat) (term : nat -> @Evaluation numEq) v d :
  d < dimWorld ->
  addPerDimension dimWorld term v !! d = (fun x => eadd x (term d)) <$> v !! d.
Proof.
  intros Hd. unfold addPerDimension.
  rewrite lookup_foldl_alter_eadd by apply NoDup_seq.
  rewrite bool_decide_eq_true_2; [done|].
  apply list_elem_of_In, in_seq. lia.
Qed.

(** What degree of freedom [i] adds to a component of a quantity that is
    interpolated from the degrees of freedom: the weighted evaluation for
    the focus, the weighted value for every other one. *)
Lemma lookup_focus_loop (dimWorld focus : nat) (w : nat -> nat -> Scalar)
    (e : nat -> nat -> @Evaluation numEq) (dofs : list nat) v d :
  d < dimWorld ->
  foldl (fun acc i =>
           if i =? focus then
             addPerDimension dimWorld (fun dimIdx => sscale (w i dimIdx) (e i dimIdx)) acc
           else
             addPerDimension dimWorld
               (fun dimIdx => constant (w i dimIdx * value (e i dimIdx))%Qc) acc)
        v dofs !! d
  = (fun x => foldl (fun acc i =>
                       eadd acc (if i =? focus then sscale (w i d) (e i d)
                                 else constant (w i d * value (e i d))%Qc))
                    x dofs)
      <$> v !! d.
Proof.
  intros Hd. revert v. induction dofs as [|i dofs IH]; intros v; simpl.
  - by destruct (v !! d).
  - rewrite IH. destruct (i =? focus);
      rewrite lookup_addPerDimension by done; by destruct (v !! d).
Qed.

Lemma value_focus_sum (focus : nat) (w : nat -> Scalar) (e : nat -> @Evaluation numEq)
    (dofs : list nat) (x : @Evaluation numEq) :
  value (foldl (fun acc i =>
                  eadd acc (if i =? focus then sscale (w i) (e i)
                            else constant (w i * value (e i))%Qc))
               x dofs)
  = foldl (fun acc i => (acc + w i * value (e i))%Qc) (value x) dofs.
Proof.
  revert x. induction dofs as [|i dofs IH]; intros x; simpl; [done|].
  rewrite IH. by destruct (i =? focus).
Qed.

Lemma derivatives_focus_sum (focus : nat) (w : nat -> Scalar)
    (e : nat -> @Evaluation numEq) (dofs : list nat) (x : @Evaluation numEq) :
  NoDup dofs ->
  derivatives (foldl (fun acc i =>
                        eadd acc (if i =? focus then sscale (w i) (e i)
                                  else constant (w i * value (e i))%Qc))
                     x dofs)
  = if bool_decide (focus ∈ dofs)
    then vzip_with Qcplus (derivatives x) (derivatives (sscale (w focus) (e focus)))
    else derivatives x.
Proof.
  intros Hnd. revert x. induction Hnd as [|i dofs Hi _ IH]; intros x; cbn [foldl].
  - by rewrite bool_decide_eq_false_2 by apply not_elem_of_nil.
  - rewrite IH. destruct (Nat.eqb_spec i focus) as [->|Hne].
    + rewrite (bool_decide_eq_false_2 _ Hi).
      rewrite bool_decide_eq_true_2 by (by left). done.
    + assert (Hx : derivatives (eadd x (constant (w i * value (e i))%Qc))
                   = derivatives x)
        by (by apply derivatives_eadd_free).
      rewrite Hx.
      destruct (decide (focus ∈ dofs)) as [Hin|Hnin].
      * rewrite !bool_decide_eq_true_2; [done| |done]. by right.
      * rewrite !bool_decide_eq_false_2; [done| |done].
        rewrite not_elem_of_cons. split; [congruence|done].
Qed.

Lemma focus_in_dofs (focus n : nat) :
  bool_decide (focus ∈ seq 0 n) = bool_decide (focus < n).
Proof.
  apply bool_decide_ext. rewrite list_elem_of_In, in_seq. lia.
Qed.

Lemma zero_plus_derivatives (d : vec Scalar numEq) :
  vzip_with Qcplus (vreplicate numEq 0%Qc) d = d.
Proof.
  apply vec_eq; intros i. rewrite vlookup_zip_with, vlookup_replicate. ring.
Qed.

(** X14.  The pressure gradient [updateScvGradients] stores: each
    component has, as its value, the sum over the degrees of freedom of the
    element of gradient weight times pressure value, whatever the focus is;
    its derivatives are those of the focus degree of freedom's pressure,
    times that one's gradient weight, and are all zero when the focus is no
    degree of freedom of the element.  Nothing of the previous content of
    the member survives. *)
Theorem Stokes_pressure_gradient_focus
    tt (self : @Stokes.IntensiveQuantities numEq) elemCtx dofIdx timeIdx d :
  d < dimWorld tt ->
  d < length (pressureGrad_ self) ->
  exists e,
    pressureGrad_ (updateScvGradients tt self elemCtx dofIdx timeIdx) !! d = Some e
    /\ value e
       = weightedValueSum (numDof elemCtx 0)
           (fun i => gradientWeight elemCtx dofIdx timeIdx i d)
           (dofPressure tt elemCtx timeIdx)
    /\ derivatives e
       = if bool_decide (focusDofIndex elemCtx < numDof elemCtx 0)
         then derivatives
                (sscale (gradientWeight elemCtx dofIdx timeIdx (focusDofIndex elemCtx) d)
                        (dofPressure tt elemCtx timeIdx (focusDofIndex elemCtx)))
         else vreplicate numEq 0%Qc.
Proof.
  intros Hd Hlen. eexists. split; [|split].
  - cbn [pressureGrad_ updateScvGradients]. unfold pressureGradient_loop.
    rewrite (lookup_focus_loop (dimWorld tt) (focusDofIndex elemCtx)
               (fun i dimIdx => gradientWeight elemCtx dofIdx timeIdx i dimIdx)
               (fun i _ => dofPressure tt elemCtx timeIdx i)) by done.
    rewrite list_lookup_fmap.
    destruct (lookup_lt_is_Some_2 _ _ Hlen) as [x ->]. done.
  - unfold weightedValueSum.
    by rewrite (value_focus_sum (focusDofIndex elemCtx)
                  (fun i => gradientWeight elemCtx dofIdx timeIdx i d)).
  - rewrite (derivatives_focus_sum (focusDofIndex elemCtx)
               (fun i => gradientWeight elemCtx dofIdx timeIdx i d))
      by apply NoDup_seq.
    rewrite focus_in_dofs. case_bool_decide; [|done].
    apply zero_plus_derivatives.
Qed.

(** X15.  The velocity [velocityAtPos_] interpolates at a position: each
    component has, as its value, the sum over the degrees of freedom of
    shape value times the value of the centre velocity, whatever the focus
    is; its derivatives are those of the focus degree of freedom's centre
    velocity times its shape value, and are all zero when the focus is no
    degree of freedom of the element. *)
Theorem Stokes_velocityAtPos_focus
    tt elemCtx timeIdx (localPos : list Scalar) d :
  d < dimWorld tt ->
  exists e,
    velocityAtPos_ tt elemCtx timeIdx localPos !! d = Some e
    /\ value e
       = weightedValueSum (numDof elemCtx 0) (shapeValue elemCtx localPos)
           (fun i => dofVelocity elemCtx timeIdx i d)
    /\ derivatives e
       = if bool_decide (focusDofIndex elemCtx < numDof elemCtx 0)
         then derivatives
                (sscale (shapeValue elemCtx localPos (focusDofIndex elemCtx))
                        (dofVelocity elemCtx timeIdx (focusDofIndex elemCtx) d))
         else vreplicate numEq 0%Qc.
Proof.
  intros Hd. eexists. split; [|split].
  - unfold velocityAtPos_.
    rewrite (lookup_focus_loop (dimWorld tt) (focusDofIndex elemCtx)
               (fun i _ => shapeValue elemCtx localPos i)
               (fun i dimIdx => dofVelocity elemCtx timeIdx i dimIdx)) by done.
    by rewrite lookup_replicate_2.
  - unfold weightedValueSum.
    by rewrite (value_focus_sum (focusDofIndex elemCtx) (shapeValue elemCtx localPos)).
  - rewrite (derivatives_focus_sum (focusDofIndex elemCtx)
               (shapeValue elemCtx localPos)) by apply NoDup_seq.
    rewrite focus_in_dofs. case_bool_decide; [|done].
    apply zero_plus_derivatives.
Qed.

End StokesGradients.

Section StokesFlux.
Import Stokes StokesStatements.
Context {numEq : nat}.
Implicit Types (tt : @Stokes.TypeTag numEq) (elemCtx : @Stokes.ElementContext numEq).

Lemma negated_component (normal : list Scalar) d :
  default 0%Qc ((Qcopp <$> normal) !! d) = (- default 0%Qc (normal !! d))%Qc.
Proof.
  rewrite list_lookup_fmap. destruct (normal !! d); simpl; [done|ring].
Qed.

Lemma foldl_volumeFlux_negated (velocity : list (@Evaluation numEq))
    (normal : list Scalar) (dims : list nat) (acc : @Evaluation numEq) :
  foldl (fun volumeFlux dimIdx =>
           eadd volumeFlux
                (escale (default (constant 0%Qc) (velocity !! dimIdx))
                        (default 0%Qc ((Qcopp <$> normal) !! dimIdx))))
        (escale acc (- (1))%Qc) dims
  = escale (foldl (fun volumeFlux dimIdx =>
                     eadd volumeFlux
                          (escale (default (constant 0%Qc) (velocity !! dimIdx))
                                  (default 0%Qc (normal !! dimIdx))))
                  acc dims) (- (1))%Qc.
Proof.
  revert acc. induction dims as [|d dims IH]; intros acc; cbn [foldl]; [done|].
  rewrite <- IH. f_equal. rewrite negated_component.
  apply Evaluation_ext; simpl; [ring|].
  intros i. rewrite vlookup_map, !vlookup_zip_with, !vlookup_map. ring.
Qed.

Lemma update_volumeFlux_negated (dimWorld : nat) (velocity : list (@Evaluation numEq))
    (normal : list Scalar) :
  update_volumeFlux dimWorld velocity (Qcopp <$> normal)
  = escale (update_volumeFlux dimWorld velocity normal) (- (1))%Qc.
Proof.
  unfold update_volumeFlux.
  rewrite <- foldl_volumeFlux_negated. f_equal.
  apply Evaluation_ext; simpl; [ring|].
  intros i. rewrite vlookup_map. unfold constant. simpl. rewrite vlookup_replicate || idtac. ring.
Qed.

Lemma Qc_sign_flip (x : Qc) :
  x <> 0%Qc -> bool_decide (x * - (1) < 0)%Qc = negb (bool_decide (x < 0)%Qc).
Proof.
  intros Hx. replace (x * - (1))%Qc with (- x)%Qc by ring.
  destruct (decide (x < 0)%Qc) as [Hneg|Hnn].
  - rewrite (bool_decide_eq_true_2 _ Hneg). simpl.
    apply bool_decide_eq_false_2. intros Hneg'.
    pose proof (Qcplus_neg_nonpos _ _ Hneg (Qclt_le_weak _ _ Hneg')) as Hsum.
    replace (x + - x)%Qc with 0%Qc in Hsum by ring.
    by apply Qclt_not_le in Hsum.
  - rewrite (bool_decide_eq_false_2 _ Hnn). simpl.
    apply bool_decide_eq_true_2. apply Qcnot_le_lt. intros Hle.
    apply Qcnot_lt_le in Hnn.
    destruct (Qcle_lt_or_eq _ _ Hnn) as [Hpos|Heq]; [|done].
    pose proof (Qcplus_pos_nonneg _ _ Hpos Hle) as Hsum.
    replace (x + - x)%Qc with 0%Qc in Hsum by ring.
    by apply Qclt_not_le in Hsum.
Qed.

(** X16.  The volume flux over a face is antisymmetric in the normal: with
    the normal of the face negated (same velocity, same interior and
    exterior index), [update] computes the negated volume flux (value and
    derivatives) and, unless the flux is zero, exchanges the upstream and
    the downstream index; with a zero flux the interior index stays
    upstream for both orientations. *)
Theorem Stokes_update_normal_antisymmetry
    tt (self : @Stokes.ExtensiveQuantities numEq) elemCtx elemCtx'
    scvfIdx timeIdx (isBoundaryFace : bool) :
  let face ctx := if isBoundaryFace then boundaryFace (stencil ctx timeIdx) scvfIdx
                  else interiorFace (stencil ctx timeIdx) scvfIdx in
  let r := updateExtensive tt self elemCtx scvfIdx timeIdx isBoundaryFace in
  let r' := updateExtensive tt self elemCtx' scvfIdx timeIdx isBoundaryFace in
  normal (face elemCtx') = Qcopp <$> normal (face elemCtx) ->
  interiorIndex (face elemCtx') = interiorIndex (face elemCtx) ->
  exteriorIndex (face elemCtx') = exteriorIndex (face elemCtx) ->
  volumeFlux_ r' = escale (volumeFlux_ r) (- (1))%Qc
  /\ (value (volumeFlux_ r) <> 0%Qc ->
      upstreamIdx_ r' = downstreamIdx_ r /\ downstreamIdx_ r' = upstreamIdx_ r)
  /\ (value (volumeFlux_ r) = 0%Qc ->
      upstreamIdx_ r' = interiorIndex (face elemCtx)
      /\ upstreamIdx_ r = interiorIndex (face elemCtx)).
Proof.
  intros face r r' Hn Hi He.
  assert (Hflux : volumeFlux_ r' = escale (volumeFlux_ r) (- (1))%Qc).
  { unfold r, r'. cbn [volumeFlux_ updateExtensive]. fold (face elemCtx) (face elemCtx').
    rewrite Hn. apply update_volumeFlux_negated. }
  split; [exact Hflux|].
  assert (Hup : upstreamIdx_ r
                = if bool_decide (value (volumeFlux_ r) < 0)%Qc
                  then exteriorIndex (face elemCtx) else interiorIndex (face elemCtx))
    by reflexivity.
  assert (Hdn : downstreamIdx_ r
                = if bool_decide (value (volumeFlux_ r) < 0)%Qc
                  then interiorIndex (face elemCtx) else exteriorIndex (face elemCtx))
    by reflexivity.
  assert (Hup' : upstreamIdx_ r'
                 = if bool_decide (value (volumeFlux_ r') < 0)%Qc
                   then exteriorIndex (face elemCtx) else interiorIndex (face elemCtx))
    by (rewrite <- Hi, <- He; reflexivity).
  assert (Hdn' : downstreamIdx_ r'
                 = if bool_decide (value (volumeFlux_ r') < 0)%Qc
                   then interiorIndex (face elemCtx) else exteriorIndex (face elemCtx))
    by (rewrite <- Hi, <- He; reflexivity).
  rewrite Hup, Hdn, Hup', Hdn', Hflux.
  cbn [value escale].
  split.
  - intros Hne. rewrite (Qc_sign_flip _ Hne).
    by destruct (bool_decide (value (volumeFlux_ r) < 0)%Qc).
  - intros ->. replace (0 * - (1))%Qc with 0%Qc by ring.
    rewrite bool_decide_eq_false_2; [done|].
    by apply Qcle_not_lt.
Qed.

End StokesFlux.

(** * Properties of the VTK output of the composition *)

Section VtkSums.
Import VtkComposition VtkStatements.

Lemma foldl_sum_acc (f : nat -> Scalar) (l : list nat) (a : Scalar) :
  foldl (fun acc k => (acc + f k)%Qc) a l = (a + sumList f l)%Qc.
Proof.
  unfold sumList. revert a. induction l as [|k l IH]; intros a; simpl; [ring|].
  rewrite (IH (a + f k)%Qc), (IH (0 + f k)%Qc). ring.
Qed.

Lemma sumList_cons (f : nat -> Scalar) k (l : list nat) :
  sumList f (k :: l) = (f k + sumList f l)%Qc.
Proof. unfold sumList at 1. simpl. rewrite foldl_sum_acc. ring. Qed.

(** The two accumulators of the loop over the phases. *)
Lemma foldl_pair_sums (f g : nat -> Scalar) (l : list nat) (a b : Scalar) :
  foldl (fun '(x, y) k => ((x + f k)%Qc, (y + g k)%Qc)) (a, b) l
  = ((a + sumList f l)%Qc, (b + sumList g l)%Qc).
Proof.
  revert a b. induction l as [|k l IH]; intros a b; simpl.
  - unfold sumList. simpl. f_equal; ring.
  - rewrite IH, !sumList_cons. f_equal; ring.
Qed.

Lemma massOfComponent_sums tt fs c :
  massOfComponent tt fs c = (componentMass tt fs c, totalMass tt fs).
Proof.
  unfold massOfComponent, componentMass, totalMass, sumOver.
  rewrite (foldl_pair_sums
             (fun ph => (density fs ph * saturation fs ph * massFraction fs ph c)%Qc)
             (fun ph => (density fs ph * saturation fs ph)%Qc)).
  f_equal; ring.
Qed.

Lemma molesOfComponent_sums tt fs c :
  molesOfComponent tt fs c = (componentMoles tt fs c, totalMoles tt fs).
Proof.
  unfold molesOfComponent, componentMoles, totalMoles, sumOver.
  rewrite (foldl_pair_sums
             (fun ph => (molarDensity fs ph * saturation fs ph * moleFraction fs ph c)%Qc)
             (fun ph => (molarDensity fs ph * saturation fs ph)%Qc)).
  f_equal; ring.
Qed.

End VtkSums.

Section VtkFrame.
Import VtkComposition VtkStatements.
Implicit Types (m : VtkCompositionModule) (tt : VtkComposition.TypeTag).
Implicit Types (elemCtx : VtkComposition.ElementContext).

Lemma sameAt_refl J m : sameAt J m m.
Proof. by repeat split. Qed.

Lemma sameAt_trans J m1 m2 m3 : sameAt J m1 m2 -> sameAt J m2 m3 -> sameAt J m1 m3.
Proof.
  intros (A1 & A2 & A3 & A4 & A5 & A6 & A7) (B1 & B2 & B3 & B4 & B5 & B6 & B7).
  repeat split; intros; congruence.
Qed.

Lemma sameSizes_refl m : sameSizes m m.
Proof. by repeat split. Qed.

Lemma sameSizes_trans m1 m2 m3 : sameSizes m1 m2 -> sameSizes m2 m3 -> sameSizes m1 m3.
Proof.
  intros (A1 & A2 & A3 & A4 & A5 & A6 & A7) (B1 & B2 & B3 & B4 & B5 & B6 & B7).
  repeat split; intros; congruence.
Qed.

Lemma foldl_related {A} (R : VtkCompositionModule -> VtkCompositionModule -> Prop)
    (f : VtkCompositionModule -> A -> VtkCompositionModule) (l : list A) m :
  (forall m, R m m) ->
  (forall m1 m2 m3, R m1 m2 -> R m2 m3 -> R m1 m3) ->
  (forall m x, x ∈ l -> R m (f m x)) ->
  R m (foldl f m l).
Proof.
  intros Hrefl Htrans. revert m.
  induction l as [|x l IH]; intros m Hstep; simpl; [done|].
  apply (Htrans _ (f m x)); [apply Hstep; by left|].
  apply IH. intros m' x' Hx'. apply Hstep. by right.
Qed.

Lemma lookup_writePhaseComp I J ph c v buffer ph' c' :
  I <> J -> writePhaseComp I ph c v buffer ph' c' !! J = buffer ph' c' !! J.
Proof.
  intros Hne. unfold writePhaseComp. case_match; [|done].
  by apply list_lookup_insert_ne.
Qed.

Lemma lookup_writeComp I J c v buffer c' :
  I <> J -> writeComp I c v buffer c' !! J = buffer c' !! J.
Proof.
  intros Hne. unfold writeComp. case_match; [|done].
  by apply list_lookup_insert_ne.
Qed.

Lemma length_writePhaseComp I ph c v buffer ph' c' :
  length (writePhaseComp I ph c v buffer ph' c') = length (buffer ph' c').
Proof. unfold writePhaseComp. case_match; [apply length_insert|done]. Qed.

Lemma length_writeComp I c v buffer c' :
  length (writeComp I c v buffer c') = length (buffer c').
Proof. unfold writeComp. case_match; [apply length_insert|done]. Qed.

Lemma processPhaseComp_sameAt tt fs I J m ph c :
  I <> J -> sameAt J m (processPhaseComp tt fs I m ph c).
Proof.
  intros Hne. unfold sameAt, processPhaseComp; cbn.
  repeat split; intros; try done; case_match; try done;
    by apply lookup_writePhaseComp.
Qed.

Lemma processPhaseComp_sameSizes tt fs I m ph c :
  sameSizes m (processPhaseComp tt fs I m ph c).
Proof.
  unfold sameSizes, processPhaseComp; cbn.
  repeat split; intros; try done; case_match; try done;
    by apply length_writePhaseComp.
Qed.

Lemma processComp_sameAt tt fs I J m c :
  I <> J -> sameAt J m (processComp tt fs I m c).
Proof.
  intros Hne. unfold sameAt, processComp; cbn.
  repeat split; intros; try done; case_match; try done;
    try (destruct (massOfComponent _ _ _)); try (destruct (molesOfComponent _ _ _));
    by apply lookup_writeComp.
Qed.

Lemma processComp_sameSizes tt fs I m c :
  sameSizes m (processComp tt fs I m c).
Proof.
  unfold sameSizes, processComp; cbn.
  repeat split; intros; try done; case_match; try done;
    try (destruct (massOfComponent _ _ _)); try (destruct (molesOfComponent _ _ _));
    by apply length_writeComp.
Qed.

Lemma processDof_sameAt tt elemCtx J m i :
  globalSpaceIndex elemCtx i 0 <> J -> sameAt J m (processDof tt elemCtx m i).
Proof.
  intros Hne. unfold processDof.
  eapply sameAt_trans.
  - apply (foldl_related (A:=nat) (sameAt J)); [apply sameAt_refl|apply sameAt_trans|].
    intros m1 ph _.
    apply (foldl_related (A:=nat) (sameAt J)); [apply sameAt_refl|apply sameAt_trans|].
    intros m2 c _. by apply processPhaseComp_sameAt.
  - apply (foldl_related (A:=nat) (sameAt J)); [apply sameAt_refl|apply sameAt_trans|].
    intros m1 c _. by apply processComp_sameAt.
Qed.

Lemma processDof_sameSizes tt elemCtx m i : sameSizes m (processDof tt elemCtx m i).
Proof.
  unfold processDof.
  eapply sameSizes_trans.
  - apply (foldl_related (A:=nat) sameSizes); [apply sameSizes_refl|apply sameSizes_trans|].
    intros m1 ph _.
    apply (foldl_related (A:=nat) sameSizes); [apply sameSizes_refl|apply sameSizes_trans|].
    intros m2 c _. apply processPhaseComp_sameSizes.
  - apply (foldl_related (A:=nat) sameSizes); [apply sameSizes_refl|apply sameSizes_trans|].
    intros m1 c _. apply processComp_sameSizes.
Qed.

Lemma foldl_processDof_sameAt tt elemCtx J m (dofs : list nat) :
  (forall i, i ∈ dofs -> globalSpaceIndex elemCtx i 0 <> J) ->
  sameAt J m (foldl (processDof tt elemCtx) m dofs).
Proof.
  intros Hout.
  apply (foldl_related (A:=nat) (sameAt J)); [apply sameAt_refl|apply sameAt_trans|].
  intros m1 i Hi. apply processDof_sameAt. by apply Hout.
Qed.

Lemma foldl_processDof_sameSizes tt elemCtx m (dofs : list nat) :
  sameSizes m (foldl (processDof tt elemCtx) m dofs).
Proof.
  apply (foldl_related (A:=nat) sameSizes); [apply sameSizes_refl|apply sameSizes_trans|].
  intros m1 i _. apply processDof_sameSizes.
Qed.

(** X17.  [processElement] writes only at the grid indices of the
    element's primary degrees of freedom: at every other index all seven
    buffers hold what they held, and no buffer changes its size, whatever
    the output parameters are. *)
Theorem processElement_touches_only_the_element tt m elemCtx J :
  outsideElement elemCtx J ->
  sameAt J m (processElement tt m elemCtx)
  /\ sameSizes m (processElement tt m elemCtx).
Proof.
  intros Hout. split; [|apply foldl_processDof_sameSizes].
  apply foldl_processDof_sameAt. intros i Hi. apply Hout.
  apply list_elem_of_In, in_seq in Hi. lia.
Qed.

(** What the element's loop leaves at the index of a degree of freedom
    that shares it with no other: what the pass for that degree of freedom
    wrote, into buffers of the sizes the object had. *)
Lemma processElement_at_own_index tt m elemCtx i :
  i < numPrimaryDof elemCtx 0 ->
  ownsGlobalIndex elemCtx i ->
  exists m1,
    sameSizes m m1
    /\ sameAt (globalSpaceIndex elemCtx i 0) (processDof tt elemCtx m1 i)
              (processElement tt m elemCtx).
Proof.
  intros Hi Hown. unfold processElement.
  replace (seq 0 (numPrimaryDof elemCtx 0))
    with (seq 0 i ++ i :: seq (S i) (numPrimaryDof elemCtx 0 - S i)).
  2:{ change (i :: seq (S i) (numPrimaryDof elemCtx 0 - S i))
        with (seq i (S (numPrimaryDof elemCtx 0 - S i))).
      rewrite <- seq_app. f_equal. lia. }
  rewrite foldl_app. cbn [foldl].
  exists (foldl (processDof tt elemCtx) m (seq 0 i)).
  split; [apply foldl_processDof_sameSizes|].
  apply foldl_processDof_sameAt. intros j Hj Heq.
  apply list_elem_of_In, in_seq in Hj.
  assert (j = i) by (apply Hown; [lia|done]). lia.
Qed.

End VtkFrame.

Section VtkBuffers.
Import VtkComposition VtkStatements.
Implicit Types (m : VtkCompositionModule) (tt : VtkComposition.TypeTag).
Implicit Types (elemCtx : VtkComposition.ElementContext).

Lemma foldl_writeComp I (v : nat -> Scalar) (comps : list nat)
    (buffer : nat -> list Scalar) c :
  NoDup comps ->
  foldl (fun b k => writeComp I k (v k) b) buffer comps c
  = if bool_decide (c ∈ comps) then <[I := v c]> (buffer c) else buffer c.
Proof.
  intros Hnd. revert buffer.
  induction Hnd as [|k comps Hk _ IH]; intros buffer; cbn [foldl].
  - by rewrite bool_decide_eq_false_2 by apply not_elem_of_nil.
  - rewrite IH. unfold writeComp at 1 2.
    destruct (Nat.eqb_spec c k) as [->|Hne].
    + rewrite (bool_decide_eq_false_2 _ Hk).
      by rewrite bool_decide_eq_true_2 by (by left).
    + destruct (decide (c ∈ comps)) as [Hin|Hnin].
      * rewrite !bool_decide_eq_true_2; [done| |done]. by right.
      * rewrite !bool_decide_eq_false_2; [done| |done].
        rewrite not_elem_of_cons. done.
Qed.

Lemma foldl_writePhaseComp_inner I ph (v : nat -> Scalar) (comps : list nat)
    (buffer : nat -> nat -> list Scalar) ph' c :
  NoDup comps ->
  foldl (fun b k => writePhaseComp I ph k (v k) b) buffer comps ph' c
  = if bool_decide (ph' = ph /\ c ∈ comps) then <[I := v c]> (buffer ph' c)
    else buffer ph' c.
Proof.
  intros Hnd. revert buffer.
  induction Hnd as [|k comps Hk _ IH]; intros buffer; cbn [foldl].
  - rewrite bool_decide_eq_false_2; [done|].
    intros [_ H]. by apply not_elem_of_nil in H.
  - rewrite IH. unfold writePhaseComp at 1 2.
    destruct (Nat.eqb_spec ph' ph) as [->|Hph]; cbn [andb].
    + destruct (Nat.eqb_spec c k) as [->|Hne].
      * rewrite bool_decide_eq_false_2 by tauto.
        rewrite bool_decide_eq_true_2; [done|]. split; [done|by left].
      * destruct (decide (c ∈ comps)) as [Hin|Hnin].
        -- rewrite !bool_decide_eq_true_2; [done| |done]. split; [done|by right].
        -- assert (c ∉ k :: comps) by (rewrite not_elem_of_cons; tauto).
           rewrite !bool_decide_eq_false_2; [done|tauto|tauto].
    + rewrite !bool_decide_eq_false_2; [done|tauto|tauto].
Qed.

Lemma foldl_writePhaseComp I (v : nat -> nat -> Scalar) (phases comps : list nat)
    (buffer : nat -> nat -> list Scalar) ph c :
  NoDup phases -> NoDup comps ->
  foldl (fun b p => foldl (fun b k => writePhaseComp I p k (v p k) b) b comps)
        buffer phases ph c
  = if bool_decide (ph ∈ phases /\ c ∈ comps) then <[I := v ph c]> (buffer ph c)
    else buffer ph c.
Proof.
  intros Hndp Hndc. revert buffer.
  induction Hndp as [|p phases Hp _ IH]; intros buffer; cbn [foldl].
  - rewrite bool_decide_eq_false_2; [done|].
    intros [H _]. by apply not_elem_of_nil in H.
  - rewrite IH, (foldl_writePhaseComp_inner I p (v p)) by done.
    destruct (decide (c ∈ comps)) as [Hc|Hc].
    2:{ rewrite !bool_decide_eq_false_2; [done|tauto|tauto|tauto]. }
    destruct (decide (ph = p)) as [->|Hne].
    + rewrite (bool_decide_eq_false_2 (p ∈ phases /\ _)) by tauto.
      rewrite !bool_decide_eq_true_2; [done| |done]. split; [by left|done].
    + rewrite (bool_decide_eq_false_2 (ph = p /\ _)) by tauto.
      destruct (decide (ph ∈ phases)) as [Hin|Hnin].
      * rewrite !bool_decide_eq_true_2; [done| |done]. split; [by right|done].
      * assert (ph ∉ p :: phases) by (rewrite not_elem_of_cons; tauto).
        rewrite !bool_decide_eq_false_2; [done|tauto|tauto].
Qed.

End VtkBuffers.

Section VtkLoops.
Import VtkComposition VtkStatements.
Implicit Types (m : VtkCompositionModule) (tt : VtkComposition.TypeTag).
Implicit Types (elemCtx : VtkComposition.ElementContext) (fs : VtkComposition.FluidState).

(** The loop over the components, buffer by buffer. *)
Lemma foldl_processComp_fields tt fs I (comps : list nat) m :
  let m' := foldl (processComp tt fs I) m comps in
  moleFrac_ m' = moleFrac_ m
  /\ massFrac_ m' = massFrac_ m
  /\ molarity_ m' = molarity_ m
  /\ fugacityCoeff_ m' = fugacityCoeff_ m
  /\ totalMassFrac_ m'
     = (if totalMassFracOutput_ tt
        then foldl (fun b k =>
                      writeComp I k (componentMass tt fs k / totalMass tt fs)%Qc b)
                   (totalMassFrac_ m) comps
        else totalMassFrac_ m)
  /\ totalMoleFrac_ m'
     = (if totalMoleFracOutput_ tt
        then foldl (fun b k =>
                      writeComp I k (componentMoles tt fs k / totalMoles tt fs)%Qc b)
                   (totalMoleFrac_ m) comps
        else totalMoleFrac_ m)
  /\ fugacity_ m'
     = (if fugacityOutput_ tt
        then foldl (fun b k => writeComp I k (fugacity fs 0 k) b) (fugacity_ m) comps
        else fugacity_ m).
Proof.
  revert m. induction comps as [|k comps IH]; intros m; cbn [foldl].
  - repeat split; try done;
      [by destruct (totalMassFracOutput_ tt)|by destruct (totalMoleFracOutput_ tt)
      |by destruct (fugacityOutput_ tt)].
  - destruct (IH (processComp tt fs I m k)) as (H1 & H2 & H3 & H4 & H5 & H6 & H7).
    cbv zeta. rewrite H1, H2, H3, H4, H5, H6, H7.
    cbn [processComp moleFrac_ massFrac_ molarity_ fugacityCoeff_ totalMassFrac_
           totalMoleFrac_ fugacity_].
    repeat split; try done.
    + destruct (totalMassFracOutput_ tt); [|done]. by rewrite massOfComponent_sums.
    + destruct (totalMoleFracOutput_ tt); [|done]. by rewrite molesOfComponent_sums.
    + by destruct (fugacityOutput_ tt).
Qed.

(** The loop over the phases and the components, buffer by buffer. *)
Lemma foldl_processPhaseComp_inner_fields tt fs I ph (comps : list nat) m :
  let m' := foldl (fun self c => processPhaseComp tt fs I self ph c) m comps in
  totalMassFrac_ m' = totalMassFrac_ m
  /\ totalMoleFrac_ m' = totalMoleFrac_ m
  /\ fugacity_ m' = fugacity_ m
  /\ moleFrac_ m'
     = (if moleFracOutput_ tt
        then foldl (fun b k => writePhaseComp I ph k (moleFraction fs ph k) b)
                   (moleFrac_ m) comps
        else moleFrac_ m)
  /\ massFrac_ m'
     = (if massFracOutput_ tt
        then foldl (fun b k => writePhaseComp I ph k (massFraction fs ph k) b)
                   (massFrac_ m) comps
        else massFrac_ m)
  /\ molarity_ m'
     = (if molarityOutput_ tt
        then foldl (fun b k => writePhaseComp I ph k (molarity fs ph k) b)
                   (molarity_ m) comps
        else molarity_ m)
  /\ fugacityCoeff_ m'
     = (if fugacityCoeffOutput_ tt
        then foldl (fun b k => writePhaseComp I ph k (fugacityCoefficient fs ph k) b)
                   (fugacityCoeff_ m) comps
        else fugacityCoeff_ m).
Proof.
  revert m. induction comps as [|k comps IH]; intros m; cbn [foldl].
  - repeat split; try done;
      [by destruct (moleFracOutput_ tt)|by destruct (massFracOutput_ tt)
      |by destruct (molarityOutput_ tt)|by destruct (fugacityCoeffOutput_ tt)].
  - destruct (IH (processPhaseComp tt fs I m ph k)) as (H1 & H2 & H3 & H4 & H5 & H6 & H7).
    cbv zeta. rewrite H1, H2, H3, H4, H5, H6, H7.
    cbn [processPhaseComp moleFrac_ massFrac_ molarity_ fugacityCoeff_ totalMassFrac_
           totalMoleFrac_ fugacity_].
    repeat split; try done;
      [by destruct (moleFracOutput_ tt)|by destruct (massFracOutput_ tt)
      |by destruct (molarityOutput_ tt)|by destruct (fugacityCoeffOutput_ tt)].
Qed.

Lemma foldl_processPhaseComp_fields tt fs I (phases comps : list nat) m :
  let m' := foldl (fun self ph =>
                     foldl (fun self c => processPhaseComp tt fs I self ph c) self comps)
                  m phases in
  totalMassFrac_ m' = totalMassFrac_ m
  /\ totalMoleFrac_ m' = totalMoleFrac_ m
  /\ fugacity_ m' = fugacity_ m
  /\ moleFrac_ m'
     = (if moleFracOutput_ tt
        then foldl (fun b p =>
                      foldl (fun b k => writePhaseComp I p k (moleFraction fs p k) b)
                            b comps)
                   (moleFrac_ m) phases
        else moleFrac_ m)
  /\ massFrac_ m'
     = (if massFracOutput_ tt
        then foldl (fun b p =>
                      foldl (fun b k => writePhaseComp I p k (massFraction fs p k) b)
                            b comps)
                   (massFrac_ m) phases
        else massFrac_ m)
  /\ molarity_ m'
     = (if molarityOutput_ tt
        then foldl (fun b p =>
                      foldl (fun b k => writePhaseComp I p k (molarity fs p k) b)
                            b comps)
                   (molarity_ m) phases
        else molarity_ m)
  /\ fugacityCoeff_ m'
     = (if fugacityCoeffOutput_ tt
        then foldl (fun b p =>
                      foldl (fun b k =>
                               writePhaseComp I p k (fugacityCoefficient fs p k) b)
                            b comps)
                   (fugacityCoeff_ m) phases
        else fugacityCoeff_ m).
Proof.
  revert m. induction phases as [|p phases IH]; intros m; cbn [foldl].
  - repeat split; try done;
      [by destruct (moleFracOutput_ tt)|by destruct (massFracOutput_ tt)
      |by destruct (molarityOutput_ tt)|by destruct (fugacityCoeffOutput_ tt)].
  - destruct (IH (foldl (fun self c => processPhaseComp tt fs I self p c) m comps))
      as (H1 & H2 & H3 & H4 & H5 & H6 & H7).
    destruct (foldl_processPhaseComp_inner_fields tt fs I p comps m)
      as (G1 & G2 & G3 & G4 & G5 & G6 & G7).
    cbv zeta in *. rewrite H1, H2, H3, H4, H5, H6, H7, G1, G2, G3, G4, G5, G6, G7.
    repeat split; try done;
      [by destruct (moleFracOutput_ tt)|by destruct (massFracOutput_ tt)
      |by destruct (molarityOutput_ tt)|by destruct (fugacityCoeffOutput_ tt)].
Qed.

Lemma in_range (k n : nat) : k < n -> bool_decide (k ∈ seq 0 n) = true.
Proof. intros Hk. apply bool_decide_eq_true_2, list_elem_of_In, in_seq. lia. Qed.

(** What one pass of the loop over the degrees of freedom leaves at its
    own grid index. *)
Lemma processDof_entries tt elemCtx m i ph c :
  let I := globalSpaceIndex elemCtx i 0 in
  let fs := fluidState elemCtx i 0 in
  let m' := processDof tt elemCtx m i in
  ph < numPhases tt ->
  c < numComponents tt ->
  (moleFracOutput_ tt = true -> I < length (moleFrac_ m ph c) ->
   moleFrac_ m' ph c !! I = Some (moleFraction fs ph c))
  /\ (massFracOutput_ tt = true -> I < length (massFrac_ m ph c) ->
      massFrac_ m' ph c !! I = Some (massFraction fs ph c))
  /\ (molarityOutput_ tt = true -> I < length (molarity_ m ph c) ->
      molarity_ m' ph c !! I = Some (molarity fs ph c))
  /\ (totalMassFracOutput_ tt = true -> I < length (totalMassFrac_ m c) ->
      totalMassFrac_ m' c !! I = Some (componentMass tt fs c / totalMass tt fs)%Qc)
  /\ (totalMoleFracOutput_ tt = true -> I < length (totalMoleFrac_ m c) ->
      totalMoleFrac_ m' c !! I = Some (componentMoles tt fs c / totalMoles tt fs)%Qc)
  /\ (fugacityOutput_ tt = true -> I < length (fugacity_ m c) ->
      fugacity_ m' c !! I = Some (fugacity fs 0 c))
  /\ (fugacityCoeffOutput_ tt = true -> I < length (fugacityCoeff_ m ph c) ->
      fugacityCoeff_ m' ph c !! I = Some (fugacityCoefficient fs ph c)).
Proof.
  intros I fs m' Hph Hc. subst m'. unfold processDof. fold I fs.
  destruct (foldl_processComp_fields tt fs I (seq 0 (numComponents tt))
              (foldl (fun self ph =>
                        foldl (fun self c => processPhaseComp tt fs I self ph c)
                              self (seq 0 (numComponents tt)))
                     m (seq 0 (numPhases tt))))
    as (H1 & H2 & H3 & H4 & H5 & H6 & H7).
  destruct (foldl_processPhaseComp_fields tt fs I (seq 0 (numPhases tt))
              (seq 0 (numComponents tt)) m)
    as (G1 & G2 & G3 & G4 & G5 & G6 & G7).
  cbv zeta in *. rewrite H1, H2, H3, H4, H5, H6, H7, G1, G2, G3, G4, G5, G6, G7.
  assert (Hin : bool_decide (ph ∈ seq 0 (numPhases tt) /\ c ∈ seq 0 (numComponents tt))
                = true).
  { apply bool_decide_eq_true_2.
    split; apply list_elem_of_In, in_seq; lia. }
  repeat split; intros -> Hlen;
    rewrite ?foldl_writePhaseComp, ?foldl_writeComp by apply NoDup_seq;
    rewrite ?Hin, ?(in_range c _ Hc); by apply list_lookup_insert_eq.
Qed.

(** X18.  After [processElement], every buffer that is switched on and
    has an entry for the grid index of a degree of freedom holds there,
    provided the degree of freedom shares its index with no other one of
    the element, the quantity of that degree of freedom's fluid state at
    the first time level: the mole and mass fractions, molarities and
    fugacity coefficients of every phase and component; the fugacity in
    phase 0, whatever the number of phases is; and as total mass (mole)
    fraction the mass (moles) of the component, summed over the phases in
    their order, divided by the total mass (moles) summed likewise.  The
    buffers that are switched off need not be sized. *)
Theorem processElement_stores_the_fluid_state tt m elemCtx i ph c :
  let I := globalSpaceIndex elemCtx i 0 in
  let fs := fluidState elemCtx i 0 in
  let m' := processElement tt m elemCtx in
  i < numPrimaryDof elemCtx 0 ->
  ownsGlobalIndex elemCtx i ->
  ph < numPhases tt ->
  c < numComponents tt ->
  (moleFracOutput_ tt = true -> I < length (moleFrac_ m ph c) ->
   moleFrac_ m' ph c !! I = Some (moleFraction fs ph c))
  /\ (massFracOutput_ tt = true -> I < length (massFrac_ m ph c) ->
      massFrac_ m' ph c !! I = Some (massFraction fs ph c))
  /\ (molarityOutput_ tt = true -> I < length (molarity_ m ph c) ->
      molarity_ m' ph c !! I = Some (molarity fs ph c))
  /\ (totalMassFracOutput_ tt = true -> I < length (totalMassFrac_ m c) ->
      totalMassFrac_ m' c !! I = Some (componentMass tt fs c / totalMass tt fs)%Qc)
  /\ (totalMoleFracOutput_ tt = true -> I < length (totalMoleFrac_ m c) ->
      totalMoleFrac_ m' c !! I = Some (componentMoles tt fs c / totalMoles tt fs)%Qc)
  /\ (fugacityOutput_ tt = true -> I < length (fugacity_ m c) ->
      fugacity_ m' c !! I = Some (fugacity fs 0 c))
  /\ (fugacityCoeffOutput_ tt = true -> I < length (fugacityCoeff_ m ph c) ->
      fugacityCoeff_ m' ph c !! I = Some (fugacityCoefficient fs ph c)).
Proof.
  intros I fs m' Hi Hown Hph Hc. subst m'.
  destruct (processElement_at_own_index tt m elemCtx i Hi Hown)
    as (m1 & (Z1 & Z2 & Z3 & Z4 & Z5 & Z6 & Z7) & (S1 & S2 & S3 & S4 & S5 & S6 & S7)).
  fold I in S1, S2, S3, S4, S5, S6, S7.
  destruct (processDof_entries tt elemCtx m1 i ph c Hph Hc)
    as (P1 & P2 & P3 & P4 & P5 & P6 & P7).
  fold I fs in P1, P2, P3, P4, P5, P6, P7.
  rewrite S1, S2, S3, S4, S5, S6, S7.
  repeat split; intros Hflag Hlen;
    [apply P1|apply P2|apply P3|apply P4|apply P5|apply P6|apply P7];
    try done; by rewrite ?Z1, ?Z2, ?Z3, ?Z4, ?Z5, ?Z6, ?Z7.
Qed.

End VtkLoops.

(** * The storage term and the flux vector on return, at concrete inputs *)

Section OnReturnWitnesses.
Import Example.

Lemma computeFlux_darcy_upstream_witness :
  interiorDofIdx (computeFlux_locals ttOutflow problem (elemCtx 0) 0 0)
  <> exteriorDofIdx (computeFlux_locals ttOutflow problem (elemCtx 0) 0 0)
  /\ exists phasesFlux : list (@Evaluation 4),
       computeFlux ttOutflow problem ones (elemCtx 0) 0 0
       = Some (computeFlux_modules ttOutflow phasesFlux (elemCtx 0) 0 0)
       /\ forall k, k < length ones ->
            value <$> phasesFlux !! k
            = Some (spec_fluxSum ttOutflow problem
                      (computeFlux_locals ttOutflow problem (elemCtx 0) 0 0) 0 0 k).
Proof.
  assert (H1 : interiorDofIdx (computeFlux_locals ttOutflow problem (elemCtx 0) 0 0)
               <> exteriorDofIdx (computeFlux_locals ttOutflow problem (elemCtx 0) 0 0))
    by (simpl; lia).
  split; [exact H1|].
  destruct (computeFlux_darcy_upstream ttOutflow problem ones (elemCtx 0) 0 H1)
    as (phasesFlux & Hflux & Hsum & _).
  exists phasesFlux. exact (conj Hflux Hsum).
Defined.




End OnReturnWitnesses.

Section OnReturnCounterexamples.
Import Example.




End OnReturnCounterexamples.

(** * The further properties at concrete inputs *)

Section FurtherWitnesses.
Import Example.

Lemma adaptMassConservationQuantities_other_slots_witness :
  (3 ∉ convertedSlots ttMassCountercurrent)
  /\ adaptMassConservationQuantities_ ttMassCountercurrent ones 0 !! 3 = ones !! 3.
Proof.
  assert (H1 : 3 ∉ convertedSlots ttMassCountercurrent) by compute_done.
  split; [exact H1|].
  exact (proj1 (adaptMassConservationQuantities_other_slots
                  ttMassCountercurrent ones 0 3 H1)).
Defined.

Lemma computeStorage_phases_sum_witness :
  (forall phaseIdx, phaseIdx < numPhases ttOutflow ->
     FluidSystem.phaseIsActive (FS ttOutflow) phaseIdx = true
     \/ Indices.numPhases (IX ttOutflow) <> 3)
  /\ 2 < length ones
  /\ computeStorage_phases ttOutflow ones stateA 0 !! 2
     = Some (storageSum ttOutflow stateA 2).
Proof.
  assert (H1 : forall phaseIdx, phaseIdx < numPhases ttOutflow ->
                 FluidSystem.phaseIsActive (FS ttOutflow) phaseIdx = true
                 \/ Indices.numPhases (IX ttOutflow) <> 3)
    by (intros phaseIdx _; left; reflexivity).
  assert (H2 : 2 < length ones) by (simpl; lia).
  split; [exact H1|]. split; [exact H2|].
  exact (computeStorage_phases_sum ttOutflow ones stateA 0 2 H1 H2).
Defined.

Lemma computeFlux_phases_value_sum_witness :
  2 < length ones
  /\ value <$> (computeFlux_phases ttOutflow problem ones (elemCtx 0) 0 0 !! 2)
     = Some (fluxSum ttOutflow problem
               (computeFlux_locals ttOutflow problem (elemCtx 0) 0 0) 0 0 2).
Proof.
  assert (H1 : 2 < length ones) by (simpl; lia).
  split; [exact H1|].
  exact (computeFlux_phases_value_sum ttOutflow problem ones (elemCtx 0) 0 0 2 H1).
Defined.

Lemma computeFlux_values_independent_of_focus_witness :
  computeFlux_locals ttOutflow problem (withFocus 1 (elemCtx 0)) 0 0
  = withFocusLocals 1 (computeFlux_locals ttOutflow problem (elemCtx 0) 0 0)
  /\ value <$> computeFlux_phases ttOutflow problem ones (withFocus 1 (elemCtx 0)) 0 0
     = value <$> computeFlux_phases ttOutflow problem ones (elemCtx 0) 0 0.
Proof.
  split; [reflexivity|].
  exact (computeFlux_values_independent_of_focus
           ttOutflow problem ones (elemCtx 0) 1 0 0 eq_refl).
Defined.

Lemma computeFlux_phases_no_flow_witness :
  (forall phaseIdx,
      phaseIdx < numPhases ttNoflow ->
      FluidSystem.phaseIsActive (FS ttNoflow) phaseIdx = true ->
      value (phasePressureDiff ttNoflow
               (computeFlux_locals ttNoflow problem (elemCtx 0) 0 0) 0 0 phaseIdx).2
      = 0%Qc)
  /\ computeFlux_phases ttNoflow problem ones (elemCtx 0) 0 0
     = (fun _ => constant 0%Qc) <$> ones.
Proof.
  assert (H1 : forall phaseIdx,
             phaseIdx < numPhases ttNoflow ->
             FluidSystem.phaseIsActive (FS ttNoflow) phaseIdx = true ->
             value (phasePressureDiff ttNoflow
                      (computeFlux_locals ttNoflow problem (elemCtx 0) 0 0) 0 0 phaseIdx).2
             = 0%Qc)
    by (intros phaseIdx _ _; reflexivity).
  split; [exact H1|].
  exact (computeFlux_phases_no_flow ttNoflow problem ones (elemCtx 0) 0 0 H1).
Defined.

Lemma computeFlux_phases_sealed_face_witness :
  transmissibility ExampleSealed.sealedProblem (elemCtx 0) 0 1 = 0%Qc
  /\ area (interiorFace (stencil (elemCtx 0) 0) 0) <> 0%Qc
  /\ computeFlux_phases ttOutflow ExampleSealed.sealedProblem ones (elemCtx 0) 0 0
     = (fun _ => constant 0%Qc) <$> ones.
Proof.
  assert (H2 : area (interiorFace (stencil (elemCtx 0) 0) 0) <> 0%Qc)
    by (vm_compute; discriminate).
  split; [reflexivity|]. split; [exact H2|].
  exact (computeFlux_phases_sealed_face
           ttOutflow ExampleSealed.sealedProblem ones (elemCtx 0) 0 0 eq_refl H2).
Defined.

Lemma computeFlux_phases_order_irrelevant_witness :
  [2; 0; 1] ≡ₚ seq 0 (numPhases ttOutflow)
  /\ foldl (computeFlux_body ttOutflow problem
              (computeFlux_locals ttOutflow problem (elemCtx 0) 0 0) 0 0)
           ((fun _ => constant 0%Qc) <$> ones) [2; 0; 1]
     = computeFlux_phases ttOutflow problem ones (elemCtx 0) 0 0.
Proof.
  assert (H1 : [2; 0; 1] ≡ₚ seq 0 (numPhases ttOutflow))
    by (simpl; eapply perm_trans; [apply perm_swap|apply perm_skip, perm_swap]).
  split; [exact H1|].
  exact (computeFlux_phases_order_irrelevant
           ttOutflow problem ones (elemCtx 0) 0 0 [2; 0; 1] H1).
Defined.

End FurtherWitnesses.

Section SetZeroWitnesses.
Import IMPETProblem2P2C.

Lemma setZero_throws_iff_witness :
  setZero wettingFirstIndices exampleValues 5 = inl InvalidStateException.
Proof.
  apply (proj2 (setZero_throws_iff wettingFirstIndices exampleValues 5)).
  repeat split; simpl; lia.
Defined.

Lemma setZero_keeps_pressure_witness :
  contiWEqIdx exampleIndices <> 0%Z
  /\ (-1)%Z <> pressureEqIdx exampleIndices
  /\ exists values',
       setZero_default exampleIndices exampleValues = inr values'
       /\ values' !! 0 = Some (ofZ 5).
Proof.
  assert (H1 : contiWEqIdx exampleIndices <> 0%Z) by (simpl; lia).
  assert (H2 : (-1)%Z <> pressureEqIdx exampleIndices) by (simpl; lia).
  assert (H3 : (0 <= pressureEqIdx exampleIndices)%Z) by (simpl; lia).
  assert (H4 : pressureEqIdx exampleIndices <> contiNEqIdx exampleIndices)
    by (simpl; lia).
  assert (H5 : pressureEqIdx exampleIndices <> contiWEqIdx exampleIndices)
    by (simpl; lia).
  split; [exact H1|]. split; [exact H2|].
  destruct (setZero_keeps_pressure exampleIndices exampleValues (-1) H1 H2 H3 H4 H5)
    as (values' & Hset & Hp & _).
  exists values'. exact (conj Hset Hp).
Defined.

Lemma setZero_writes_only_zeros_witness :
  setZero exampleIndices exampleValues 0 = inr [0%Qc; ofZ 6; ofZ 7]
  /\ length [0%Qc; ofZ 6; ofZ 7] = length exampleValues.
Proof.
  split; [reflexivity|].
  exact (proj1 (setZero_writes_only_zeros
                  exampleIndices exampleValues [0%Qc; ofZ 6; ofZ 7] 0 eq_refl)).
Defined.

End SetZeroWitnesses.

Section StokesWitnesses.
Import Stokes StokesStatements.

Lemma Stokes_update_mole_fraction_closure_witness :
  (forall fs c,
      Stokes.moleFraction (Energy_update_ exampleTypeTag fs (exampleElemCtx 0 1) 0 0)
                          (phaseIdx exampleTypeTag) c
      = Stokes.moleFraction fs (phaseIdx exampleTypeTag) c)
  /\ Stokes.moleFraction
       (fluidState_ (Stokes.update exampleTypeTag (exampleIQ 10 1 2)
                       (exampleElemCtx 0 1) 0 0))
       (phaseIdx exampleTypeTag) 0
     = ssub 1%Qc
         (sumOfOtherMoleFractions exampleTypeTag
            (fluidState_ (Stokes.update exampleTypeTag (exampleIQ 10 1 2)
                            (exampleElemCtx 0 1) 0 0))).
Proof.
  assert (H1 : forall fs c,
             Stokes.moleFraction
               (Energy_update_ exampleTypeTag fs (exampleElemCtx 0 1) 0 0)
               (phaseIdx exampleTypeTag) c
             = Stokes.moleFraction fs (phaseIdx exampleTypeTag) c)
    by (intros fs c; reflexivity).
  split; [exact H1|].
  exact (proj1 (Stokes_update_mole_fraction_closure
                  exampleTypeTag (exampleIQ 10 1 2) (exampleElemCtx 0 1) 0 0 H1)).
Defined.

Lemma Stokes_pressure_gradient_focus_witness :
  1 < dimWorld exampleTypeTag
  /\ 1 < length (pressureGrad_ (exampleIQ 10 1 2))
  /\ exists e,
       pressureGrad_ (updateScvGradients exampleTypeTag (exampleIQ 10 1 2)
                        (exampleElemCtx 1 1) 0 0) !! 1 = Some e
       /\ value e
          = weightedValueSum 2 (fun i => gradientWeight (exampleElemCtx 1 1) 0 0 i 1)
              (dofPressure exampleTypeTag (exampleElemCtx 1 1) 0).
Proof.
  assert (H1 : 1 < dimWorld exampleTypeTag) by (simpl; lia).
  assert (H2 : 1 < length (pressureGrad_ (exampleIQ 10 1 2))) by (simpl; lia).
  split; [exact H1|]. split; [exact H2|].
  destruct (Stokes_pressure_gradient_focus
              exampleTypeTag (exampleIQ 10 1 2) (exampleElemCtx 1 1) 0 0 1 H1 H2)
    as (e & He & Hv & _).
  exists e. exact (conj He Hv).
Defined.

Lemma Stokes_velocityAtPos_focus_witness :
  0 < dimWorld exampleTypeTag
  /\ exists e,
       velocityAtPos_ exampleTypeTag (exampleElemCtx 1 1) 0 [ofZ 0; ofZ 0] !! 0 = Some e
       /\ value e
          = weightedValueSum 2 (shapeValue (exampleElemCtx 1 1) [ofZ 0; ofZ 0])
              (fun i => dofVelocity (exampleElemCtx 1 1) 0 i 0).
Proof.
  assert (H1 : 0 < dimWorld exampleTypeTag) by (simpl; lia).
  split; [exact H1|].
  destruct (Stokes_velocityAtPos_focus
              exampleTypeTag (exampleElemCtx 1 1) 0 [ofZ 0; ofZ 0] 0 H1)
    as (e & He & Hv & _).
  exists e. exact (conj He Hv).
Defined.

Lemma Stokes_update_normal_antisymmetry_witness :
  normal (interiorFace (stencil (exampleElemCtx 0 (-1)) 0) 0)
  = Qcopp <$> normal (interiorFace (stencil (exampleElemCtx 0 1) 0) 0)
  /\ volumeFlux_ (updateExtensive exampleTypeTag exampleExtensive
                    (exampleElemCtx 0 (-1)) 0 0 false)
     = escale (volumeFlux_ (updateExtensive exampleTypeTag exampleExtensive
                              (exampleElemCtx 0 1) 0 0 false)) (- (1))%Qc.
Proof.
  assert (H1 : normal (interiorFace (stencil (exampleElemCtx 0 (-1)) 0) 0)
               = Qcopp <$> normal (interiorFace (stencil (exampleElemCtx 0 1) 0) 0))
    by reflexivity.
  split; [exact H1|].
  exact (proj1 (Stokes_update_normal_antisymmetry
                  exampleTypeTag exampleExtensive (exampleElemCtx 0 1)
                  (exampleElemCtx 0 (-1)) 0 0 false H1 eq_refl eq_refl)).
Defined.

End StokesWitnesses.

Section VtkWitnesses.
Import VtkComposition VtkStatements.

Lemma processElement_touches_only_the_element_witness :
  outsideElement vtkElemCtx 3
  /\ sameAt 3 vtkModule (processElement (vtkTypeTag true) vtkModule vtkElemCtx).
Proof.
  assert (H1 : outsideElement vtkElemCtx 3)
    by (intros [|[|i]] Hi; simpl in *; lia).
  split; [exact H1|].
  exact (proj1 (processElement_touches_only_the_element
                  (vtkTypeTag true) vtkModule vtkElemCtx 3 H1)).
Defined.

Lemma processElement_stores_the_fluid_state_witness :
  0 < numPrimaryDof vtkElemCtx 0
  /\ ownsGlobalIndex vtkElemCtx 0
  /\ 1 < numPhases (vtkTypeTag false)
  /\ 0 < numComponents (vtkTypeTag false)
  /\ moleFracOutput_ (vtkTypeTag false) = true
  /\ 4 < length (moleFrac_ vtkDefaultModule 1 0)
  /\ moleFrac_ (processElement (vtkTypeTag false) vtkDefaultModule vtkElemCtx) 1 0 !! 4
     = Some (moleFraction (vtkFluidState 0) 1 0).
Proof.
  assert (H1 : 0 < numPrimaryDof vtkElemCtx 0) by (simpl; lia).
  assert (H2 : ownsGlobalIndex vtkElemCtx 0)
    by (intros [|[|j]] Hj Heq; simpl in *; lia).
  assert (H3 : 1 < numPhases (vtkTypeTag false)) by (simpl; lia).
  assert (H4 : 0 < numComponents (vtkTypeTag false)) by (simpl; lia).
  assert (H6 : 4 < length (moleFrac_ vtkDefaultModule 1 0)) by (simpl; lia).
  split; [exact H1|]. split; [exact H2|]. split; [exact H3|].
  split; [exact H4|]. split; [reflexivity|]. split; [exact H6|].
  exact (proj1 (processElement_stores_the_fluid_state
                  (vtkTypeTag false) vtkDefaultModule vtkElemCtx 0 1 0
                  H1 H2 H3 H4) eq_refl H6).
Defined.

End VtkWitnesses.
